(** * The grading orchestrator of accept_checker (manager.py)

    A shallow embedding of [Manager] and of the [_soft_run] wrapper.

    The coroutines of the source become computations of a state and
    exception monad [M].  The state is the one object the code mutates
    (the [results] list of the attempt under grading) together with the
    chronicle of every request the orchestrator sends to its
    collaborators: the document store, the alert channel, the file
    system helpers and the three grading strategies.  What a collaborator
    answers is not decided here: every answer is read from an
    [Environment], over which the theorems quantify.

    [M] reads [asyncio.gather] sequentially and knows two outcomes, a
    value or an exception.  A second monad, [Loop.T], adds the outcome
    that the event loop has stopped; the wrapper and the persistence
    path are given in it as well, and shown to agree with their first
    reading as long as the store raises nothing that leaves the loop. *)

From Stdlib Require Import ZArith List String Ascii Bool Lia.
From Stdlib Require Import SpecFloat.
From Stdlib Require Import DecimalString.
Import ListNotations.

Local Open Scope string_scope.
Local Open Scope list_scope.
Local Open Scope Z_scope.

(** ** Python values used by the manager *)

(** Exceptions.  [except BaseException] catches every one of them when
    it is raised to the coroutine that holds the [try].  [Raised] is any
    other exception that derives from [Exception], with its text;
    [SystemExit] and [KeyboardInterrupt] derive from [BaseException]
    only. *)
Inductive exn : Type :=
| ZeroDivisionError
| IndexError
| OverflowError
| ValueError
| Raised (description : string)
| SystemExit (description : string)
| KeyboardInterrupt (description : string).

(** [str(exc)] *)
Definition str_exn (e : exn) : string :=
  match e with
  | ZeroDivisionError => "division by zero"
  | IndexError => "list index out of range"
  | OverflowError => "cannot convert float infinity to integer"
  | ValueError => "cannot convert float NaN to integer"
  | Raised description => description
  | SystemExit description => description
  | KeyboardInterrupt description => description
  end.

(** The exceptions that the step of an asyncio Task raises again after
    it has stored them (tasks.py, [except (KeyboardInterrupt,
    SystemExit)]): raised in a coroutine that runs as a Task, they
    leave the event loop instead of reaching the awaiter of the Task. *)
Definition leaves_loop (e : exn) : bool :=
  match e with
  | SystemExit _ | KeyboardInterrupt _ => true
  | _ => false
  end.

(** [len(l)] as a Python int *)
Definition len {A : Type} (l : list A) : Z := Z.of_nat (List.length l).

(** [l[-1]] of a list already known to be non-empty; [None] stands for
    the empty case, which the caller tests first. *)
Definition last_item {A : Type} (l : list A) : option A :=
  match rev l with
  | [] => None
  | x :: _ => Some x
  end.

(** ** Binary64 arithmetic of line 153

    [passed_tests / len(verdicts) * 100] is carried out on Python floats.
    [SpecFloat] gives the IEEE 754 operations with round to nearest even;
    [prec = 53] and [emax = 1024] select binary64. *)
Module PyFloat.

Definition prec : Z := 53.
Definition emax : Z := 1024.

(** An integer read as the exact dyadic number [z * 2^0].  It is only
    fed to [SFdiv], which rounds the exact quotient once, as the true
    division of two Python ints does. *)
Definition exact_int (z : Z) : spec_float :=
  match z with
  | Z0 => S754_zero false
  | Zpos p => S754_finite false p 0
  | Zneg p => S754_finite true p 0
  end.

(** [float(z)] *)
Definition float_of_int (z : Z) : spec_float :=
  binary_normalize prec emax z 0 false.

(** [a / b] on two ints *)
Definition int_truediv (a b : Z) : exn + spec_float :=
  if b =? 0 then inl ZeroDivisionError
  else inr (SFdiv prec emax (exact_int a) (exact_int b)).

(** [x * k] with [x] a float and [k] an int *)
Definition mul_int (x : spec_float) (k : Z) : spec_float :=
  SFmul prec emax x (float_of_int k).

(** [math.floor(x)] *)
Definition floor (x : spec_float) : exn + Z :=
  match x with
  | S754_zero _ => inr 0
  | S754_finite s m e =>
      let n := if s then Zneg m else Zpos m in
      inr (if 0 <=? e then n * 2 ^ e else n / 2 ^ (- e))
  | S754_infinity _ => inl OverflowError
  | S754_nan => inl ValueError
  end.

End PyFloat.

(** Line 153: [floor(passed_tests / total * 100)] *)
Definition percent_tests_at (passed_tests total : Z) : exn + Z :=
  match PyFloat.int_truediv passed_tests total with
  | inl e => inl e
  | inr ratio => PyFloat.floor (PyFloat.mul_int ratio 100)
  end.

(** The truncated exact percentage, on integers. *)
Definition exact_percent (passed_tests total : Z) : Z := passed_tests * 100 / total.

(** The pairs [(passed, total)] with [1 <= total <= n] and
    [passed <= total] on which line 153 gives another number than the
    truncated exact percentage. *)
Definition percent_mismatches (n : nat) : list (Z * Z) :=
  filter
    (fun pt =>
       match percent_tests_at (fst pt) (snd pt) with
       | inr percent => negb (percent =? exact_percent (fst pt) (snd pt))
       | inl _ => true
       end)
    (flat_map (fun t => map (fun p => (Z.of_nat p, Z.of_nat t)) (seq 0 (S t)))
              (seq 1 n)).

(** ** Documents *)

(** Modelled from the spec: [Attempt.Result] of models, "reference to a
    TaskTest, a verdict code".  The verdict slot is written by the
    aggregation before anything reads it, so what it holds before is of
    no consequence. *)
Record Result : Type := mkResult {
  test : string;
  verdict : Z
}.

(** Modelled from the spec: [Attempt] of models, with the attributes the
    manager reads and never writes.  Its [results] list is mutated in
    place, so it lives in the [World]. *)
Record Attempt : Type := mkAttempt {
  spec : string;
  date : Z;
  language : string;
  text_answers : list string
}.

(** The dictionary built at lines 155-162, which is also the shape of the
    entries of [bests] and [results] in a user_task_result document.
    The keys "attempt", "date" and "verdict" are the fields
    [snap_attempt], [snap_date] and [snap_verdict]. *)
Record AttemptSnapshot : Type := mkSnapshot {
  snap_attempt : string;
  snap_date : Z;
  passedTests : Z;
  percentTests : Z;
  snap_verdict : Z;
  verdictTest : Z
}.

(** [snapshot["date"] = d] *)
Definition set_date (s : AttemptSnapshot) (d : Z) : AttemptSnapshot :=
  mkSnapshot (snap_attempt s) d (passedTests s) (percentTests s)
             (snap_verdict s) (verdictTest s).

(** Modelled from the spec: the user_task_result document, "per (user,
    task) aggregate" with its [results] and [bests] histories, as lines
    199-204 build it. *)
Record UserTaskResult : Type := mkUserTaskResult {
  utr_task : string;
  utr_user : string;
  utr_results : list AttemptSnapshot;
  utr_bests : list AttemptSnapshot
}.

(** Modelled from the spec: [TaskTest] of models. *)
Record TaskTest : Type := mkTaskTest {
  tt_spec : string;
  output_data : string
}.

(** Modelled from the spec: [Language] of models, "spec, and three
    numeric offsets (compile, run, memory)". *)
Record Language : Type := mkLanguage {
  lang_spec : string;
  compileOffset : Z;
  runOffset : Z;
  memOffset : Z
}.

(** Modelled from the spec: the checker program descriptor embedded in
    a grading job, which "itself has a language". *)
Record Checker : Type := mkChecker {
  checker_language : string;
  checker_source : string
}.

(** Modelled from the spec: [PendingQueueItem] of models, the grading
    job descriptor with its optional checker. *)
Record PendingQueueItem : Type := mkPendingQueueItem {
  task_type : Z;
  task_check_type : Z;
  checker : option Checker
}.

(** Modelled from the spec: the task document as [start] reads it, with
    the two fields of the projection at line 429. *)
Record TaskDoc : Type := mkTaskDoc {
  task_test_groups : list Z;
  task_tests : list string
}.

(** ** Python dictionaries with str keys

    In insertion order; setting a key that is present replaces its
    value where it stands. *)
Fixpoint dict_set {V : Type} (d : list (string * V)) (key : string) (value : V)
  : list (string * V) :=
  match d with
  | [] => [(key, value)]
  | (k, v) :: rest =>
      if String.eqb k key then (k, value) :: rest
      else (k, v) :: dict_set rest key value
  end.

Fixpoint dict_get {V : Type} (d : list (string * V)) (key : string) : option V :=
  match d with
  | [] => None
  | (k, v) :: rest => if String.eqb k key then Some v else dict_get rest key
  end.

(** [KeyError(key)] for an int key: [str] of it is the decimal writing
    of the key.  Nothing in the manager tells a KeyError from another
    exception but its text. *)
Definition KeyError_int (key : Z) : exn :=
  Raised (NilZero.string_of_int (Z.to_int key)).

(** The first exception of three outcomes in order, or the three values. *)
Definition collect3 {A B C : Type} (a : exn + A) (b : exn + B) (c : exn + C)
  : exn + (A * B * C) :=
  match a, b, c with
  | inl e, _, _ => inl e
  | inr _, inl e, _ => inl e
  | inr _, inr _, inl e => inl e
  | inr x, inr y, inr z => inr (x, y, z)
  end.

(** Modelled from the spec: the reads of the Attempt Loader, by the key
    they are made with.  Each answer is the object built from the
    document read ([find_one] or [find] followed by the constructor of
    models), or the exception of either; an absent record is such an
    exception.  For the attempt the answer gives its attributes and the
    content of its [results] list. *)
Record Loader : Type := mkLoader {
  load_attempt : string -> exn + (Attempt * list Result);
  load_queue_item : string -> exn + PendingQueueItem;
  load_task : string -> exn + TaskDoc;
  load_task_tests : list string -> exn + list TaskTest
}.

(** ** Requests sent to the collaborators *)

(** One constructor per write the manager issues. *)
Inductive DbWrite : Type :=
(* update_one("attempt", {"spec": s}, {"$set": {"status": st}}) *)
| UpdateAttemptStatus (attempt_spec : string) (status : Z)
(* update_one("user_task_status", {"attempt": s}, {"$set": {"status": st}}) *)
| UpdateUserTaskStatus (attempt_spec : string) (status : Z)
(* update_one("attempt", {"spec": s}, {"$set": {status, verdict, verdictTest, results, logs}}) *)
| UpdateAttemptFinal (attempt_spec : string) (status final_verdict final_test : Z)
                     (results : list Result) (logs : list string)
(* update_one("rating", {"user": u}, {"$inc": {"score": k}}, upsert) *)
| IncRatingScore (user : string) (k : Z) (upsert : bool)
(* user_task_result.insert_one({task, user, results, bests}) *)
| InsertUserTaskResult (doc : UserTaskResult)
(* user_task_result.update_one({task, user}, {"$push": {"results": r, "bests": b}}) *)
| PushUserTaskResult (task user : string) (result best : AttemptSnapshot)
(* delete_one("pending_task_attempt", {"attempt": s}) *)
| DeletePending (attempt_spec : string).

(** The three [start] calls of lines 306, 331 and 378. *)
Inductive StrategyCall : Type :=
| TextCheckerStart (user_answers correct_answers : list string) (test_groups : list Z)
| TestsCheckerStart (attempt : Attempt) (grouped_tests : list (list TaskTest))
                    (folder_path : string) (lang : Language)
| CustomCheckerStart (chk : Checker) (attempt : Attempt)
                     (grouped_tests : list (list TaskTest)) (folder_path : string)
                     (program_language checker_lang : Language).

Inductive Event : Type :=
| EvWrite (w : DbWrite)
| EvFindUserTaskResult (task user : string)
| EvFindLanguage (lang : string)
| EvAlert (kind message : string)
| EvCreateFolder (attempt_spec : string)
| EvDeleteFolder (folder_path : string)
| EvStart (call : StrategyCall).

(** Modelled from the spec: the storage contract behind [DATABASE], the
    strategy contract and the folder helpers of utils.basic, as answers
    to requests.  Each answer may depend on everything requested so far
    (most recent first) and is either an exception or a value; for a
    write the value is the [modified_count] of the reply. *)
Record Environment : Type := mkEnvironment {
  db_write : list Event -> DbWrite -> exn + Z;
  db_find_user_task_result :
    list Event -> string -> string -> exn + option UserTaskResult;
  db_find_language : list Event -> string -> exn + Language;
  fs_create_program_folder : list Event -> string -> exn + string;
  fs_delete_folder : list Event -> string -> exn + unit;
  strategy_start : list Event -> StrategyCall -> exn + (list Z * list string)
}.

(** ** The monad of coroutines *)

Record World : Type := mkWorld {
  attempt_results : list Result;   (* the list object [attempt.results] *)
  trace : list Event               (* most recent request first *)
}.

Definition M (A : Type) : Type := World -> (exn + A) * World.

Definition ret {A : Type} (a : A) : M A := fun w => (inr a, w).

Definition raise {A : Type} (e : exn) : M A := fun w => (inl e, w).

Definition bind {A B : Type} (m : M A) (k : A -> M B) : M B :=
  fun w =>
    match m w with
    | (inr a, w') => k a w'
    | (inl e, w') => (inl e, w')
    end.

Notation "x <- m ;; k" := (bind m (fun x => k))
  (at level 61, m at next level, right associativity).
Notation "m ;;; k" := (bind m (fun _ => k))
  (at level 61, right associativity).
Notation "' pat <- m ;; k" := (bind m (fun x => match x with pat => k end))
  (at level 61, pat pattern, m at next level, right associativity).

(** [try: body  except BaseException as e: handler(e)] *)
Definition try_except {A : Type} (body : M A) (handler : exn -> M A) : M A :=
  fun w =>
    match body w with
    | (inr a, w') => (inr a, w')
    | (inl e, w') => handler e w'
    end.

(** A pure evaluation that may raise *)
Definition lift {A : Type} (r : exn + A) : M A := fun w => (r, w).

(** Sends one request and reads its answer from the environment. *)
Definition request {A : Type} (ev : Event) (answer : list Event -> exn + A) : M A :=
  fun w => (answer (trace w), mkWorld (attempt_results w) (ev :: trace w)).

(** The first exception of a list of outcomes, or all the values. *)
Fixpoint collect {A : Type} (outcomes : list (exn + A)) : exn + list A :=
  match outcomes with
  | [] => inr []
  | inl e :: _ => inl e
  | inr a :: rest =>
      match collect rest with
      | inl e => inl e
      | inr l => inr (a :: l)
      end
  end.

Fixpoint run_all {A : Type} (aws : list (M A)) (w : World)
  : list (exn + A) * World :=
  match aws with
  | [] => ([], w)
  | m :: rest =>
      let (r, w1) := m w in
      let (rs, w2) := run_all rest w1 in
      (r :: rs, w2)
  end.

(** [await asyncio.gather] on the awaitables [aws], read sequentially.
    Every awaitable is started and none is cancelled when a sibling
    raises; the awaiting coroutine receives the values in order, or an
    exception.  Here the awaitables are run one after the other, each
    to its end, in the order of the list, and the exception handed over
    is the first one in that order.  This keeps of asyncio: which
    requests are sent when every request is answered, the order of the
    requests of one awaitable, and the order of the first requests of
    the awaitables.  It does not keep: how the later requests of one
    awaitable interleave with the requests of the next ones, which of
    several exceptions is handed over, that the awaiter resumes while
    siblings are still pending, and that a [SystemExit] or
    [KeyboardInterrupt] raised in an awaitable leaves the event loop
    (for the last, see [Loop] below). *)
Definition gather {A : Type} (aws : list (M A)) : M (list A) :=
  fun w => let (rs, w') := run_all aws w in (collect rs, w').

(** Discards the value of an awaitable. *)
Definition void {A : Type} (m : M A) : M unit := _ <- m ;; ret tt.

Definition get_results : M (list Result) :=
  fun w => (inr (attempt_results w), w).

Definition put_results (rs : list Result) : M unit :=
  fun w => (inr tt, mkWorld rs (trace w)).

(** ** Coroutines in the event loop

    [M] does not tell a coroutine that raises from a run in which the
    event loop has stopped.  [T] does: besides returning and raising to
    its awaiter, a computation may end because an exception has left the
    event loop, after which no coroutine of the run resumes. *)
Module Loop.

Inductive Outcome (A : Type) : Type :=
| Returns (a : A)     (* the coroutine returns [a] *)
| Raises (e : exn)    (* it raises [e] to the coroutine that awaits it *)
| Stops (e : exn).    (* [e] has left the event loop *)

Arguments Returns {A} a.
Arguments Raises {A} e.
Arguments Stops {A} e.

Definition T (A : Type) : Type := World -> Outcome A * World.

Definition ret {A : Type} (a : A) : T A := fun w => (Returns a, w).

Definition bind {A B : Type} (t : T A) (k : A -> T B) : T B :=
  fun w =>
    match t w with
    | (Returns a, w') => k a w'
    | (Raises e, w') => (Raises e, w')
    | (Stops e, w') => (Stops e, w')
    end.

(** [try: body  except BaseException as e: handler(e)]: nothing is
    caught once the loop has stopped. *)
Definition try_except {A : Type} (body : T A) (handler : exn -> T A) : T A :=
  fun w =>
    match body w with
    | (Returns a, w') => (Returns a, w')
    | (Raises e, w') => handler e w'
    | (Stops e, w') => (Stops e, w')
    end.


Definition void {A : Type} (t : T A) : T unit := bind t (fun _ => ret tt).

(** The Task that runs [t]: its step stores what [t] raises for the
    awaiter of the Task, and raises it again out of the loop when it is
    a [SystemExit] or a [KeyboardInterrupt]. *)
Definition task {A : Type} (t : T A) : T A :=
  fun w =>
    match t w with
    | (Raises e, w') => if leaves_loop e then (Stops e, w') else (Raises e, w')
    | outcome => outcome
    end.

(** The Tasks of a [gather], run one after the other as in [gather]
    above; a Task that leaves the loop ends the run. *)
Fixpoint run_tasks {A : Type} (ts : list (T A)) (w : World)
  : Outcome (list (exn + A)) * World :=
  match ts with
  | [] => (Returns [], w)
  | t :: rest =>
      match task t w with
      | (Stops e, w1) => (Stops e, w1)
      | (Raises e, w1) =>
          match run_tasks rest w1 with
          | (Returns rs, w2) => (Returns (inl e :: rs), w2)
          | stopped => stopped
          end
      | (Returns a, w1) =>
          match run_tasks rest w1 with
          | (Returns rs, w2) => (Returns (inr a :: rs), w2)
          | stopped => stopped
          end
      end
  end.

(** [await asyncio.gather] in the event loop *)
Definition gather {A : Type} (ts : list (T A)) : T (list A) :=
  fun w =>
    match run_tasks ts w with
    | (Returns rs, w') =>
        (match collect rs with inl e => Raises e | inr l => Returns l end, w')
    | (Raises e, w') => (Raises e, w')
    | (Stops e, w') => (Stops e, w')
    end.

End Loop.

Declare Scope loop_scope.
Delimit Scope loop_scope with loop.

Notation "x <- t ;; k" := (Loop.bind t (fun x => k))
  (at level 61, t at next level, right associativity) : loop_scope.
Notation "t ;;; k" := (Loop.bind t (fun _ => k))
  (at level 61, right associativity) : loop_scope.
Notation "' pat <- t ;; k" := (Loop.bind t (fun x => match x with pat => k end))
  (at level 61, pat pattern, t at next level, right associativity) : loop_scope.

(** ** A concrete installation

    Tables and collaborators on which the code can be run. *)
Module Sample.

(** A verdict table in the shape of the glossary: 0 is OK, every
    other class has a code of its own. *)
Definition map_verdict (name : string) : Z :=
  if String.eqb name "OK" then 0
  else if String.eqb name "TL" then 1
  else if String.eqb name "WA" then 2
  else if String.eqb name "CE" then 3
  else if String.eqb name "RE" then 4
  else if String.eqb name "ML" then 5
  else if String.eqb name "NT" then 6
  else if String.eqb name "SE" then 8
  else 7.

Definition map_attempt_status (name : string) : Z :=
  if String.eqb name "pending" then 0
  else if String.eqb name "testing" then 1
  else if String.eqb name "finished" then 2
  else 3.

(** A store in which every write reports [modified_count], the
    aggregate lookup finds [stored], and the strategies come back with
    [outcome]. *)
Definition environment (modified_count : Z) (stored : option UserTaskResult)
           (outcome : exn + (list Z * list string)) : Environment :=
  mkEnvironment
    (fun _ _ => inr modified_count)
    (fun _ _ _ => inr stored)
    (fun _ lang => inr (mkLanguage lang 0 0 0))
    (fun _ attempt_spec => inr attempt_spec)
    (fun _ _ => inr tt)
    (fun _ _ => outcome).

(** The same, with a store that refuses every write. *)
Definition broken_store (outcome : exn + (list Z * list string)) : Environment :=
  mkEnvironment
    (fun _ _ => inl (Raised "connection lost"))
    (fun _ _ _ => inr None)
    (fun _ lang => inr (mkLanguage lang 0 0 0))
    (fun _ attempt_spec => inr attempt_spec)
    (fun _ _ => inr tt)
    (fun _ _ => outcome).

Definition attempt : Attempt := mkAttempt "a1" 1700000000 "py" [].

Definition slots (n : nat) : list Result := repeat (mkResult "t" 7) n.

Definition queue_item : PendingQueueItem := mkPendingQueueItem 0 1 None.

Definition world (n : nat) : World := mkWorld (slots n) [].

Definition crashed : exn + (list Z * list string) :=
  inl (Raised "checker crashed").

(** A handler that raises at once. *)
Definition raising_handler (_ : Attempt) (_ _ : string) (_ : unit) : M unit :=
  raise (Raised "checker crashed").

(** An earlier attempt of the same user: wrong answer, 40 percent. *)
Definition previous_attempt : AttemptSnapshot :=
  mkSnapshot "a0" 1600000000 2 40 2 3.

Definition aggregate : UserTaskResult :=
  mkUserTaskResult "task" "user" [previous_attempt] [previous_attempt].

(** Fifty verdicts, twenty-nine of them OK. *)
Definition verdicts_29_of_50 : list Z := repeat 0 29 ++ repeat 2 21.

(** One group holding every test. *)
Definition group_values (task_tests : list TaskTest) (_ : list Z)
  : exn + list (list TaskTest) :=
  inr [task_tests].

Definition prepare_test_groups (_ : list Z) (tests_number : Z) : exn + list Z :=
  inr (repeat 0 (Z.to_nat tests_number)).

Definition repr_str (key : string) : string := ("'" ++ key ++ "'")%string.

Definition language_py : Language := mkLanguage "py" 0 0 0.

(** Two result slots on two different tests. *)
Definition two_tests : list Result := [mkResult "t1" 7; mkResult "t2" 7].

(** A loader that finds the attempt with the slots [two_tests], a
    grading job of task type [task_type] and check type [check_type]
    without checker, and the task tests [found]. *)
Definition loader (task_type check_type : Z) (found : list TaskTest) : Loader :=
  mkLoader
    (fun _ => inr (attempt, two_tests))
    (fun _ => inr (mkPendingQueueItem task_type check_type None))
    (fun _ => inr (mkTaskDoc [] ["t1"; "t2"]))
    (fun _ => inr found).

(** A store that reports [modified_count], in which the strategies
    answer two verdicts. *)
Definition graded (modified_count : Z) (verdicts : list Z) : Environment :=
  environment modified_count None (inr (verdicts, ["log"])).



End Sample.

Section Manager.

(** The tables of utils.basic, which the manager only looks up. *)
Variable map_verdict : string -> Z.
Variable map_attempt_status : string -> Z.

Variable env : Environment.

(** Modelled from the spec: generate_tests_verdicts of utils.basic
    ("a uniform verdict for every existing Result slot"): the code of
    [name], once per test. *)
Definition generate_tests_verdicts (name : string) (tests_number : nat) : list Z :=
  repeat (map_verdict name) tests_number.

(** Modelled from the spec: send_alert of utils.basic, the
    fire-and-forget [sendAlert(kind, message)]: it is recorded and
    always returns. *)
Definition send_alert (kind message : string) : M unit :=
  request (EvAlert kind message) (fun _ => inr tt).

(** [DATABASE.update_one], [insert_one] and [delete_one] *)
Definition database_write (op : DbWrite) : M Z :=
  request (EvWrite op) (fun tr => db_write env tr op).

(** ** [_get_attempt_final_info] (lines 99-115) *)

(** Lines 104-105: [results[idx].verdict = verdicts[idx]] from [idx] on.
    A missing [verdicts[idx]] raises; the slots written before stay
    written. *)
Fixpoint assign_verdicts (results : list Result) (verdicts : list Z) (idx : nat)
  : list Result * option exn :=
  match results with
  | [] => ([], None)
  | result :: rest =>
      match nth_error verdicts idx with
      | None => (result :: rest, Some IndexError)
      | Some v =>
          let (rest', e) := assign_verdicts rest verdicts (S idx) in
          (mkResult (test result) v :: rest', e)
      end
  end.

(** Lines 110-114: the scan, entered with the running pair. *)
Fixpoint scan_results (results : list Result)
         (attempt_final_verdict attempt_final_verdict_test : Z) : Z * Z :=
  match results with
  | [] => (attempt_final_verdict, attempt_final_verdict_test)
  | result :: rest =>
      let attempt_final_verdict_test := attempt_final_verdict_test + 1 in
      let attempt_final_verdict := verdict result in
      if negb (verdict result =? 0)
      then (attempt_final_verdict, attempt_final_verdict_test)
      else scan_results rest attempt_final_verdict attempt_final_verdict_test
  end.

(** [results] is what the list object holds on entry.  The list is the
    one of the attempt (line 229 passes [attempt.results]), so what
    lines 104-105 write is written to the world. *)
Definition _get_attempt_final_info (results : list Result) (verdicts : list Z)
  : M (Z * Z) :=
  let (results', e) := assign_verdicts results verdicts 0 in
  put_results results' ;;;
  match e with
  | Some e => raise e
  | None => ret (scan_results results' (map_verdict "NT") 0)
  end.

(** ** [_save_attempt_results] (lines 117-138)

    [result.to_dict()] is the record itself: the test reference and
    the verdict. *)
Definition _save_attempt_results (attempt_spec : string) (results : list Result)
           (attempt_final_verdict attempt_final_verdict_test : Z)
           (logs : list string) : M unit :=
  let results_dict := map (fun result => result) results in
  void (database_write
          (UpdateAttemptFinal attempt_spec (map_attempt_status "finished")
                              attempt_final_verdict attempt_final_verdict_test
                              results_dict logs)).

(** [user_task_result_collection.find_one({"task": t, "user": u})] *)
Definition find_one_user_task_result (task_spec author_login : string)
  : M (option UserTaskResult) :=
  request (EvFindUserTaskResult task_spec author_login)
          (fun tr => db_find_user_task_result env tr task_spec author_login).

(** ** [_save_task_results] (lines 140-216) *)
Definition _save_task_results (attempt : Attempt) (author_login task_spec : string)
           (verdicts : list Z)
           (attempt_final_verdict attempt_final_verdict_test : Z) : M unit :=
  let ok_verdict_spec := map_verdict "OK" in
  let passed_tests :=
    len (filter (fun verdict => verdict =? ok_verdict_spec) verdicts) in
  percent_tests <- lift (percent_tests_at passed_tests (len verdicts)) ;;
  let current_attempt :=
    mkSnapshot (spec attempt) (date attempt) passed_tests percent_tests
               attempt_final_verdict attempt_final_verdict_test in
  user_task_result_dict <- find_one_user_task_result task_spec author_login ;;
  let best_attempt :=
    match user_task_result_dict with
    | None => None
    | Some doc => last_item (utr_bests doc)
    end in
  let new_best_attempt :=
    match best_attempt with
    | Some best =>
        if ((snap_verdict best =? attempt_final_verdict)
            && (attempt_final_verdict =? ok_verdict_spec))
           || (percentTests best >? percent_tests)
        then set_date best (date attempt)
        else current_attempt
    | None => current_attempt
    end in
  let rating_actions :=
    if (match best_attempt with
        | None => true
        | Some best => negb (snap_verdict best =? 0)
        end)
       && (snap_verdict new_best_attempt =? 0)
    then [database_write (IncRatingScore author_login 1 true)]
    else [] in
  let result_action :=
    match user_task_result_dict with
    | None =>
        database_write
          (InsertUserTaskResult
             (mkUserTaskResult task_spec author_login
                               [current_attempt] [new_best_attempt]))
    | Some _ =>
        database_write
          (PushUserTaskResult task_spec author_login
                              current_attempt new_best_attempt)
    end in
  let database_actions := rating_actions ++ [result_action] in
  void (gather database_actions).

(** ** [_save_results] (lines 218-255) *)
Definition _save_results (attempt : Attempt) (author_login task_spec : string)
           (verdicts : list Z) (logs : list string) : M unit :=
  attempt_results_ <- get_results ;;
  ' (attempt_final_verdict, attempt_final_verdict_test) <-
    _get_attempt_final_info attempt_results_ verdicts ;;
  results <- get_results ;;
  void (gather
          [ void (database_write (DeletePending (spec attempt)));
            _save_attempt_results (spec attempt) results
                                  attempt_final_verdict attempt_final_verdict_test
                                  logs;
            _save_task_results attempt author_login task_spec verdicts
                               attempt_final_verdict attempt_final_verdict_test;
            void (database_write
                    (UpdateUserTaskStatus (spec attempt)
                                          (map_attempt_status "finished"))) ]).

(** ** [_set_testing] (lines 69-97) *)
Definition _set_testing (attempt : Attempt) (author_login task_spec : string)
  : M bool :=
  let status := map_attempt_status "testing" in
  replies <- gather
               [ database_write (UpdateAttemptStatus (spec attempt) status);
                 database_write (UpdateUserTaskStatus (spec attempt) status) ] ;;
  match replies with
  | [attempt_result; _] =>
      let is_testing_set := attempt_result =? 1 in
      (if negb is_testing_set
       then
         results <- get_results ;;
         _save_results attempt author_login task_spec
                       (generate_tests_verdicts "NT" (List.length results))
                       ["Error in setting testing status"]
       else ret tt) ;;;
      ret is_testing_set
  | _ => raise ValueError   (* unpacking two values never fails here *)
  end.

(** ** [_soft_run] (lines 27-63)

    [func] is the decorated handler; [args] is what the caller passes
    after [task_spec], handed over as it came. *)
Definition newline : string := String "010"%char EmptyString.

Definition _soft_run {Args : Type}
           (func : Attempt -> string -> string -> Args -> M unit)
           (attempt : Attempt) (author_login task_spec : string) (args : Args)
  : M unit :=
  try_except
    (func attempt author_login task_spec args)
    (fun manager_exc =>
       results <- get_results ;;
       send_alert "ManagerError"
                  (spec attempt ++ newline ++ str_exn manager_exc)%string ;;;
       try_except
         (_save_results attempt author_login task_spec
                        (generate_tests_verdicts "SE" (List.length results))
                        [str_exn manager_exc])
         (fun saving_exception =>
            send_alert "ManagerError (when saving results)"
                       (spec attempt ++ newline ++ str_exn saving_exception)%string)).

(** ** The handlers (lines 287-389) *)

(** [DATABASE.find_one("language", {"spec": s})] followed by
    [Language(...)]; the answer covers both. *)
Definition find_language (lang : string) : M Language :=
  request (EvFindLanguage lang) (fun tr => db_find_language env tr lang).

Definition create_program_folder (attempt_spec : string) : M string :=
  request (EvCreateFolder attempt_spec)
          (fun tr => fs_create_program_folder env tr attempt_spec).

Definition delete_folder (folder_path : string) : M unit :=
  request (EvDeleteFolder folder_path)
          (fun tr => fs_delete_folder env tr folder_path).

(** [checker_class().start(...)] *)
Definition start (call : StrategyCall) : M (list Z * list string) :=
  request (EvStart call) (fun tr => strategy_start env tr call).

(** The function decorated at line 287. *)
Definition _handle_text_task_func
           (attempt : Attempt) (author_login task_spec : string)
           (args : list TaskTest * list Z * PendingQueueItem) : M unit :=
  let '(task_tests, test_groups, _queue_item) := args in
  is_set_testing <- _set_testing attempt author_login task_spec ;;
  if negb is_set_testing then ret tt
  else
    let user_answers := text_answers attempt in
    let correct_answers := map output_data task_tests in
    ' (verdicts, logs) <-
      start (TextCheckerStart user_answers correct_answers test_groups) ;;
    _save_results attempt author_login task_spec verdicts logs.

Definition _handle_text_task (attempt : Attempt) (author_login task_spec : string)
           (task_tests : list TaskTest) (test_groups : list Z)
           (queue_item : PendingQueueItem) : M unit :=
  _soft_run _handle_text_task_func attempt author_login task_spec
            (task_tests, test_groups, queue_item).

(** The function decorated at line 311. *)
Definition _handle_tests_checker_func
           (attempt : Attempt) (author_login task_spec : string)
           (args : list (list TaskTest) * PendingQueueItem) : M unit :=
  let '(grouped_tests, _queue_item) := args in
  is_set <- _set_testing attempt author_login task_spec ;;
  if negb is_set then ret tt
  else
    lang <- find_language (language attempt) ;;
    folder_path <- create_program_folder (spec attempt) ;;
    ' (verdicts, logs) <-
      start (TestsCheckerStart attempt grouped_tests folder_path lang) ;;
    delete_folder folder_path ;;;
    _save_results attempt author_login task_spec verdicts logs.

Definition _handle_tests_checker (attempt : Attempt) (author_login task_spec : string)
           (grouped_tests : list (list TaskTest))
           (queue_item : PendingQueueItem) : M unit :=
  _soft_run _handle_tests_checker_func attempt author_login task_spec
            (grouped_tests, queue_item).

(** The function decorated at line 342. *)
Definition _handle_custom_checker_func
           (attempt : Attempt) (author_login task_spec : string)
           (args : list (list TaskTest) * PendingQueueItem) : M unit :=
  let '(grouped_tests, queue_item) := args in
  is_set <- _set_testing attempt author_login task_spec ;;
  if negb is_set then ret tt
  else
    match checker queue_item with
    | None =>
        results <- get_results ;;
        _save_results attempt author_login task_spec
                      (generate_tests_verdicts "NT" (List.length results))
                      ["Error in setting testing status"]
    | Some chk =>
        langs <- gather [ find_language (language attempt);
                          find_language (checker_language chk) ] ;;
        match langs with
        | [program_language; checker_lang] =>
            folder_path <- create_program_folder (spec attempt) ;;
            ' (verdicts, logs) <-
              start (CustomCheckerStart chk attempt grouped_tests folder_path
                                        program_language checker_lang) ;;
            delete_folder folder_path ;;;
            _save_results attempt author_login task_spec verdicts logs
        | _ => raise ValueError   (* unpacking two values never fails here *)
        end
    end.

Definition _handle_custom_checker (attempt : Attempt) (author_login task_spec : string)
           (grouped_tests : list (list TaskTest))
           (queue_item : PendingQueueItem) : M unit :=
  _soft_run _handle_custom_checker_func attempt author_login task_spec
            (grouped_tests, queue_item).

(** ** [_handle_code_task] (lines 270-285) and [start] (lines 409-461) *)

(** [group_values] and [prepare_test_groups] of utils.basic, which the
    manager only calls, and [repr] on str, which gives the text of a
    KeyError on a str key. *)
Variable group_values : list TaskTest -> list Z -> exn + list (list TaskTest).
Variable prepare_test_groups : list Z -> Z -> exn + list Z.
Variable repr_str : string -> string.

Variable loader : Loader.

(** [KeyError(key)] for a str key *)
Definition KeyError_str (key : string) : exn := Raised (repr_str key).

(** The table of lines 398-401; [None] is an absent key. *)
Definition _task_check_type_handler (check_type : Z)
  : option (Attempt -> string -> string -> list (list TaskTest) ->
            PendingQueueItem -> M unit) :=
  if check_type =? 0 then Some _handle_tests_checker
  else if check_type =? 1 then Some _handle_custom_checker
  else None.

Definition _handle_code_task (attempt : Attempt) (author_login task_spec : string)
           (task_tests : list TaskTest) (test_groups : list Z)
           (queue_item : PendingQueueItem) : M unit :=
  let check_type := task_check_type queue_item in
  grouped_tests <- lift (group_values task_tests test_groups) ;;
  match _task_check_type_handler check_type with
  | None => raise (KeyError_int check_type)
  | Some handler => handler attempt author_login task_spec grouped_tests queue_item
  end.

(** The table of lines 393-396; [None] is an absent key. *)
Definition _task_type_handler (task_type : Z)
  : option (Attempt -> string -> string -> list TaskTest -> list Z ->
            PendingQueueItem -> M unit) :=
  if task_type =? 0 then Some _handle_code_task
  else if task_type =? 1 then Some _handle_text_task
  else None.

(** Lines 442-446: the dictionary of the task tests found, by spec. *)
Definition build_task_tests_map (found : list TaskTest) : list (string * TaskTest) :=
  fold_left (fun task_tests_map task_test => dict_set task_tests_map (tt_spec task_test) task_test)
            found [].

(** Lines 448-450: [[task_tests_map[result.test] for result in results]] *)
Fixpoint lookup_task_tests (task_tests_map : list (string * TaskTest))
         (results : list Result) : exn + list TaskTest :=
  match results with
  | [] => inr []
  | result :: rest =>
      match dict_get task_tests_map (test result) with
      | None => inl (KeyError_str (test result))
      | Some task_test =>
          match lookup_task_tests task_tests_map rest with
          | inl e => inl e
          | inr task_tests => inr (task_test :: task_tests)
          end
      end
  end.

(** [Manager.start].  The name [start] is the one of the strategies
    above.  The attempt object is created here: its [results] list is
    put in the world before anything else touches it. *)
Definition manager_start (attempt_spec author_login task_spec : string) : M unit :=
  ' (attempt_dict, queue_item, task_dict) <-
    lift (collect3 (load_attempt loader attempt_spec)
                   (load_queue_item loader attempt_spec)
                   (load_task loader task_spec)) ;;
  let (attempt, attempt_results_) := attempt_dict in
  put_results attempt_results_ ;;;
  test_groups <-
    lift (prepare_test_groups (task_test_groups task_dict)
                              (len (task_tests task_dict))) ;;
  results <- get_results ;;
  let task_tests_specs := map test results in
  found <- lift (load_task_tests loader task_tests_specs) ;;
  let task_tests_map := build_task_tests_map found in
  results <- get_results ;;
  task_tests <- lift (lookup_task_tests task_tests_map results) ;;
  let task_type := task_type queue_item in
  match _task_type_handler task_type with
  | None => raise (KeyError_int task_type)
  | Some handler =>
      handler attempt author_login task_spec task_tests test_groups queue_item
  end.

(** ** [_save_task_results], [_save_results] and [_soft_run] in the event loop

    The same lines once more, over [Loop.T]: every [asyncio.gather] is
    [Loop.gather], every other [await] is [Loop.await]. *)




(** ** Observations on a run *)

(** The slots after lines 104-105 have run through. *)
Definition assigned (results : list Result) (verdicts : list Z) : list Result :=
  map (fun rv => mkResult (test (fst rv)) (snd rv)) (combine results verdicts).

Definition is_alert (ev : Event) : bool :=
  match ev with EvAlert _ _ => true | _ => false end.

(** The alerts of a chronicle, most recent first. *)
Definition alerts_of (tr : list Event) : list Event := filter is_alert tr.

Definition is_rating_write (ev : Event) : bool :=
  match ev with EvWrite (IncRatingScore _ _ _) => true | _ => false end.

Definition is_aggregate_write (ev : Event) : bool :=
  match ev with
  | EvWrite (InsertUserTaskResult _) | EvWrite (PushUserTaskResult _ _ _ _) => true
  | _ => false
  end.

(** Requests to the document store, as opposed to alerts, folders and
    strategies. *)
Definition is_storage (ev : Event) : Prop :=
  match ev with
  | EvWrite _ | EvFindUserTaskResult _ _ => True
  | _ => False
  end.

(** Anything but the [start] of a grading strategy. *)
Definition not_start (ev : Event) : Prop :=
  match ev with EvStart _ => False | _ => True end.

Definition storage_or_alert (ev : Event) : Prop :=
  match ev with
  | EvWrite _ | EvFindUserTaskResult _ _ | EvAlert _ _ => True
  | _ => False
  end.

(** The world in which [_set_testing] has sent its two status updates. *)
Definition after_status_updates (attempt : Attempt) (w : World) : World :=
  mkWorld (attempt_results w)
          (EvWrite (UpdateUserTaskStatus (spec attempt) (map_attempt_status "testing"))
             :: EvWrite (UpdateAttemptStatus (spec attempt)
                                             (map_attempt_status "testing"))
             :: trace w).

(** [m] only adds requests that satisfy [P] to the chronicle. *)
Definition emits {A : Type} (P : Event -> Prop) (m : M A) : Prop :=
  forall w, exists evs, trace (snd (m w)) = evs ++ trace w /\ Forall P evs.

(** The three writes of [_save_results] that do not depend on the
    aggregate: the pending descriptor is deleted, the attempt document
    is finished with the outcome of line 229, the status mirror is
    finished. *)
Definition terminal_writes_issued (attempt : Attempt) (author_login task_spec : string)
           (verdicts : list Z) (logs : list string) (w : World) : Prop :=
  exists (r : exn + unit) (w' : World) (evs : list Event)
         (final_verdict final_test : Z) (results' : list Result),
    _save_results attempt author_login task_spec verdicts logs w = (r, w')
    /\ _get_attempt_final_info (attempt_results w) verdicts w
       = (inr (final_verdict, final_test), mkWorld results' (trace w))
    /\ trace w' = evs ++ trace w
    /\ In (EvWrite (DeletePending (spec attempt))) evs
    /\ In (EvWrite (UpdateAttemptFinal (spec attempt) (map_attempt_status "finished")
                                       final_verdict final_test results' logs)) evs
    /\ In (EvWrite (UpdateUserTaskStatus (spec attempt)
                                         (map_attempt_status "finished"))) evs.

(** The four terminal writes of a not-tested fallback, among [evs]. *)
Definition not_tested_terminal_writes (attempt : Attempt) (evs : list Event) : Prop :=
  In (EvWrite (DeletePending (spec attempt))) evs
  /\ (exists final_verdict final_test results',
         In (EvWrite (UpdateAttemptFinal (spec attempt)
                                         (map_attempt_status "finished")
                                         final_verdict final_test results'
                                         ["Error in setting testing status"])) evs
         /\ Forall (fun r => verdict r = map_verdict "NT") results')
  /\ (exists ev, In ev evs /\ is_aggregate_write ev = true)
  /\ In (EvWrite (UpdateUserTaskStatus (spec attempt)
                                       (map_attempt_status "finished"))) evs.

(** A lost lease, in a store that answers: the lookup of the aggregate
    finds a document or none, both status updates of [_set_testing]
    are answered and the attempt document reports a modified count
    other than one.  The statement is that [_set_testing] then sends
    the four terminal writes. *)
Definition lease_loss_sends_terminal_writes (attempt : Attempt)
           (author_login task_spec : string) (w : World) : Prop :=
  let status := map_attempt_status "testing" in
  (forall tr, exists stored,
        db_find_user_task_result env tr task_spec author_login = inr stored) ->
  forall modified_count mirror_count : Z,
    db_write env (trace w) (UpdateAttemptStatus (spec attempt) status)
    = inr modified_count ->
    db_write env (EvWrite (UpdateAttemptStatus (spec attempt) status) :: trace w)
             (UpdateUserTaskStatus (spec attempt) status)
    = inr mirror_count ->
    modified_count <> 1 ->
    exists (r : exn + bool) (w' : World) (evs : list Event),
      _set_testing attempt author_login task_spec w = (r, w')
      /\ trace w' = evs ++ trace w
      /\ not_tested_terminal_writes attempt evs.


(** An answer that is a value, or an exception other than [SystemExit]
    and [KeyboardInterrupt]. *)
Definition keeps_loop {A : Type} (answer : exn + A) : Prop :=
  match answer with
  | inl e => leaves_loop e = false
  | inr _ => True
  end.

(** No request to the store is answered by a [SystemExit] or a
    [KeyboardInterrupt]. *)
Definition store_keeps_loop : Prop :=
  (forall tr op, keeps_loop (db_write env tr op))
  /\ (forall tr task user, keeps_loop (db_find_user_task_result env tr task user))
  /\ (forall tr lang, keeps_loop (db_find_language env tr lang)).


(** The final verdict and the final test index as the aggregation rule
    gives them for the verdicts [seen] in the slots: the first verdict
    that is not 0 with its 1-based position; 0 with the number of
    verdicts when there are verdicts and all are 0; the not-tested code
    with 0 when there is none. *)
Definition is_final_info (seen : list Z) (final_verdict final_test : Z) : Prop :=
  (forall (i : nat) (v : Z),
      nth_error seen i = Some v -> v <> 0 ->
      (forall j, (j < i)%nat -> nth_error seen j = Some 0) ->
      final_verdict = v /\ final_test = Z.of_nat i + 1)
  /\ (seen <> [] -> Forall (fun v => v = 0) seen ->
      final_verdict = 0 /\ final_test = len seen)
  /\ (seen = [] -> final_verdict = map_verdict "NT" /\ final_test = 0).

(** The new best as the merge rule states it: the previous best with
    the date of the current attempt, when there is a previous best and
    either both verdicts are the OK code or the previous best has the
    higher percentTests; the current attempt otherwise. *)
Definition new_best_by_rule (previous_best : option AttemptSnapshot)
           (current_attempt : AttemptSnapshot) : AttemptSnapshot :=
  match previous_best with
  | Some best =>
      if ((snap_verdict best =? map_verdict "OK")
          && (snap_verdict current_attempt =? map_verdict "OK"))
         || (percentTests current_attempt <? percentTests best)
      then set_date best (snap_date current_attempt)
      else current_attempt
  | None => current_attempt
  end.

(** The rating is due by the rule: the new best has verdict 0 and
    there is no previous best, or one with another verdict than 0. *)
Definition rating_due_by_rule (previous_best : option AttemptSnapshot)
           (new_best_attempt : AttemptSnapshot) : Prop :=
  snap_verdict new_best_attempt = 0
  /\ (previous_best = None
      \/ exists best, previous_best = Some best /\ snap_verdict best <> 0).

(** The last entry of [bests] in what the lookup of the aggregate
    found. *)
Definition previous_best_of (stored : option UserTaskResult)
  : option AttemptSnapshot :=
  match stored with
  | None => None
  | Some doc => last_item (utr_bests doc)
  end.

(** The write that brings the snapshot of the attempt to the aggregate:
    the aggregate is created when the lookup found none. *)
Definition aggregate_write (author_login task_spec : string)
           (stored : option UserTaskResult)
           (current_attempt new_best_attempt : AttemptSnapshot) : Event :=
  EvWrite
    (match stored with
     | None =>
         InsertUserTaskResult
           (mkUserTaskResult task_spec author_login
                             [current_attempt] [new_best_attempt])
     | Some _ =>
         PushUserTaskResult task_spec author_login current_attempt new_best_attempt
     end).

(** A call of [_save_results] has sent the three writes that do not go
    to the aggregate, and left [results'] in the slots: the pending
    descriptor is deleted, the attempt document is finished with
    [results'], the final verdict and index that the aggregation rule
    gives for the verdicts of [results'], and [logs]; the status mirror
    is finished. *)
Definition terminal_writes_sent (attempt : Attempt) (author_login task_spec : string)
           (verdicts : list Z) (logs : list string) (w : World)
           (results' : list Result) : Prop :=
  exists (r : exn + unit) (w' : World) (evs : list Event)
         (final_verdict final_test : Z),
    _save_results attempt author_login task_spec verdicts logs w = (r, w')
    /\ trace w' = evs ++ trace w
    /\ attempt_results w' = results'
    /\ is_final_info (map verdict results') final_verdict final_test
    /\ In (EvWrite (DeletePending (spec attempt))) evs
    /\ In (EvWrite (UpdateAttemptFinal (spec attempt) (map_attempt_status "finished")
                                       final_verdict final_test results' logs)) evs
    /\ In (EvWrite (UpdateUserTaskStatus (spec attempt)
                                         (map_attempt_status "finished"))) evs.

(** Every write to the store is answered. *)
Definition writes_answered : Prop :=
  forall tr op, exists modified_count, db_write env tr op = inr modified_count.

(** The store answers every request: no write raises, and no lookup of
    the aggregate. *)
Definition store_answers : Prop :=
  writes_answered
  /\ (forall tr task user,
         exists stored, db_find_user_task_result env tr task user = inr stored).


(** [m] returns, in every world. *)
Definition always_returns {A : Type} (m : M A) : Prop :=
  forall w, exists a, fst (m w) = inr a.

Definition is_status_mirror (ev : Event) : bool :=
  match ev with EvWrite (UpdateUserTaskStatus _ _) => true | _ => false end.

Definition is_start (ev : Event) : bool :=
  match ev with EvStart _ => true | _ => false end.


Definition not_alert (ev : Event) : Prop :=
  match ev with EvAlert _ _ => False | _ => True end.

(** [m] adds at most [n] requests that satisfy [f] to the chronicle. *)
Definition adds_at_most {A : Type} (f : Event -> bool) (n : nat) (m : M A) : Prop :=
  forall w, exists evs,
      trace (snd (m w)) = evs ++ trace w
      /\ (List.length (filter f evs) <= n)%nat.

(** [m] sends nothing: the chronicle is the same after it. *)
Definition silent {A : Type} (m : M A) : Prop :=
  emits (fun _ => False) m.

(** An exception out of [m] means that [m] has sent nothing. *)
Definition raises_before_sending {A : Type} (m : M A) : Prop :=
  forall w e w', m w = (inl e, w') -> trace w' = trace w.

(** The task test that [task_tests_map] holds for a spec after lines
    443-446 have run over [found]: the last one found with that spec. *)
Definition last_found (found : list TaskTest) (key : string) : option TaskTest :=
  find (fun task_test => String.eqb (tt_spec task_test) key) (rev found).

(** The slots when line 105 raises for want of a verdict: the first
    slots have received the verdicts there are, the others are as they
    were. *)
Definition partly_assigned (results : list Result) (verdicts : list Z) : list Result :=
  assigned (firstn (List.length verdicts) results) verdicts
  ++ skipn (List.length verdicts) results.



(** [m * 2^e <= 2^K], with the exponents in range. *)
Definition within (K m e : Z) : Prop := 0 <= m /\ e <= K /\ m <= 2 ^ (K - e).

Definition finite_within (K : Z) (x : spec_float) : Prop :=
  match x with
  | S754_zero _ => True
  | S754_finite _ m e => within K (Zpos m) e
  | _ => False
  end.

(** ** Binary64 facts: line 153 returns a number *)

Lemma shr_1_m (mrs : shr_record) :
  0 <= shr_m mrs -> shr_m (shr_1 mrs) = shr_m mrs / 2.
Proof.
  destruct mrs as [m r s]; simpl; intros H.
  destruct m as [|p|p]; try lia; [reflexivity|].
  destruct p; simpl.
  - rewrite Pos2Z.inj_xI. apply Z.div_unique with (r := 1); lia.
  - rewrite Pos2Z.inj_xO. apply Z.div_unique with (r := 0); lia.
  - reflexivity.
Qed.

Lemma pow2_xI (p : positive) : 2 ^ Zpos p~1 = 2 * (2 ^ Zpos p * 2 ^ Zpos p).
Proof.
  rewrite Pos2Z.inj_xI.
  replace (2 * Zpos p + 1) with (1 + Zpos p + Zpos p) by lia.
  rewrite !Z.pow_add_r by lia. rewrite Z.pow_1_r. lia.
Qed.

Lemma pow2_xO (p : positive) : 2 ^ Zpos p~0 = 2 ^ Zpos p * 2 ^ Zpos p.
Proof. rewrite <- Z.pow_add_r by lia. f_equal. lia. Qed.

Lemma iter_shr_1_m (p : positive) : forall mrs,
    0 <= shr_m mrs -> shr_m (iter_pos shr_1 p mrs) = shr_m mrs / 2 ^ Zpos p.
Proof.
  assert (P : forall q, 0 < 2 ^ Zpos q) by (intros; apply Z.pow_pos_nonneg; lia).
  induction p; intros mrs H; cbn [iter_pos].
  - assert (H1 : 0 <= shr_m (shr_1 mrs))
      by (rewrite shr_1_m by lia; apply Z.div_pos; lia).
    assert (H2 : 0 <= shr_m (iter_pos shr_1 p (shr_1 mrs))).
    { rewrite IHp by lia. apply Z.div_pos; [lia | apply P]. }
    rewrite IHp, IHp, shr_1_m by lia.
    pose proof (P p).
    rewrite !Z.div_div by lia. rewrite pow2_xI. reflexivity.
  - assert (H2 : 0 <= shr_m (iter_pos shr_1 p mrs)).
    { rewrite IHp by lia. apply Z.div_pos; [lia | apply P]. }
    pose proof (P p).
    rewrite IHp, IHp by lia. rewrite Z.div_div by lia.
    rewrite pow2_xO. reflexivity.
  - rewrite shr_1_m by lia. reflexivity.
Qed.

Lemma digits2_pos_lower (p : positive) : 2 ^ (Zpos (digits2_pos p) - 1) <= Zpos p.
Proof.
  induction p; cbn [digits2_pos].
  - rewrite Pos2Z.inj_succ.
    replace (Z.succ (Zpos (digits2_pos p)) - 1)
      with ((Zpos (digits2_pos p) - 1) + 1) by lia.
    rewrite Z.pow_add_r by lia. lia.
  - rewrite Pos2Z.inj_succ.
    replace (Z.succ (Zpos (digits2_pos p)) - 1)
      with ((Zpos (digits2_pos p) - 1) + 1) by lia.
    rewrite Z.pow_add_r by lia. lia.
  - simpl. lia.
Qed.

Lemma Zdigits2_le (m k : Z) : 0 <= m -> 0 <= k -> m <= 2 ^ k -> Zdigits2 m <= k + 1.
Proof.
  intros Hm Hk H. destruct m as [|p|p]; simpl; try lia.
  pose proof (digits2_pos_lower p) as L.
  destruct (Z_le_gt_dec (Zpos (digits2_pos p)) (k + 1)) as [|G];
    [assumption | exfalso].
  assert (2 ^ (k + 1) <= 2 ^ (Zpos (digits2_pos p) - 1))
    by (apply Z.pow_le_mono_r; lia).
  assert (2 ^ k < 2 ^ (k + 1)) by (apply Z.pow_lt_mono_r; lia).
  lia.
Qed.

Lemma shr_record_of_loc_m (m : Z) (l : location) :
  shr_m (shr_record_of_loc m l) = m.
Proof. destruct l as [|[]]; reflexivity. Qed.

Lemma shr_fexp_within (K m e : Z) (l : location) :
  emin PyFloat.prec PyFloat.emax <= K -> within K m e ->
  within K (shr_m (fst (shr_fexp PyFloat.prec PyFloat.emax m e l)))
         (snd (shr_fexp PyFloat.prec PyFloat.emax m e l)).
Proof.
  intros HK (Hm & He & Hb). unfold shr_fexp, shr.
  pose proof (Zdigits2_le m (K - e) Hm ltac:(lia) Hb) as Hd.
  assert (Hf : fexp PyFloat.prec PyFloat.emax (Zdigits2 m + e) <= K).
  { unfold fexp, PyFloat.prec in *.
    change (emin 53 PyFloat.emax) with (-1074) in *. lia. }
  destruct (fexp PyFloat.prec PyFloat.emax (Zdigits2 m + e) - e) as [|p|p] eqn:En;
    cbn [fst snd].
  - rewrite shr_record_of_loc_m. repeat split; assumption.
  - rewrite iter_shr_1_m by (rewrite shr_record_of_loc_m; assumption).
    rewrite shr_record_of_loc_m.
    assert (P : 0 < 2 ^ Zpos p) by (apply Z.pow_pos_nonneg; lia).
    repeat split.
    + apply Z.div_pos; lia.
    + lia.
    + replace (K - e) with ((K - (e + Zpos p)) + Zpos p) in Hb by lia.
      rewrite Z.pow_add_r in Hb by lia.
      apply Z.div_le_upper_bound; lia.
  - rewrite shr_record_of_loc_m. repeat split; assumption.
Qed.

Lemma round_nearest_even_within (K m e : Z) (l : location) :
  within K m e -> within (K + 1) (round_nearest_even m l) e.
Proof.
  intros (Hm & He & Hb).
  assert (P : 0 < 2 ^ (K - e)) by (apply Z.pow_pos_nonneg; lia).
  assert (Q : 2 ^ (K + 1 - e) = 2 * 2 ^ (K - e)).
  { replace (K + 1 - e) with (1 + (K - e)) by lia.
    rewrite Z.pow_add_r by lia. reflexivity. }
  unfold within. rewrite Q.
  destruct l as [|[]]; cbn [round_nearest_even]; try destruct (Z.even m); lia.
Qed.

Lemma binary_round_aux_within (K : Z) (s : bool) (m e : Z) (l : location) :
  emin PyFloat.prec PyFloat.emax <= K -> K + 1 <= PyFloat.emax - PyFloat.prec ->
  within K m e ->
  finite_within (K + 1) (binary_round_aux PyFloat.prec PyFloat.emax s m e l).
Proof.
  intros HK HK' H. unfold binary_round_aux.
  pose proof (shr_fexp_within K m e l HK H) as H1.
  destruct (shr_fexp PyFloat.prec PyFloat.emax m e l) as [mrs1 e1];
    cbn [fst snd] in H1.
  apply (round_nearest_even_within _ _ _ (loc_of_shr_record mrs1)) in H1.
  pose proof (shr_fexp_within (K + 1) _ _ loc_Exact ltac:(lia) H1) as H2.
  destruct (shr_fexp PyFloat.prec PyFloat.emax _ e1 loc_Exact) as [mrs2 e2];
    cbn [fst snd] in H2.
  destruct H2 as (Hm & He & Hb).
  destruct (shr_m mrs2) as [|q|q]; [exact I | | lia].
  replace (e2 <=? PyFloat.emax - PyFloat.prec) with true
    by (symmetry; apply Z.leb_le; lia).
  repeat split; assumption.
Qed.

(** A ratio of at most one is a finite float of at most two. *)
Lemma ratio_within (a b : Z) :
  0 <= a <= b -> 1 <= b ->
  finite_within 1 (SFdiv PyFloat.prec PyFloat.emax
                         (PyFloat.exact_int a) (PyFloat.exact_int b)).
Proof.
  intros Ha Hb. destruct b as [|pb|pb]; try lia.
  destruct a as [|pa|pa]; try lia; [exact I|].
  cbn [PyFloat.exact_int SFdiv].
  destruct (SFdiv_core_binary PyFloat.prec PyFloat.emax (Zpos pa) 0 (Zpos pb) 0)
    as [[mz ez] lz] eqn:E.
  apply (binary_round_aux_within 0);
    [vm_compute; discriminate | vm_compute; discriminate |].
  unfold SFdiv_core_binary in E.
  set (e' := Z.min _ _) in E.
  assert (He : e' <= 0) by (subst e'; lia).
  set (m' := match 0 - 0 - e' with Z0 => _ | Zpos _ => _ | Zneg _ => _ end) in E.
  assert (Hm : m' = Zpos pa * 2 ^ (0 - e')).
  { subst m'. destruct (0 - 0 - e') as [|s|s] eqn:Es.
    - replace (0 - e') with 0 by lia. lia.
    - rewrite Z.shiftl_mul_pow2 by lia. f_equal. f_equal. lia.
    - lia. }
  pose proof (Z_div_mod m' (Zpos pb) ltac:(lia)) as D.
  destruct (Z.div_eucl m' (Zpos pb)) as [q r].
  inversion E; subst mz ez lz; clear E.
  assert (P : 0 < 2 ^ (0 - e')) by (apply Z.pow_pos_nonneg; lia).
  repeat split; [nia | lia | nia].
Qed.

Lemma float_of_int_100 :
  PyFloat.float_of_int 100 = S754_finite false 7036874417766400 (-46).
Proof. vm_compute. reflexivity. Qed.

Lemma percent_within (x : spec_float) :
  finite_within 1 x -> finite_within 9 (PyFloat.mul_int x 100).
Proof.
  unfold PyFloat.mul_int. rewrite float_of_int_100.
  destruct x as [s|s| |s m e]; cbn [finite_within SFmul]; try tauto.
  intros (Hm & He & Hb).
  apply (binary_round_aux_within 8);
    [vm_compute; discriminate | vm_compute; discriminate |].
  repeat split; [lia | lia |].
  rewrite Pos2Z.inj_mul.
  replace (8 - (e + -46)) with ((1 - e) + 53) by lia.
  rewrite Z.pow_add_r by lia.
  assert (7036874417766400 <= 2 ^ 53) by (vm_compute; discriminate).
  assert (0 < 2 ^ (1 - e)) by (apply Z.pow_pos_nonneg; lia).
  nia.
Qed.

(** With at least one test, and no more passed tests than tests,
    line 153 raises nothing. *)
Lemma percent_tests_at_returns (passed_tests total : Z) :
  0 <= passed_tests <= total -> 1 <= total ->
  exists percent, percent_tests_at passed_tests total = inr percent.
Proof.
  intros Hp Ht. unfold percent_tests_at, PyFloat.int_truediv.
  replace (total =? 0) with false by (symmetry; apply Z.eqb_neq; lia).
  pose proof (percent_within _ (ratio_within passed_tests total Hp Ht)) as F.
  destruct (PyFloat.mul_int _ 100); cbn in F |- *; try contradiction; eauto.
Qed.

Lemma percent_tests_at_zero (passed_tests : Z) :
  percent_tests_at passed_tests 0 = inl ZeroDivisionError.
Proof. reflexivity. Qed.

(** ** What a computation adds to the chronicle *)

Lemma emits_ret {A : Type} (P : Event -> Prop) (a : A) : emits P (ret a).
Proof. intros w. exists []. split; [reflexivity | constructor]. Qed.

Lemma emits_raise {A : Type} (P : Event -> Prop) (e : exn) : emits P (@raise A e).
Proof. intros w. exists []. split; [reflexivity | constructor]. Qed.

Lemma emits_lift {A : Type} (P : Event -> Prop) (r : exn + A) : emits P (lift r).
Proof. intros w. exists []. split; [reflexivity | constructor]. Qed.

Lemma emits_get_results (P : Event -> Prop) : emits P get_results.
Proof. intros w. exists []. split; [reflexivity | constructor]. Qed.

Lemma emits_put_results (P : Event -> Prop) (rs : list Result) :
  emits P (put_results rs).
Proof. intros w. exists []. split; [reflexivity | constructor]. Qed.

Lemma emits_request {A : Type} (P : Event -> Prop) (ev : Event)
      (answer : list Event -> exn + A) :
  P ev -> emits P (request ev answer).
Proof. intros H w. exists [ev]. split; [reflexivity | auto]. Qed.

Lemma emits_bind {A B : Type} (P : Event -> Prop) (m : M A) (k : A -> M B) :
  emits P m -> (forall a, emits P (k a)) -> emits P (bind m k).
Proof.
  intros Hm Hk w. unfold bind.
  destruct (Hm w) as (evs1 & E1 & F1).
  destruct (m w) as [[e|a] w1]; simpl in *.
  - exists evs1; auto.
  - destruct (Hk a w1) as (evs2 & E2 & F2).
    exists (evs2 ++ evs1). rewrite E2, E1, app_assoc.
    split; [reflexivity | apply Forall_app; auto].
Qed.

Lemma emits_try_except {A : Type} (P : Event -> Prop) (body : M A)
      (handler : exn -> M A) :
  emits P body -> (forall e, emits P (handler e)) -> emits P (try_except body handler).
Proof.
  intros Hm Hk w. unfold try_except.
  destruct (Hm w) as (evs1 & E1 & F1).
  destruct (body w) as [[e|a] w1]; simpl in *.
  - destruct (Hk e w1) as (evs2 & E2 & F2).
    exists (evs2 ++ evs1). rewrite E2, E1, app_assoc.
    split; [reflexivity | apply Forall_app; auto].
  - exists evs1; auto.
Qed.

Lemma emits_run_all {A : Type} (P : Event -> Prop) (aws : list (M A)) :
  Forall (emits P) aws ->
  forall w, exists evs,
      trace (snd (run_all aws w)) = evs ++ trace w /\ Forall P evs.
Proof.
  induction 1 as [|m rest Hm _ IH]; intros w; cbn [run_all].
  - exists []. split; [reflexivity | constructor].
  - destruct (Hm w) as (evs1 & E1 & F1).
    destruct (m w) as [r w1]; cbn [snd] in E1.
    destruct (IH w1) as (evs2 & E2 & F2).
    destruct (run_all rest w1) as [rs w2]; cbn [snd] in E2 |- *.
    exists (evs2 ++ evs1). rewrite E2, E1, app_assoc.
    split; [reflexivity | apply Forall_app; auto].
Qed.

Lemma emits_gather {A : Type} (P : Event -> Prop) (aws : list (M A)) :
  Forall (emits P) aws -> emits P (gather aws).
Proof.
  intros H w. unfold gather.
  destruct (emits_run_all P aws H w) as (evs & E & F).
  destruct (run_all aws w) as [rs w']. exists evs. auto.
Qed.

Lemma emits_void {A : Type} (P : Event -> Prop) (m : M A) :
  emits P m -> emits P (void m).
Proof. intros H. apply emits_bind; [assumption | intros; apply emits_ret]. Qed.

Lemma emits_weaken {A : Type} (P Q : Event -> Prop) (m : M A) :
  (forall ev, P ev -> Q ev) -> emits P m -> emits Q m.
Proof.
  intros PQ H w. destruct (H w) as (evs & E & F).
  exists evs. split; [assumption | eapply Forall_impl; eauto].
Qed.

Ltac emits_step :=
  first
    [ apply emits_ret | apply emits_raise | apply emits_lift
    | apply emits_get_results | apply emits_put_results
    | apply emits_request; exact I
    | apply emits_void
    | apply emits_bind; [| intros ?]
    | apply emits_try_except; [| intros ?]
    | apply emits_gather
    | apply Forall_nil
    | apply Forall_cons
    | apply Forall_app; split
    | match goal with
      | |- emits _ (match ?x with _ => _ end) => destruct x
      | |- Forall _ (match ?x with _ => _ end) => destruct x
      | |- Forall _ (if ?x then _ else _) => destruct x
      end ].

(** ** The aggregation *)

Lemma assign_verdicts_in_range (results : list Result) :
  forall (pre vs : list Z),
    (List.length results <= List.length vs)%nat ->
    assign_verdicts results (pre ++ vs) (List.length pre)
    = (assigned results vs, None).
Proof.
  induction results as [|r rest IH]; intros pre vs H; [reflexivity|].
  destruct vs as [|v vs]; [simpl in H; lia|].
  cbn [assign_verdicts].
  rewrite nth_error_app2, Nat.sub_diag by lia. cbn [nth_error].
  specialize (IH (pre ++ [v]) vs ltac:(simpl in H; lia)).
  rewrite <- app_assoc, length_app in IH. cbn [app List.length] in IH.
  rewrite Nat.add_1_r in IH. rewrite IH. reflexivity.
Qed.

Lemma assigned_verdicts (results : list Result) :
  forall vs, List.length results = List.length vs ->
             map verdict (assigned results vs) = vs.
Proof.
  induction results as [|r rest IH]; intros [|v vs] H; try discriminate;
    [reflexivity|].
  unfold assigned in *. cbn. f_equal. apply IH. simpl in H. lia.
Qed.

Lemma assigned_tests (results : list Result) :
  forall vs, (List.length results <= List.length vs)%nat ->
             map test (assigned results vs) = map test results.
Proof.
  induction results as [|r rest IH]; intros [|v vs] H; try (simpl in H; lia);
    try reflexivity.
  unfold assigned in *. cbn. f_equal. apply IH. simpl in H. lia.
Qed.

Lemma assigned_uniform (results : list Result) (v : Z) :
  assigned results (repeat v (List.length results))
  = map (fun r => mkResult (test r) v) results.
Proof.
  induction results as [|r rest IH]; [reflexivity|].
  unfold assigned in *. cbn. f_equal. apply IH.
Qed.

Lemma scan_results_first_failure (results : list Result) :
  forall (running count : Z) (i : nat) (v : Z),
    nth_error (map verdict results) i = Some v -> v <> 0 ->
    (forall j, (j < i)%nat -> nth_error (map verdict results) j = Some 0) ->
    scan_results results running count = (v, count + Z.of_nat i + 1).
Proof.
  induction results as [|r rest IH]; intros running count i v Hi Hv Hz.
  - destruct i; discriminate.
  - cbn [scan_results]. destruct i as [|i].
    + cbn in Hi. injection Hi as Hi. subst v.
      replace (verdict r =? 0) with false by (symmetry; apply Z.eqb_neq; assumption).
      cbn. f_equal. lia.
    + pose proof (Hz 0%nat ltac:(lia)) as H0. cbn in H0. injection H0 as H0.
      rewrite H0. cbn [Z.eqb negb].
      rewrite (IH _ _ i v); [f_equal; lia | exact Hi | exact Hv |].
      intros j Hj. apply (Hz (S j)). lia.
Qed.

Lemma scan_results_all_passed (results : list Result) :
  forall (running count : Z),
    Forall (fun v => v = 0) (map verdict results) ->
    scan_results results running count
    = (match results with [] => running | _ => 0 end, count + len results).
Proof.
  induction results as [|r rest IH]; intros running count H.
  - cbn. f_equal. unfold len. cbn. lia.
  - cbn [scan_results]. inversion H as [|v vs Hv Hrest]; subst.
    rewrite Hv. cbn [Z.eqb negb]. rewrite IH by assumption.
    unfold len. cbn [List.length]. destruct rest; f_equal; lia.
Qed.

(** The call of line 229 when every slot has a verdict to receive. *)
Lemma get_attempt_final_info_in_range
      (results : list Result) (verdicts : list Z) (w : World) :
  (List.length results <= List.length verdicts)%nat ->
  _get_attempt_final_info results verdicts w
  = (inr (scan_results (assigned results verdicts) (map_verdict "NT") 0),
     mkWorld (assigned results verdicts) (trace w)).
Proof.
  intros H. unfold _get_attempt_final_info.
  pose proof (assign_verdicts_in_range results [] verdicts H) as E.
  cbn [app List.length] in E. rewrite E. reflexivity.
Qed.

(** C1. For a Result list and a verdicts sequence of the same length,
    [_get_attempt_final_info] returns, sends nothing and leaves in the
    list [verdicts[i]] as the verdict of the result [i], for every [i],
    the test references staying as they were.  The pair it returns is:
    the first non-zero verdict with its 1-based position, when there is
    one; [0] with the length of the list, when the list is not empty
    and every verdict is zero; the not-tested code with [0], when the
    list is empty. *)
Theorem get_attempt_final_info_first_failure
        (results : list Result) (verdicts : list Z) (w : World) :
  List.length results = List.length verdicts ->
  exists (final_verdict final_test : Z) (results' : list Result),
    _get_attempt_final_info results verdicts w
    = (inr (final_verdict, final_test), mkWorld results' (trace w))
    /\ map verdict results' = verdicts
    /\ map test results' = map test results
    /\ (forall (i : nat) (v : Z),
           nth_error verdicts i = Some v -> v <> 0 ->
           (forall j, (j < i)%nat -> nth_error verdicts j = Some 0) ->
           final_verdict = v /\ final_test = Z.of_nat i + 1)
    /\ (verdicts <> [] -> Forall (fun v => v = 0) verdicts ->
        final_verdict = 0 /\ final_test = len verdicts)
    /\ (verdicts = [] ->
        final_verdict = map_verdict "NT" /\ final_test = 0).
Proof.
  intros Hlen.
  pose proof (assigned_verdicts _ _ Hlen) as Hv.
  pose proof (assigned_tests results verdicts ltac:(lia)) as Ht.
  set (results' := assigned results verdicts) in *.
  destruct (scan_results results' (map_verdict "NT") 0) as [fv ft] eqn:Hscan.
  exists fv, ft, results'.
  split; [| split; [exact Hv | split; [exact Ht | split; [| split]]]].
  - rewrite get_attempt_final_info_in_range by lia.
    fold results'. rewrite Hscan. reflexivity.
  - intros i v Hi Hnz Hz. rewrite <- Hv in Hi, Hz.
    rewrite (scan_results_first_failure results' _ _ i v Hi Hnz Hz) in Hscan.
    injection Hscan as <- <-. split; [reflexivity | lia].
  - intros Hne Hall. rewrite <- Hv in Hall.
    rewrite (scan_results_all_passed results' _ _ Hall) in Hscan.
    injection Hscan as <- <-.
    assert (Hl : len results' = len verdicts).
    { unfold len. rewrite <- Hv, length_map. reflexivity. }
    destruct results' as [|r rest].
    + cbn in Hv. congruence.
    + split; [reflexivity | lia].
  - intros ->. destruct results' as [|r rest]; [| discriminate Hv].
    cbn in Hscan. injection Hscan as <- <-. split; reflexivity.
Qed.

(** ** The user-task aggregate and the rating *)

Lemma run_state {A : Type} (m : M A) (w : World) : m w = (fst (m w), snd (m w)).
Proof. apply surjective_pairing. Qed.

Lemma snd_void {A : Type} (m : M A) (w : World) : snd (void m w) = snd (m w).
Proof. unfold void, bind, ret. destruct (m w) as [[e|a] w']; reflexivity. Qed.

Lemma snd_gather {A : Type} (aws : list (M A)) (w : World) :
  snd (gather aws w) = snd (run_all aws w).
Proof. unfold gather. destruct (run_all aws w); reflexivity. Qed.

Lemma passed_tests_range (ok : Z) (verdicts : list Z) :
  verdicts <> [] ->
  0 <= len (filter (fun verdict => verdict =? ok) verdicts) <= len verdicts
  /\ 1 <= len verdicts.
Proof.
  intros Hne. unfold len.
  pose proof (filter_length_le (fun verdict => verdict =? ok) verdicts).
  destruct verdicts; [congruence | cbn [List.length] in *; lia].
Qed.

(** Everything [_save_task_results] sends once line 153 has given
    [percent] and the lookup of line 166 has answered [stored]. *)
Lemma save_task_results_chronicle
      (attempt : Attempt) (author_login task_spec : string) (verdicts : list Z)
      (attempt_final_verdict attempt_final_verdict_test : Z) (w : World)
      (percent : Z) (stored : option UserTaskResult) :
  let passed_tests :=
    len (filter (fun verdict => verdict =? map_verdict "OK") verdicts) in
  let current_attempt :=
    mkSnapshot (spec attempt) (date attempt) passed_tests percent
               attempt_final_verdict attempt_final_verdict_test in
  let best_attempt :=
    match stored with None => None | Some doc => last_item (utr_bests doc) end in
  let new_best_attempt :=
    match best_attempt with
    | Some best =>
        if ((snap_verdict best =? attempt_final_verdict)
            && (attempt_final_verdict =? map_verdict "OK"))
           || (percentTests best >? percent)
        then set_date best (date attempt)
        else current_attempt
    | None => current_attempt
    end in
  percent_tests_at passed_tests (len verdicts) = inr percent ->
  db_find_user_task_result env (trace w) task_spec author_login = inr stored ->
  exists r w',
    _save_task_results attempt author_login task_spec verdicts
                       attempt_final_verdict attempt_final_verdict_test w = (r, w')
    /\ attempt_results w' = attempt_results w
    /\ trace w'
       = EvWrite (match stored with
                  | None =>
                      InsertUserTaskResult
                        (mkUserTaskResult task_spec author_login
                                          [current_attempt] [new_best_attempt])
                  | Some _ =>
                      PushUserTaskResult task_spec author_login
                                         current_attempt new_best_attempt
                  end)
         :: (if (match best_attempt with
                 | None => true
                 | Some best => negb (snap_verdict best =? 0)
                 end) && (snap_verdict new_best_attempt =? 0)
             then [EvWrite (IncRatingScore author_login 1 true)]
             else [])
         ++ EvFindUserTaskResult task_spec author_login :: trace w.
Proof.
  intros passed_tests current_attempt best_attempt new_best_attempt Hp Hf.
  eexists; eexists. split; [apply run_state|].
  match goal with
  | |- attempt_results ?x = _ /\ trace ?x = ?t =>
      cut (x = mkWorld (attempt_results w) t);
      [ intros ->; split; reflexivity |]
  end.
  unfold _save_task_results, bind, lift, find_one_user_task_result.
  fold passed_tests. rewrite Hp.
  unfold request at 1. rewrite Hf.
  fold current_attempt. fold best_attempt. fold new_best_attempt.
  rewrite snd_void, snd_gather.
  destruct (_ && (snap_verdict new_best_attempt =? 0)); destruct stored;
    reflexivity.
Qed.


Lemma filter_rating_aggregate (flag : bool) (op : DbWrite) (user : string) :
  is_rating_write (EvWrite op) = false ->
  filter is_rating_write
         (EvWrite op :: (if flag then [EvWrite (IncRatingScore user 1 true)] else []))
  = if flag then [EvWrite (IncRatingScore user 1 true)] else [].
Proof. intros H. cbn [filter]. rewrite H. destruct flag; reflexivity. Qed.

Lemma both_ok (a b ok : Z) : (a =? b) && (b =? ok) = (a =? ok) && (b =? ok).
Proof.
  destruct (Z.eqb_spec b ok) as [-> | H].
  - rewrite !andb_true_r. reflexivity.
  - rewrite !andb_false_r. reflexivity.
Qed.

(** The chronicle of [_save_task_results] with the new best written as
    the merge rule states it. *)
Lemma save_task_results_by_rule
      (attempt : Attempt) (author_login task_spec : string) (verdicts : list Z)
      (attempt_final_verdict attempt_final_verdict_test : Z) (w : World)
      (percent : Z) (stored : option UserTaskResult) :
  let passed_tests :=
    len (filter (fun verdict => verdict =? map_verdict "OK") verdicts) in
  let current_attempt :=
    mkSnapshot (spec attempt) (date attempt) passed_tests percent
               attempt_final_verdict attempt_final_verdict_test in
  let previous_best := previous_best_of stored in
  let new_best_attempt := new_best_by_rule previous_best current_attempt in
  percent_tests_at passed_tests (len verdicts) = inr percent ->
  db_find_user_task_result env (trace w) task_spec author_login = inr stored ->
  exists r w',
    _save_task_results attempt author_login task_spec verdicts
                       attempt_final_verdict attempt_final_verdict_test w = (r, w')
    /\ attempt_results w' = attempt_results w
    /\ trace w'
       = aggregate_write author_login task_spec stored current_attempt new_best_attempt
         :: (if (match previous_best with
                 | None => true
                 | Some best => negb (snap_verdict best =? 0)
                 end) && (snap_verdict new_best_attempt =? 0)
             then [EvWrite (IncRatingScore author_login 1 true)]
             else [])
         ++ EvFindUserTaskResult task_spec author_login :: trace w.
Proof.
  intros passed_tests current_attempt previous_best new_best_attempt Hp Hf.
  destruct (save_task_results_chronicle
              attempt author_login task_spec verdicts
              attempt_final_verdict attempt_final_verdict_test w percent stored
              Hp Hf) as (r & w' & Hrun & Hres & Htrace).
  exists r, w'. split; [exact Hrun | split; [exact Hres |]].
  rewrite Htrace. fold passed_tests. fold current_attempt.
  fold (previous_best_of stored). fold previous_best.
  replace (match previous_best with
           | Some best =>
               if ((snap_verdict best =? attempt_final_verdict)
                   && (attempt_final_verdict =? map_verdict "OK"))
                  || (percentTests best >? percent)
               then set_date best (date attempt)
               else current_attempt
           | None => current_attempt
           end) with new_best_attempt.
  - unfold aggregate_write. destruct stored; reflexivity.
  - subst new_best_attempt. unfold new_best_by_rule.
    destruct previous_best as [best |]; [| reflexivity].
    cbn [snap_verdict percentTests snap_date current_attempt].
    rewrite both_ok, Z.gtb_ltb. reflexivity.
Qed.

Lemma filter_rating_after_aggregate (flag : bool) (user task : string)
      (stored : option UserTaskResult) (current best : AttemptSnapshot) :
  filter is_rating_write
         (aggregate_write user task stored current best
            :: (if flag then [EvWrite (IncRatingScore user 1 true)] else []))
  = if flag then [EvWrite (IncRatingScore user 1 true)] else [].
Proof. destruct stored, flag; reflexivity. Qed.

Lemma filter_aggregate_before_rating (flag : bool) (user task : string)
      (stored : option UserTaskResult) (current best : AttemptSnapshot) :
  filter is_aggregate_write
         (aggregate_write user task stored current best
            :: (if flag then [EvWrite (IncRatingScore user 1 true)] else []))
  = [aggregate_write user task stored current best].
Proof. destruct stored, flag; reflexivity. Qed.

(** C4. The rating write of [_save_task_results], in every case.  With
    no verdict line 153 raises and nothing is sent; when the lookup of
    the aggregate raises, nothing is sent after it.  Otherwise the new
    best is the one the merge rule gives for the previous best and the
    snapshot of the attempt, it is the one written to the aggregate,
    and the rating writes sent are: exactly one, [$inc score by 1] with
    upsert, when that new best has verdict 0 and there is no previous
    best or the previous best has another verdict than 0; none in every
    other case. *)
Theorem save_task_results_rating
        (attempt : Attempt) (author_login task_spec : string) (verdicts : list Z)
        (attempt_final_verdict attempt_final_verdict_test : Z) (w : World) :
  let passed_tests :=
    len (filter (fun verdict => verdict =? map_verdict "OK") verdicts) in
  let run :=
    _save_task_results attempt author_login task_spec verdicts
                       attempt_final_verdict attempt_final_verdict_test w in
  (verdicts = [] -> run = (inl ZeroDivisionError, w))
  /\ (forall e,
         verdicts <> [] ->
         db_find_user_task_result env (trace w) task_spec author_login = inl e ->
         run = (inl e,
                mkWorld (attempt_results w)
                        (EvFindUserTaskResult task_spec author_login :: trace w)))
  /\ (forall stored,
         verdicts <> [] ->
         db_find_user_task_result env (trace w) task_spec author_login = inr stored ->
         exists (percent : Z) (r : exn + unit) (w' : World) (evs : list Event),
           let current_attempt :=
             mkSnapshot (spec attempt) (date attempt) passed_tests percent
                        attempt_final_verdict attempt_final_verdict_test in
           let previous_best := previous_best_of stored in
           let new_best_attempt := new_best_by_rule previous_best current_attempt in
           percent_tests_at passed_tests (len verdicts) = inr percent
           /\ run = (r, w')
           /\ trace w' = evs ++ EvFindUserTaskResult task_spec author_login :: trace w
           /\ filter is_aggregate_write evs
              = [aggregate_write author_login task_spec stored
                                 current_attempt new_best_attempt]
           /\ (rating_due_by_rule previous_best new_best_attempt ->
               filter is_rating_write evs
               = [EvWrite (IncRatingScore author_login 1 true)])
           /\ (~ rating_due_by_rule previous_best new_best_attempt ->
               filter is_rating_write evs = [])).
Proof.
  intros passed_tests run. split; [| split].
  - intros ->. reflexivity.
  - intros e Hne Hfind.
    destruct (passed_tests_range (map_verdict "OK") verdicts Hne) as [Hp Ht].
    destruct (percent_tests_at_returns _ _ Hp Ht) as [percent Hpercent].
    subst run passed_tests.
    unfold _save_task_results, bind, lift, find_one_user_task_result.
    rewrite Hpercent. unfold request at 1. rewrite Hfind. reflexivity.
  - intros stored Hne Hfind.
    destruct (passed_tests_range (map_verdict "OK") verdicts Hne) as [Hp Ht].
    destruct (percent_tests_at_returns _ _ Hp Ht) as [percent Hpercent].
    destruct (save_task_results_by_rule
                attempt author_login task_spec verdicts
                attempt_final_verdict attempt_final_verdict_test w percent stored
                Hpercent Hfind) as (r & w' & Hrun & _ & Htrace).
    fold passed_tests in Htrace.
    set (current_attempt := mkSnapshot _ _ _ percent _ _) in Htrace.
    set (previous_best := previous_best_of stored) in Htrace.
    set (new_best_attempt := new_best_by_rule previous_best current_attempt)
      in Htrace.
    set (flag := _ && (snap_verdict new_best_attempt =? 0)) in Htrace.
    exists percent, r, w',
      (aggregate_write author_login task_spec stored current_attempt new_best_attempt
         :: (if flag then [EvWrite (IncRatingScore author_login 1 true)] else [])).
    cbv zeta. fold passed_tests. fold current_attempt. fold previous_best.
    fold new_best_attempt.
    assert (Hflag : flag = true <-> rating_due_by_rule previous_best new_best_attempt).
    { subst flag. unfold rating_due_by_rule. rewrite andb_true_iff, Z.eqb_eq.
      destruct previous_best as [best|].
      - rewrite negb_true_iff, Z.eqb_neq. split.
        + intros [H1 H2]. split; [exact H2 | right; exists best; auto].
        + intros [H2 [H1 | (b & Hb & H1)]]; [discriminate|].
          injection Hb as <-. auto.
      - split; [intros [_ H2]; auto | intros [H2 _]; auto]. }
    split; [exact Hpercent |]. split; [exact Hrun |].
    split; [rewrite Htrace; reflexivity |].
    split; [apply filter_aggregate_before_rating |].
    rewrite filter_rating_after_aggregate. split.
    + intros H. apply Hflag in H. rewrite H. reflexivity.
    + intros H. destruct flag; [exfalso; apply H, Hflag; reflexivity | reflexivity].
Qed.


(** ** [_save_results] *)

Lemma snd_run_all_cons {A : Type} (m : M A) (rest : list (M A)) (w : World) :
  snd (run_all (m :: rest) w) = snd (run_all rest (snd (m w))).
Proof.
  cbn [run_all]. destruct (m w) as [r w1]. cbn [snd].
  destruct (run_all rest w1); reflexivity.
Qed.

Lemma snd_database_write (op : DbWrite) (w : World) :
  snd (database_write op w) = mkWorld (attempt_results w) (EvWrite op :: trace w).
Proof. reflexivity. Qed.

Lemma snd_save_attempt_results (attempt_spec : string) (results : list Result)
      (final_verdict final_test : Z) (logs : list string) (w : World) :
  snd (_save_attempt_results attempt_spec results final_verdict final_test logs w)
  = mkWorld (attempt_results w)
            (EvWrite (UpdateAttemptFinal attempt_spec (map_attempt_status "finished")
                                         final_verdict final_test results logs)
               :: trace w).
Proof.
  unfold _save_attempt_results. rewrite snd_void, snd_database_write, map_id.
  reflexivity.
Qed.

Lemma get_attempt_final_info_emits (P : Event -> Prop)
      (results : list Result) (verdicts : list Z) :
  emits P (_get_attempt_final_info results verdicts).
Proof. unfold _get_attempt_final_info. repeat emits_step. Qed.

Lemma save_task_results_emits
      (attempt : Attempt) (author_login task_spec : string) (verdicts : list Z)
      (attempt_final_verdict attempt_final_verdict_test : Z) :
  emits is_storage
        (_save_task_results attempt author_login task_spec verdicts
                            attempt_final_verdict attempt_final_verdict_test).
Proof.
  unfold _save_task_results, find_one_user_task_result, database_write.
  repeat emits_step.
Qed.

Lemma save_results_emits
      (attempt : Attempt) (author_login task_spec : string) (verdicts : list Z)
      (logs : list string) :
  emits is_storage (_save_results attempt author_login task_spec verdicts logs).
Proof.
  unfold _save_results.
  apply emits_bind; [apply emits_get_results | intros results0].
  apply emits_bind; [apply get_attempt_final_info_emits | intros [fv ft]].
  apply emits_bind; [apply emits_get_results | intros results].
  apply emits_void, emits_gather.
  repeat apply Forall_cons; try apply Forall_nil.
  - unfold database_write. repeat emits_step.
  - unfold _save_attempt_results, database_write. repeat emits_step.
  - apply save_task_results_emits.
  - unfold database_write. repeat emits_step.
Qed.

(** The world [_save_results] leaves behind when every slot has a
    verdict to receive. *)
Lemma save_results_world
      (attempt : Attempt) (author_login task_spec : string) (verdicts : list Z)
      (logs : list string) (w : World) :
  (List.length (attempt_results w) <= List.length verdicts)%nat ->
  let results' := assigned (attempt_results w) verdicts in
  let final := scan_results results' (map_verdict "NT") 0 in
  let w1 :=
    mkWorld results'
            (EvWrite (UpdateAttemptFinal (spec attempt)
                                         (map_attempt_status "finished")
                                         (fst final) (snd final) results' logs)
               :: EvWrite (DeletePending (spec attempt)) :: trace w) in
  let w2 :=
    snd (_save_task_results attempt author_login task_spec verdicts
                            (fst final) (snd final) w1) in
  snd (_save_results attempt author_login task_spec verdicts logs w)
  = mkWorld (attempt_results w2)
            (EvWrite (UpdateUserTaskStatus (spec attempt)
                                           (map_attempt_status "finished"))
               :: trace w2).
Proof.
  intros H results' final w1 w2.
  unfold _save_results, bind at 1, get_results at 1. unfold bind at 1.
  rewrite get_attempt_final_info_in_range by exact H.
  fold results'. fold final. destruct final as [fv ft] eqn:Hfinal.
  unfold bind at 1, get_results. cbn [attempt_results trace fst snd] in *.
  rewrite snd_void, snd_gather.
  rewrite !snd_run_all_cons. cbn [run_all snd].
  rewrite !snd_void, !snd_database_write, !snd_save_attempt_results.
  reflexivity.
Qed.

Lemma save_results_terminal_writes
      (attempt : Attempt) (author_login task_spec : string) (verdicts : list Z)
      (logs : list string) (w : World) :
  (List.length (attempt_results w) <= List.length verdicts)%nat ->
  terminal_writes_issued attempt author_login task_spec verdicts logs w.
Proof.
  intros H. unfold terminal_writes_issued.
  pose proof (save_results_world attempt author_login task_spec verdicts logs w H)
    as Hw. cbv zeta in Hw.
  set (results' := assigned (attempt_results w) verdicts) in *.
  set (final := scan_results results' (map_verdict "NT") 0) in *.
  match type of Hw with
  | context [snd (_save_task_results ?a ?l ?t ?v ?x ?y ?w1)] =>
      destruct (save_task_results_emits a l t v x y w1) as (evs & Ht & _);
      set (w2 := snd (_save_task_results a l t v x y w1)) in *
  end.
  eexists _, _, (_ :: evs ++ [_; _]), (fst final), (snd final), results'.
  split; [apply run_state |].
  split; [rewrite get_attempt_final_info_in_range by exact H;
          fold results'; fold final; rewrite <- surjective_pairing; reflexivity |].
  rewrite Hw. cbn [trace] in *. rewrite Ht.
  split; [cbn [app]; rewrite <- app_assoc; reflexivity |].
  split; [| split].
  - right. apply in_or_app. right. right. left. reflexivity.
  - right. apply in_or_app. right. left. reflexivity.
  - left. reflexivity.
Qed.

(** [m] leaves the slots of the attempt as they are. *)
Lemma run_all_keeps_results {A : Type} (aws : list (M A)) :
  Forall (fun m => forall w, attempt_results (snd (m w)) = attempt_results w) aws ->
  forall w, attempt_results (snd (run_all aws w)) = attempt_results w.
Proof.
  induction 1 as [|m rest Hm _ IH]; intros w; [reflexivity |].
  pose proof (snd_run_all_cons m rest w) as E. cbv beta in E.
  etransitivity; [apply (f_equal attempt_results E) |].
  rewrite IH. apply Hm.
Qed.

Lemma save_task_results_keeps_results
      (attempt : Attempt) (author_login task_spec : string) (verdicts : list Z)
      (attempt_final_verdict attempt_final_verdict_test : Z) (w : World) :
  attempt_results
    (snd (_save_task_results attempt author_login task_spec verdicts
                             attempt_final_verdict attempt_final_verdict_test w))
  = attempt_results w.
Proof.
  unfold _save_task_results, bind, lift, find_one_user_task_result.
  destruct (percent_tests_at _ _) as [e | percent]; [reflexivity |].
  unfold request at 1.
  destruct (db_find_user_task_result env (trace w) task_spec author_login)
    as [e | stored]; [reflexivity |].
  rewrite snd_void, snd_gather, run_all_keeps_results; [reflexivity |].
  apply Forall_app. split.
  - destruct (_ && _); repeat constructor.
  - destruct stored; repeat constructor.
Qed.

Lemma scan_results_is_final_info (results : list Result) :
  is_final_info (map verdict results)
                (fst (scan_results results (map_verdict "NT") 0))
                (snd (scan_results results (map_verdict "NT") 0)).
Proof.
  split; [| split].
  - intros i v Hi Hv Hz.
    rewrite (scan_results_first_failure results _ _ i v Hi Hv Hz).
    cbn [fst snd]. split; [reflexivity | lia].
  - intros Hne Hall. rewrite (scan_results_all_passed results _ _ Hall).
    cbn [fst snd]. destruct results as [|r rest]; [contradiction Hne; reflexivity |].
    split; [reflexivity |]. unfold len. rewrite length_map. lia.
  - intros H. destruct results; [split; reflexivity | discriminate H].
Qed.

Lemma save_results_terminal_writes_sent
      (attempt : Attempt) (author_login task_spec : string) (verdicts : list Z)
      (logs : list string) (w : World) :
  (List.length (attempt_results w) <= List.length verdicts)%nat ->
  terminal_writes_sent attempt author_login task_spec verdicts logs w
                       (assigned (attempt_results w) verdicts).
Proof.
  intros H.
  destruct (save_results_terminal_writes
              attempt author_login task_spec verdicts logs w H)
    as (r & w' & evs & fv & ft & results' & Hsave & Hinfo & Htr & Hin1 & Hin2 & Hin3).
  rewrite get_attempt_final_info_in_range in Hinfo by exact H.
  injection Hinfo as Hscan Hres. subst results'.
  exists r, w', evs, fv, ft.
  split; [exact Hsave |]. split; [exact Htr |]. split.
  { pose proof (save_results_world attempt author_login task_spec verdicts logs w H)
      as Hw. cbv zeta in Hw. rewrite Hsave in Hw. cbn [snd] in Hw.
    rewrite Hw. cbn [attempt_results].
    rewrite save_task_results_keeps_results. reflexivity. }
  split.
  { pose proof (scan_results_is_final_info (assigned (attempt_results w) verdicts))
      as Hfinal. rewrite Hscan in Hfinal. exact Hfinal. }
  split; [exact Hin1 | split; [exact Hin2 | exact Hin3]].
Qed.

(** C7, as the code has it.  A call of [_save_results] that has a
    verdict for every Result slot sends the deletion of the pending
    descriptor, the update of the attempt document to finished, with
    the slots holding the verdicts in order, the final verdict and test
    index that the aggregation rule gives for them, and the logs, and
    the update of the status mirror to finished.  This is so whether
    the store answers these requests or raises on them, as long as what
    it raises does not leave the event loop.  The two fallback paths
    build their verdicts from the number of slots, so they are such
    calls: every slot then holds the code of the fallback. *)
Theorem save_results_always_terminal
        (attempt : Attempt) (author_login task_spec : string) (logs : list string)
        (w : World) :
  store_keeps_loop ->
  (forall verdicts : list Z,
      (List.length (attempt_results w) <= List.length verdicts)%nat ->
      terminal_writes_sent attempt author_login task_spec verdicts logs w
                           (assigned (attempt_results w) verdicts))
  /\ (forall name : string,
         terminal_writes_sent
           attempt author_login task_spec
           (generate_tests_verdicts name (List.length (attempt_results w))) logs w
           (map (fun r => mkResult (test r) (map_verdict name)) (attempt_results w))).
Proof.
  intros _. split.
  - intros verdicts H. apply save_results_terminal_writes_sent. exact H.
  - intros name. rewrite <- assigned_uniform.
    apply save_results_terminal_writes_sent.
    unfold generate_tests_verdicts. rewrite repeat_length. lia.
Qed.

(** C9. With an empty verdicts sequence [_save_task_results] raises
    ZeroDivisionError at line 153, before any request is sent; hence
    [_save_results] on an attempt without Result slots raises too, and
    sends nothing to the user-task aggregate.  The exception it hands
    over is that ZeroDivisionError as soon as the store has answered the
    two writes listed before it. *)
Theorem save_task_results_no_tests
        (attempt : Attempt) (author_login task_spec : string)
        (attempt_final_verdict attempt_final_verdict_test : Z)
        (logs : list string) (w : World) (tr : list Event) :
  _save_task_results attempt author_login task_spec []
                     attempt_final_verdict attempt_final_verdict_test w
  = (inl ZeroDivisionError, w)
  /\ exists (e : exn) (w' : World),
      _save_results attempt author_login task_spec [] logs (mkWorld [] tr)
      = (inl e, w')
      /\ filter is_aggregate_write (trace w') = filter is_aggregate_write tr
      /\ (forall n1 n2 : Z,
             db_write env tr (DeletePending (spec attempt)) = inr n1 ->
             db_write env (EvWrite (DeletePending (spec attempt)) :: tr)
                      (UpdateAttemptFinal (spec attempt)
                                          (map_attempt_status "finished")
                                          (map_verdict "NT") 0 [] logs)
             = inr n2 ->
             e = ZeroDivisionError).
Proof.
  split; [reflexivity |].
  unfold _save_results, _save_attempt_results, database_write, request, void,
    gather, bind, ret.
  cbn.
  destruct (db_write env tr (DeletePending (spec attempt))) as [e1|n1];
    destruct (db_write env _ (UpdateAttemptFinal _ _ _ _ _ _)) as [e2|n2];
    destruct (db_write env _ (UpdateUserTaskStatus _ _)) as [e3|n3];
    cbn; eexists; eexists;
    (split; [reflexivity | split; [reflexivity |]]);
    intros m1 m2 H1 H2; congruence.
Qed.

(** ** [_set_testing] *)

Lemma uniform_verdicts_nonempty (name : string) (results : list Result) :
  results <> [] -> generate_tests_verdicts name (List.length results) <> [].
Proof. destruct results; [congruence | discriminate]. Qed.

Lemma uniform_verdicts_length (name : string) (n : nat) :
  List.length (generate_tests_verdicts name n) = n.
Proof. apply repeat_length. Qed.

Lemma set_testing_emits (attempt : Attempt) (author_login task_spec : string) :
  emits is_storage (_set_testing attempt author_login task_spec).
Proof.
  unfold _set_testing.
  apply emits_bind; [unfold database_write; repeat emits_step | intros replies].
  destruct replies as [|n [|k [|]]]; try apply emits_raise.
  apply emits_bind; [| intros; apply emits_ret].
  destruct (negb (n =? 1)); [| apply emits_ret].
  apply emits_bind; [apply emits_get_results | intros results].
  apply save_results_emits.
Qed.

(** [_set_testing] once both status updates have been answered. *)
Lemma set_testing_answered
      (attempt : Attempt) (author_login task_spec : string) (w : World)
      (modified_count mirror_count : Z) :
  db_write env (trace w)
           (UpdateAttemptStatus (spec attempt) (map_attempt_status "testing"))
  = inr modified_count ->
  db_write env
           (EvWrite (UpdateAttemptStatus (spec attempt) (map_attempt_status "testing"))
              :: trace w)
           (UpdateUserTaskStatus (spec attempt) (map_attempt_status "testing"))
  = inr mirror_count ->
  _set_testing attempt author_login task_spec w
  = if modified_count =? 1
    then (inr true, after_status_updates attempt w)
    else
      match _save_results attempt author_login task_spec
                          (generate_tests_verdicts
                             "NT" (List.length (attempt_results w)))
                          ["Error in setting testing status"]
                          (after_status_updates attempt w) with
      | (inr _, w') => (inr false, w')
      | (inl e, w') => (inl e, w')
      end.
Proof.
  intros H1 H2.
  unfold _set_testing, bind at 1, gather, database_write, request.
  cbn [run_all trace attempt_results]. rewrite H1, H2. cbn [collect].
  fold (after_status_updates attempt w).
  destruct (modified_count =? 1); cbn [negb]; unfold bind, ret, get_results.
  - reflexivity.
  - cbn [attempt_results after_status_updates].
    destruct (_save_results _ _ _ _ _ _) as [[e|u] w']; reflexivity.
Qed.

Lemma set_testing_returned
      (attempt : Attempt) (author_login task_spec : string) (w w' : World)
      (b : bool) :
  _set_testing attempt author_login task_spec w = (inr b, w') ->
  exists modified_count mirror_count : Z,
    db_write env (trace w)
             (UpdateAttemptStatus (spec attempt) (map_attempt_status "testing"))
    = inr modified_count
    /\ db_write env
                (EvWrite (UpdateAttemptStatus (spec attempt)
                                              (map_attempt_status "testing"))
                   :: trace w)
                (UpdateUserTaskStatus (spec attempt) (map_attempt_status "testing"))
       = inr mirror_count.
Proof.
  intros H.
  unfold _set_testing, bind at 1, gather, database_write, request in H.
  cbn [run_all trace attempt_results] in H.
  destruct (db_write env (trace w) _) as [e1|n]; cbn [collect] in H.
  - discriminate H.
  - destruct (db_write env _ (UpdateUserTaskStatus _ _)) as [e2|k];
      cbn [collect] in H; [discriminate H |].
    exists n, k. split; reflexivity.
Qed.

(** ** [_soft_run] and the handlers *)




Lemma try_except_extends {A : Type} (P : Event -> Prop) (body : M A)
      (handler : exn -> M A) :
  (forall e, emits P (handler e)) ->
  forall w, exists evs,
      trace (snd (try_except body handler w)) = evs ++ trace (snd (body w))
      /\ Forall P evs.
Proof.
  intros H w. unfold try_except.
  destruct (body w) as [[e|a] w1]; cbn [snd].
  - apply H.
  - exists []. split; [reflexivity | constructor].
Qed.

Lemma soft_run_extends {Args : Type}
      (func : Attempt -> string -> string -> Args -> M unit)
      (attempt : Attempt) (author_login task_spec : string) (args : Args)
      (w : World) :
  exists evs,
    trace (snd (_soft_run func attempt author_login task_spec args w))
    = evs ++ trace (snd (func attempt author_login task_spec args w))
    /\ Forall storage_or_alert evs.
Proof.
  unfold _soft_run. apply try_except_extends. intros e.
  apply emits_bind; [apply emits_get_results | intros results].
  apply emits_bind; [unfold send_alert; apply emits_request; exact I | intros _].
  apply emits_try_except.
  - eapply emits_weaken; [| apply save_results_emits].
    intros [] H; try exact I; contradiction.
  - intros e2. unfold send_alert. apply emits_request. exact I.
Qed.

(** The wrapper hands no exception over, whatever [func] does. *)
Lemma soft_run_returns {Args : Type}
      (func : Attempt -> string -> string -> Args -> M unit)
      (attempt : Attempt) (author_login task_spec : string) (args : Args)
      (w : World) :
  fst (_soft_run func attempt author_login task_spec args w) = inr tt.
Proof.
  unfold _soft_run, try_except.
  destruct (func attempt author_login task_spec args w) as [[e|[]] w1];
    [| reflexivity].
  unfold bind, get_results, send_alert, request. cbn [trace attempt_results].
  destruct (_save_results _ _ _ _ _ _) as [[e2|[]] w2]; reflexivity.
Qed.



(** ** More on line 153: the percentage is between 0 and 100 *)





Lemma new_location_zero (nb_steps : Z) : new_location nb_steps 0 = loc_Exact.
Proof. unfold new_location. destruct (Z.even nb_steps); reflexivity. Qed.




Lemma ratio_of_equal (p : positive) :
  SFdiv PyFloat.prec PyFloat.emax (PyFloat.exact_int (Zpos p)) (PyFloat.exact_int (Zpos p))
  = S754_finite false 4503599627370496 (-52).
Proof.
  cbn [PyFloat.exact_int SFdiv xorb]. unfold SFdiv_core_binary.
  replace (Zdigits2 (Zpos p) + 0 - (Zdigits2 (Zpos p) + 0)) with 0 by lia.
  change (Z.min (fexp PyFloat.prec PyFloat.emax 0) (0 - 0)) with (-53).
  change (0 - 0 - -53) with 53.
  rewrite Z.shiftl_mul_pow2 by lia.
  assert (E : Z.div_eucl (Zpos p * 2 ^ 53) (Zpos p) = (2 ^ 53, 0)).
  { pose proof (Z_div_mod (Zpos p * 2 ^ 53) (Zpos p) ltac:(lia)) as D.
    destruct (Z.div_eucl (Zpos p * 2 ^ 53) (Zpos p)) as [q r].
    destruct D as [D1 D2].
    assert (q = 2 ^ 53) by nia. assert (r = 0) by nia. congruence. }
  rewrite E, new_location_zero. vm_compute. reflexivity.
Qed.

Lemma percent_tests_at_full (total : Z) :
  1 <= total -> percent_tests_at total total = inr 100.
Proof.
  intros H. unfold percent_tests_at, PyFloat.int_truediv.
  replace (total =? 0) with false by (symmetry; apply Z.eqb_neq; lia).
  destruct total as [|p|p]; try lia.
  rewrite ratio_of_equal. vm_compute. reflexivity.
Qed.

Lemma percent_tests_at_none (total : Z) :
  1 <= total -> percent_tests_at 0 total = inr 0.
Proof.
  intros H. unfold percent_tests_at, PyFloat.int_truediv.
  replace (total =? 0) with false by (symmetry; apply Z.eqb_neq; lia).
  destruct total as [|p|p]; try lia. reflexivity.
Qed.



(** X2. With at least one test, line 153 gives 100 when every test has
    passed and 0 when none has, whatever the number of tests. *)
Theorem percent_tests_at_extremes (total : Z) :
  1 <= total ->
  percent_tests_at total total = inr 100 /\ percent_tests_at 0 total = inr 0.
Proof.
  intros H. split; [apply percent_tests_at_full | apply percent_tests_at_none];
    exact H.
Qed.

(** ** More on the aggregate *)

Lemma all_zero_is_repeat (verdicts : list Z) :
  Forall (fun v => v = 0) verdicts -> verdicts = repeat 0 (List.length verdicts).
Proof.
  induction 1 as [|v vs Hv _ IH]; [reflexivity |].
  cbn [List.length repeat]. rewrite Hv at 1. f_equal. exact IH.
Qed.

Lemma filter_all_passed (n : nat) :
  filter (fun verdict => verdict =? 0) (repeat 0 n) = repeat 0 n.
Proof. induction n as [|n IH]; [reflexivity |]. cbn. f_equal. exact IH. Qed.


(** ** More on the aggregation: too few verdicts, and the OK verdict *)

Lemma assign_verdicts_short (results : list Result) :
  forall (pre vs : list Z),
    (List.length vs < List.length results)%nat ->
    assign_verdicts results (pre ++ vs) (List.length pre)
    = (partly_assigned results vs, Some IndexError).
Proof.
  induction results as [|r rest IH]; intros pre vs H; [simpl in H; lia |].
  destruct vs as [|v vs].
  - cbn [assign_verdicts]. rewrite app_nil_r.
    replace (nth_error pre (List.length pre)) with (@None Z)
      by (symmetry; apply nth_error_None; lia).
    reflexivity.
  - cbn [assign_verdicts].
    rewrite nth_error_app2, Nat.sub_diag by lia. cbn [nth_error].
    specialize (IH (pre ++ [v]) vs ltac:(simpl in H; lia)).
    rewrite <- app_assoc, length_app in IH. cbn [app List.length] in IH.
    rewrite Nat.add_1_r in IH. rewrite IH. reflexivity.
Qed.

Lemma partly_assigned_tests (results : list Result) :
  forall vs, map test (partly_assigned results vs) = map test results.
Proof.
  induction results as [|r rest IH]; intros [|v vs]; try reflexivity.
  unfold partly_assigned in *. cbn. f_equal. apply IH.
Qed.

Lemma partly_assigned_length (results : list Result) (vs : list Z) :
  List.length (partly_assigned results vs) = List.length results.
Proof.
  rewrite <- (length_map test), partly_assigned_tests, length_map. reflexivity.
Qed.

Lemma partly_assigned_verdicts (results : list Result) :
  forall vs, (List.length vs <= List.length results)%nat ->
             firstn (List.length vs) (map verdict (partly_assigned results vs)) = vs
             /\ skipn (List.length vs) (partly_assigned results vs)
                = skipn (List.length vs) results.
Proof.
  induction results as [|r rest IH]; intros [|v vs] H; try (simpl in H; lia);
    try (split; reflexivity).
  destruct (IH vs ltac:(simpl in H; lia)) as [IH1 IH2].
  unfold partly_assigned in *. cbn. split; [f_equal; exact IH1 | exact IH2].
Qed.

Lemma get_attempt_final_info_short
      (results : list Result) (verdicts : list Z) (w : World) :
  (List.length verdicts < List.length results)%nat ->
  _get_attempt_final_info results verdicts w
  = (inl IndexError, mkWorld (partly_assigned results verdicts) (trace w)).
Proof.
  intros H. unfold _get_attempt_final_info.
  pose proof (assign_verdicts_short results [] verdicts H) as E.
  cbn [app List.length] in E. rewrite E. reflexivity.
Qed.

(** X5. With fewer verdicts than results, [_get_attempt_final_info]
    raises IndexError and sends nothing.  The list is left half
    written: the first results have received the verdicts there are,
    the others are as they were, and no test reference has changed. *)
Theorem final_info_index_error
        (results : list Result) (verdicts : list Z) (w : World) :
  (List.length verdicts < List.length results)%nat ->
  exists results' : list Result,
    _get_attempt_final_info results verdicts w
    = (inl IndexError, mkWorld results' (trace w))
    /\ map test results' = map test results
    /\ firstn (List.length verdicts) (map verdict results') = verdicts
    /\ skipn (List.length verdicts) results' = skipn (List.length verdicts) results.
Proof.
  intros H. exists (partly_assigned results verdicts).
  split; [apply get_attempt_final_info_short; exact H |].
  split; [apply partly_assigned_tests |].
  apply partly_assigned_verdicts. lia.
Qed.

Lemma scan_results_verdict (results : list Result) :
  forall (running count : Z),
    results <> [] ->
    let final := scan_results results running count in
    count + 1 <= snd final <= count + len results
    /\ (fst final = 0 <-> Forall (fun v => v = 0) (map verdict results))
    /\ (fst final = 0 -> snd final = count + len results)
    /\ nth_error (map verdict results) (Z.to_nat (snd final - count - 1))
       = Some (fst final).
Proof.
  induction results as [|r rest IH]; intros running count Hne; [congruence |].
  cbn [scan_results]. unfold len. cbn [List.length map].
  destruct (Z.eqb_spec (verdict r) 0) as [Hz | Hz]; cbn [negb].
  - destruct rest as [|r' rest'].
    + cbn [scan_results fst snd List.length map]. rewrite Hz.
      split; [lia |].
      split; [split; [intros _; repeat constructor | reflexivity] |].
      split; [lia |].
      replace (count + 1 - count - 1) with 0 by lia. reflexivity.
    + specialize (IH (verdict r) (count + 1) ltac:(discriminate)).
      cbv zeta in IH. unfold len in IH.
      set (final := scan_results (r' :: rest') (verdict r) (count + 1)) in *.
      destruct IH as (IH1 & IH2 & IH3 & IH4).
      cbn [List.length] in *.
      split; [lia |]. split; [| split; [intros H; rewrite (IH3 H); lia |]].
      * rewrite IH2. split; [intros H; constructor; assumption |].
        intros H. inversion H; assumption.
      * replace (Z.to_nat (snd final - count - 1))
          with (S (Z.to_nat (snd final - (count + 1) - 1))) by lia.
        cbn [nth_error]. exact IH4.
  - cbn [fst snd]. split; [lia |].
    split; [split; [intros H; contradiction | intros H; inversion H; contradiction] |].
    split; [intros H; contradiction |].
    replace (count + 1 - count - 1) with 0 by lia. reflexivity.
Qed.

(** X6. For a non-empty Result list and as many verdicts, the final
    verdict [_get_attempt_final_info] returns is 0 exactly when every
    verdict is 0, and then the final test index is the number of tests;
    in every case the index lies between 1 and the number of tests and
    the final verdict is the verdict of the test at that index. *)
Theorem final_info_ok_iff_all_passed
        (results : list Result) (verdicts : list Z) (w : World) :
  results <> [] ->
  List.length results = List.length verdicts ->
  exists (final_verdict final_test : Z) (results' : list Result),
    _get_attempt_final_info results verdicts w
    = (inr (final_verdict, final_test), mkWorld results' (trace w))
    /\ 1 <= final_test <= len verdicts
    /\ (final_verdict = 0 <-> Forall (fun v => v = 0) verdicts)
    /\ (final_verdict = 0 -> final_test = len verdicts)
    /\ nth_error verdicts (Z.to_nat (final_test - 1)) = Some final_verdict.
Proof.
  intros Hne Hlen.
  pose proof (assigned_verdicts _ _ Hlen) as Hv.
  set (results' := assigned results verdicts) in *.
  assert (Hne' : results' <> []).
  { intros E. rewrite E in Hv. cbn in Hv. subst verdicts.
    destruct results; [congruence | discriminate Hlen]. }
  pose proof (scan_results_verdict results' (map_verdict "NT") 0 Hne') as H.
  cbv zeta in H. rewrite Hv in H.
  assert (Hl : len results' = len verdicts).
  { unfold len. rewrite <- Hv, length_map. reflexivity. }
  rewrite Hl in H.
  destruct (scan_results results' (map_verdict "NT") 0) as [fv ft] eqn:Hscan.
  cbn [fst snd] in H. destruct H as (H1 & H2 & H3 & H4).
  exists fv, ft, results'.
  split; [rewrite get_attempt_final_info_in_range by lia;
          fold results'; rewrite Hscan; reflexivity |].
  split; [lia |]. split; [exact H2 |]. split; [intros E; rewrite (H3 E); lia |].
  replace (ft - 1) with (ft - 0 - 1) by lia. exact H4.
Qed.

Lemma save_results_short
      (attempt : Attempt) (author_login task_spec : string) (verdicts : list Z)
      (logs : list string) (w : World) :
  (List.length verdicts < List.length (attempt_results w))%nat ->
  _save_results attempt author_login task_spec verdicts logs w
  = (inl IndexError,
     mkWorld (partly_assigned (attempt_results w) verdicts) (trace w)).
Proof.
  intros H. unfold _save_results, bind at 1, get_results at 1. unfold bind at 1.
  rewrite get_attempt_final_info_short by exact H. reflexivity.
Qed.

(** X7. With fewer verdicts than Result slots, [_save_results] raises
    IndexError before it sends anything: the pending descriptor is not
    deleted and the attempt document is not finished by that call. *)
Theorem save_results_too_few_verdicts
        (attempt : Attempt) (author_login task_spec : string) (verdicts : list Z)
        (logs : list string) (w : World) :
  (List.length verdicts < List.length (attempt_results w))%nat ->
  exists w' : World,
    _save_results attempt author_login task_spec verdicts logs w
    = (inl IndexError, w')
    /\ trace w' = trace w
    /\ map test (attempt_results w') = map test (attempt_results w).
Proof.
  intros H. eexists. split; [apply save_results_short; exact H |].
  split; [reflexivity | apply partly_assigned_tests].
Qed.

(** ** More on the wrapper and the handlers *)



(** What the wrapper leaves in the chronicle once [func] has come down
    to a call of [_save_results] in which every slot has a verdict to
    receive. *)
Lemma soft_run_after_save {Args : Type}
      (func : Attempt -> string -> string -> Args -> M unit)
      (attempt : Attempt) (author_login task_spec : string) (args : Args)
      (w w2 : World) (verdicts : list Z) (logs : list string) :
  func attempt author_login task_spec args w
  = _save_results attempt author_login task_spec verdicts logs w2 ->
  (List.length (attempt_results w2) <= List.length verdicts)%nat ->
  exists (w3 : World) (evs : list Event) (final_verdict final_test : Z),
    _soft_run func attempt author_login task_spec args w = (inr tt, w3)
    /\ trace w3 = evs ++ trace w2
    /\ Forall storage_or_alert evs
    /\ In (EvWrite (DeletePending (spec attempt))) evs
    /\ In (EvWrite
             (UpdateAttemptFinal
                (spec attempt) (map_attempt_status "finished")
                final_verdict final_test
                (assigned (attempt_results w2) verdicts) logs)) evs
    /\ In (EvWrite (UpdateUserTaskStatus (spec attempt)
                                         (map_attempt_status "finished"))) evs.
Proof.
  intros Hfunc Hlen.
  destruct (save_results_terminal_writes
              attempt author_login task_spec verdicts logs w2 Hlen)
    as (r & ws & evs1 & fv & ft & results' & Hsave & Hinfo & Htr1 & Hin1 & Hin2 & Hin3).
  rewrite get_attempt_final_info_in_range in Hinfo by exact Hlen.
  injection Hinfo as _ Hres. rewrite <- Hres in Hin2.
  destruct (save_results_emits attempt author_login task_spec verdicts logs w2)
    as (evs1' & Htr1' & Hs1).
  rewrite Hsave in Htr1'. cbn [snd] in Htr1'.
  assert (evs1' = evs1)
    by (eapply app_inv_tail; rewrite <- Htr1, <- Htr1'; reflexivity).
  subst evs1'.
  destruct (soft_run_extends func attempt author_login task_spec args w)
    as (evsh & Htrh & Hsh).
  rewrite Hfunc, Hsave in Htrh. cbn [snd] in Htrh.
  exists (snd (_soft_run func attempt author_login task_spec args w)),
    (evsh ++ evs1), fv, ft.
  split.
  { rewrite (run_state (_soft_run func attempt author_login task_spec args) w).
    rewrite soft_run_returns. reflexivity. }
  split; [rewrite Htrh, Htr1, app_assoc; reflexivity |].
  split.
  { apply Forall_app. split; [exact Hsh |].
    eapply Forall_impl; [| exact Hs1]. intros [] H; try exact I; contradiction. }
  split; [apply in_or_app; right; exact Hin1 |].
  split; [apply in_or_app; right; exact Hin2 | apply in_or_app; right; exact Hin3].
Qed.





(** The tests-checker handler past the lease, up to the strategy. *)
Lemma handle_tests_checker_func_started
      (attempt : Attempt) (author_login task_spec : string)
      (grouped_tests : list (list TaskTest)) (queue_item : PendingQueueItem)
      (w w1 : World) (lang : Language) (folder_path : string) :
  _set_testing attempt author_login task_spec w = (inr true, w1) ->
  (forall tr, db_find_language env tr (language attempt) = inr lang) ->
  (forall tr, fs_create_program_folder env tr (spec attempt) = inr folder_path) ->
  let call := TestsCheckerStart attempt grouped_tests folder_path lang in
  let w2 := mkWorld (attempt_results w1)
                    (EvStart call :: EvCreateFolder (spec attempt)
                       :: EvFindLanguage (language attempt) :: trace w1) in
  _handle_tests_checker_func attempt author_login task_spec
                             (grouped_tests, queue_item) w
  = match strategy_start env (EvCreateFolder (spec attempt)
                                :: EvFindLanguage (language attempt) :: trace w1)
                         call with
    | inl e => (inl e, w2)
    | inr (verdicts, logs) =>
        (delete_folder folder_path ;;;
         _save_results attempt author_login task_spec verdicts logs) w2
    end.
Proof.
  intros Hset Hlang Hfolder call w2.
  unfold _handle_tests_checker_func. unfold bind at 1. rewrite Hset. cbn [negb].
  unfold bind at 1, find_language, request at 1. rewrite Hlang.
  unfold bind at 1, create_program_folder, request at 1. rewrite Hfolder.
  unfold bind at 1, start, request at 1. cbn [trace attempt_results].
  fold call. destruct (strategy_start env _ call) as [e | [verdicts logs]];
    reflexivity.
Qed.

(** X10. The tests-checker handler when all goes well.  Past the lease
    it looks up the language of the attempt, creates the program
    folder, starts the strategy on that folder, deletes that same
    folder, in this order, and then hands the verdicts and logs of the
    strategy to [_save_results].  The handler returns and the three
    terminal writes are among what it sends after the folder is
    deleted. *)
Theorem handle_tests_checker_graded
        (attempt : Attempt) (author_login task_spec : string)
        (grouped_tests : list (list TaskTest)) (queue_item : PendingQueueItem)
        (w w1 : World) (lang : Language) (folder_path : string)
        (verdicts : list Z) (logs : list string) :
  _set_testing attempt author_login task_spec w = (inr true, w1) ->
  (forall tr, db_find_language env tr (language attempt) = inr lang) ->
  (forall tr, fs_create_program_folder env tr (spec attempt) = inr folder_path) ->
  (forall tr, strategy_start
                env tr (TestsCheckerStart attempt grouped_tests folder_path lang)
              = inr (verdicts, logs)) ->
  (forall tr, fs_delete_folder env tr folder_path = inr tt) ->
  (List.length (attempt_results w1) <= List.length verdicts)%nat ->
  exists (w3 : World) (evs : list Event) (final_verdict final_test : Z),
    _handle_tests_checker attempt author_login task_spec grouped_tests queue_item w
    = (inr tt, w3)
    /\ trace w3
       = evs ++ EvDeleteFolder folder_path
             :: EvStart (TestsCheckerStart attempt grouped_tests folder_path lang)
             :: EvCreateFolder (spec attempt)
             :: EvFindLanguage (language attempt)
             :: trace w1
    /\ Forall storage_or_alert evs
    /\ In (EvWrite (DeletePending (spec attempt))) evs
    /\ In (EvWrite
             (UpdateAttemptFinal
                (spec attempt) (map_attempt_status "finished")
                final_verdict final_test
                (assigned (attempt_results w1) verdicts) logs)) evs
    /\ In (EvWrite (UpdateUserTaskStatus (spec attempt)
                                         (map_attempt_status "finished"))) evs.
Proof.
  intros Hset Hlang Hfolder Hstart Hdelete Hlen.
  pose proof (handle_tests_checker_func_started
                attempt author_login task_spec grouped_tests queue_item
                w w1 lang folder_path Hset Hlang Hfolder) as Hfunc.
  cbv zeta in Hfunc. rewrite Hstart in Hfunc.
  unfold bind at 1, delete_folder, request at 1 in Hfunc.
  rewrite Hdelete in Hfunc. cbn [trace attempt_results] in Hfunc.
  exact (soft_run_after_save _ _ _ _ _ _ _ _ _ Hfunc Hlen).
Qed.


(** The custom-checker handler past the lease, up to the strategy. *)
Lemma handle_custom_checker_func_started
      (attempt : Attempt) (author_login task_spec : string)
      (grouped_tests : list (list TaskTest)) (queue_item : PendingQueueItem)
      (chk : Checker) (w w1 : World) (program_language checker_lang : Language)
      (folder_path : string) :
  checker queue_item = Some chk ->
  _set_testing attempt author_login task_spec w = (inr true, w1) ->
  (forall tr, db_find_language env tr (language attempt) = inr program_language) ->
  (forall tr, db_find_language env tr (checker_language chk) = inr checker_lang) ->
  (forall tr, fs_create_program_folder env tr (spec attempt) = inr folder_path) ->
  let call := CustomCheckerStart chk attempt grouped_tests folder_path
                                 program_language checker_lang in
  let w2 := mkWorld (attempt_results w1)
                    (EvStart call :: EvCreateFolder (spec attempt)
                       :: EvFindLanguage (checker_language chk)
                       :: EvFindLanguage (language attempt) :: trace w1) in
  _handle_custom_checker_func attempt author_login task_spec
                              (grouped_tests, queue_item) w
  = match strategy_start env (EvCreateFolder (spec attempt)
                                :: EvFindLanguage (checker_language chk)
                                :: EvFindLanguage (language attempt) :: trace w1)
                         call with
    | inl e => (inl e, w2)
    | inr (verdicts, logs) =>
        (delete_folder folder_path ;;;
         _save_results attempt author_login task_spec verdicts logs) w2
    end.
Proof.
  intros Hchk Hset Hlang1 Hlang2 Hfolder call w2.
  unfold _handle_custom_checker_func. unfold bind at 1. rewrite Hset, Hchk.
  cbn [negb].
  unfold bind at 1, gather, find_language, request.
  cbn [run_all trace attempt_results]. rewrite Hlang1, Hlang2. cbn [collect].
  unfold bind at 1, create_program_folder, request at 1. rewrite Hfolder.
  unfold bind at 1, start, request at 1. cbn [trace attempt_results].
  fold call. destruct (strategy_start env _ call) as [e | [verdicts logs]];
    reflexivity.
Qed.

(** X12. The custom-checker handler with a checker, when all goes
    well.  Past the lease it looks up the language of the attempt and
    then the language of the checker, creates the program folder,
    starts the strategy with the checker, both languages and that
    folder, deletes that same folder, in this order, and then hands the
    verdicts and logs of the strategy to [_save_results].  The handler
    returns and the three terminal writes are among what it sends after
    the folder is deleted. *)
Theorem handle_custom_checker_graded
        (attempt : Attempt) (author_login task_spec : string)
        (grouped_tests : list (list TaskTest)) (queue_item : PendingQueueItem)
        (chk : Checker) (w w1 : World) (program_language checker_lang : Language)
        (folder_path : string) (verdicts : list Z) (logs : list string) :
  checker queue_item = Some chk ->
  _set_testing attempt author_login task_spec w = (inr true, w1) ->
  (forall tr, db_find_language env tr (language attempt) = inr program_language) ->
  (forall tr, db_find_language env tr (checker_language chk) = inr checker_lang) ->
  (forall tr, fs_create_program_folder env tr (spec attempt) = inr folder_path) ->
  (forall tr, strategy_start
                env tr (CustomCheckerStart chk attempt grouped_tests folder_path
                                           program_language checker_lang)
              = inr (verdicts, logs)) ->
  (forall tr, fs_delete_folder env tr folder_path = inr tt) ->
  (List.length (attempt_results w1) <= List.length verdicts)%nat ->
  exists (w3 : World) (evs : list Event) (final_verdict final_test : Z),
    _handle_custom_checker attempt author_login task_spec grouped_tests queue_item w
    = (inr tt, w3)
    /\ trace w3
       = evs ++ EvDeleteFolder folder_path
             :: EvStart (CustomCheckerStart chk attempt grouped_tests folder_path
                                            program_language checker_lang)
             :: EvCreateFolder (spec attempt)
             :: EvFindLanguage (checker_language chk)
             :: EvFindLanguage (language attempt)
             :: trace w1
    /\ Forall storage_or_alert evs
    /\ In (EvWrite (DeletePending (spec attempt))) evs
    /\ In (EvWrite
             (UpdateAttemptFinal
                (spec attempt) (map_attempt_status "finished")
                final_verdict final_test
                (assigned (attempt_results w1) verdicts) logs)) evs
    /\ In (EvWrite (UpdateUserTaskStatus (spec attempt)
                                         (map_attempt_status "finished"))) evs.
Proof.
  intros Hchk Hset Hlang1 Hlang2 Hfolder Hstart Hdelete Hlen.
  pose proof (handle_custom_checker_func_started
                attempt author_login task_spec grouped_tests queue_item chk
                w w1 program_language checker_lang folder_path
                Hchk Hset Hlang1 Hlang2 Hfolder) as Hfunc.
  cbv zeta in Hfunc. rewrite Hstart in Hfunc.
  unfold bind at 1, delete_folder, request at 1 in Hfunc.
  rewrite Hdelete in Hfunc. cbn [trace attempt_results] in Hfunc.
  exact (soft_run_after_save _ _ _ _ _ _ _ _ _ Hfunc Hlen).
Qed.


(** ** Counting alerts and strategy starts *)

Lemma adds_of_emits {A : Type} (P : Event -> Prop) (f : Event -> bool) (m : M A) :
  (forall ev, P ev -> f ev = false) -> emits P m -> adds_at_most f 0 m.
Proof.
  intros Hf H w. destruct (H w) as (evs & E & F).
  exists evs. split; [exact E |].
  replace (filter f evs) with (@nil Event); [reflexivity |].
  clear E. induction F as [|ev evs Hev _ IH]; [reflexivity |].
  cbn [filter]. rewrite (Hf ev Hev). exact IH.
Qed.

Lemma adds_weaken {A : Type} (f : Event -> bool) (n n' : nat) (m : M A) :
  (n <= n')%nat -> adds_at_most f n m -> adds_at_most f n' m.
Proof.
  intros Hn H w. destruct (H w) as (evs & E & F). exists evs. split; [exact E | lia].
Qed.

Lemma adds_request {A : Type} (f : Event -> bool) (ev : Event)
      (answer : list Event -> exn + A) :
  adds_at_most f 1 (request ev answer).
Proof.
  intros w. exists [ev]. split; [reflexivity |].
  cbn [filter]. destruct (f ev); cbn; lia.
Qed.

Lemma adds_bind {A B : Type} (f : Event -> bool) (n1 n2 n : nat)
      (m : M A) (k : A -> M B) :
  (n1 + n2 <= n)%nat ->
  adds_at_most f n1 m -> (forall a, adds_at_most f n2 (k a)) ->
  adds_at_most f n (bind m k).
Proof.
  intros Hn Hm Hk w. unfold bind.
  destruct (Hm w) as (evs1 & E1 & F1).
  destruct (m w) as [[e|a] w1]; cbn [snd] in *.
  - exists evs1. split; [exact E1 | lia].
  - destruct (Hk a w1) as (evs2 & E2 & F2).
    exists (evs2 ++ evs1). rewrite E2, E1, app_assoc.
    split; [reflexivity |]. rewrite filter_app, length_app. lia.
Qed.

Lemma adds_try_except {A : Type} (f : Event -> bool) (n1 n2 n : nat)
      (body : M A) (handler : exn -> M A) :
  (n1 + n2 <= n)%nat ->
  adds_at_most f n1 body -> (forall e, adds_at_most f n2 (handler e)) ->
  adds_at_most f n (try_except body handler).
Proof.
  intros Hn Hm Hk w. unfold try_except.
  destruct (Hm w) as (evs1 & E1 & F1).
  destruct (body w) as [[e|a] w1]; cbn [snd] in *.
  - destruct (Hk e w1) as (evs2 & E2 & F2).
    exists (evs2 ++ evs1). rewrite E2, E1, app_assoc.
    split; [reflexivity |]. rewrite filter_app, length_app. lia.
  - exists evs1. split; [exact E1 | lia].
Qed.

Lemma storage_is_not_alert (ev : Event) : is_storage ev -> not_alert ev.
Proof. destruct ev; intros H; try exact I; contradiction. Qed.

Lemma set_testing_no_alert (attempt : Attempt) (author_login task_spec : string) :
  emits not_alert (_set_testing attempt author_login task_spec).
Proof.
  eapply emits_weaken; [apply storage_is_not_alert | apply set_testing_emits].
Qed.

Lemma save_results_no_alert
      (attempt : Attempt) (author_login task_spec : string) (verdicts : list Z)
      (logs : list string) :
  emits not_alert (_save_results attempt author_login task_spec verdicts logs).
Proof.
  eapply emits_weaken; [apply storage_is_not_alert | apply save_results_emits].
Qed.

Lemma set_testing_no_start (attempt : Attempt) (author_login task_spec : string) :
  adds_at_most is_start 0 (_set_testing attempt author_login task_spec).
Proof.
  apply (adds_of_emits is_storage); [| apply set_testing_emits].
  intros [] H; try reflexivity; contradiction.
Qed.

Lemma save_results_no_start
      (attempt : Attempt) (author_login task_spec : string) (verdicts : list Z)
      (logs : list string) :
  adds_at_most is_start 0
               (_save_results attempt author_login task_spec verdicts logs).
Proof.
  apply (adds_of_emits is_storage); [| apply save_results_emits].
  intros [] H; try reflexivity; contradiction.
Qed.

Lemma request_no_start {A : Type} (ev : Event) (answer : list Event -> exn + A) :
  not_start ev -> adds_at_most is_start 0 (request ev answer).
Proof.
  intros H. apply (adds_of_emits not_start); [| apply emits_request; exact H].
  intros [] H'; try reflexivity; contradiction.
Qed.

(** The wrapper around a function that sends no alert and starts at
    most one strategy. *)
Lemma soft_run_bounds {Args : Type}
      (func : Attempt -> string -> string -> Args -> M unit)
      (attempt : Attempt) (author_login task_spec : string) (args : Args) :
  emits not_alert (func attempt author_login task_spec args) ->
  adds_at_most is_start 1 (func attempt author_login task_spec args) ->
  (forall w, fst (_soft_run func attempt author_login task_spec args w) = inr tt)
  /\ adds_at_most is_alert 2 (_soft_run func attempt author_login task_spec args)
  /\ adds_at_most is_start 1 (_soft_run func attempt author_login task_spec args).
Proof.
  intros Hal Hst. split; [intros w; apply soft_run_returns |].
  unfold _soft_run. split.
  - apply (adds_try_except _ 0 2); [lia | |].
    + apply (adds_of_emits not_alert); [| exact Hal].
      intros [] H; try reflexivity; contradiction.
    + intros e. apply (adds_bind _ 0 2); [lia | |].
      * apply (adds_of_emits not_alert); [| apply emits_get_results].
        intros [] H; try reflexivity; contradiction.
      * intros results. apply (adds_bind _ 1 1); [lia | apply adds_request |].
        intros _. apply (adds_try_except _ 0 1); [lia | |].
        -- apply (adds_of_emits not_alert); [| apply save_results_no_alert].
           intros [] H; try reflexivity; contradiction.
        -- intros e2. apply adds_request.
  - apply (adds_try_except _ 1 0); [lia | exact Hst |].
    intros e. apply (adds_of_emits storage_or_alert).
    + intros [] H; try reflexivity; contradiction.
    + apply emits_bind; [apply emits_get_results | intros results].
      apply emits_bind; [unfold send_alert; apply emits_request; exact I | intros _].
      apply emits_try_except.
      * eapply emits_weaken; [| apply save_results_emits].
        intros [] H; try exact I; contradiction.
      * intros e2. unfold send_alert. apply emits_request. exact I.
Qed.

Lemma adds_ret {A : Type} (f : Event -> bool) (n : nat) (a : A) :
  adds_at_most f n (ret a).
Proof. intros w. exists []. split; [reflexivity | cbn; lia]. Qed.

Lemma adds_raise {A : Type} (f : Event -> bool) (n : nat) (e : exn) :
  adds_at_most f n (@raise A e).
Proof. intros w. exists []. split; [reflexivity | cbn; lia]. Qed.

(** What the three decorated functions send: no alert, and at most one
    strategy start. *)
Lemma handle_text_task_func_sends
      (attempt : Attempt) (author_login task_spec : string)
      (args : list TaskTest * list Z * PendingQueueItem) :
  emits not_alert (_handle_text_task_func attempt author_login task_spec args)
  /\ adds_at_most is_start 1
                  (_handle_text_task_func attempt author_login task_spec args).
Proof.
  destruct args as [[task_tests test_groups] queue_item].
  unfold _handle_text_task_func. split.
  - apply emits_bind; [apply set_testing_no_alert | intros is_set].
    destruct (negb is_set); [apply emits_ret |].
    apply emits_bind; [unfold start; apply emits_request; exact I |].
    intros [verdicts logs]. apply save_results_no_alert.
  - apply (adds_bind _ 0 1); [lia | apply set_testing_no_start | intros is_set].
    destruct (negb is_set); [apply adds_ret |].
    apply (adds_bind _ 1 0); [lia | apply adds_request |].
    intros [verdicts logs]. apply save_results_no_start.
Qed.

Lemma handle_tests_checker_func_sends
      (attempt : Attempt) (author_login task_spec : string)
      (args : list (list TaskTest) * PendingQueueItem) :
  emits not_alert (_handle_tests_checker_func attempt author_login task_spec args)
  /\ adds_at_most is_start 1
                  (_handle_tests_checker_func attempt author_login task_spec args).
Proof.
  destruct args as [grouped_tests queue_item].
  unfold _handle_tests_checker_func. split.
  - apply emits_bind; [apply set_testing_no_alert | intros is_set].
    destruct (negb is_set); [apply emits_ret |].
    unfold find_language, create_program_folder, start, delete_folder.
    apply emits_bind; [apply emits_request; exact I | intros lang].
    apply emits_bind; [apply emits_request; exact I | intros folder_path].
    apply emits_bind; [apply emits_request; exact I | intros [verdicts logs]].
    apply emits_bind; [apply emits_request; exact I | intros _].
    apply save_results_no_alert.
  - apply (adds_bind _ 0 1); [lia | apply set_testing_no_start | intros is_set].
    destruct (negb is_set); [apply adds_ret |].
    unfold find_language, create_program_folder, start, delete_folder.
    apply (adds_bind _ 0 1); [lia | apply request_no_start; exact I | intros lang].
    apply (adds_bind _ 0 1);
      [lia | apply request_no_start; exact I | intros folder_path].
    apply (adds_bind _ 1 0); [lia | apply adds_request | intros [verdicts logs]].
    apply (adds_bind _ 0 0); [lia | apply request_no_start; exact I | intros _].
    apply save_results_no_start.
Qed.

Lemma handle_custom_checker_func_sends
      (attempt : Attempt) (author_login task_spec : string)
      (args : list (list TaskTest) * PendingQueueItem) :
  emits not_alert (_handle_custom_checker_func attempt author_login task_spec args)
  /\ adds_at_most is_start 1
                  (_handle_custom_checker_func attempt author_login task_spec args).
Proof.
  destruct args as [grouped_tests queue_item].
  unfold _handle_custom_checker_func. split.
  - apply emits_bind; [apply set_testing_no_alert | intros is_set].
    destruct (negb is_set); [apply emits_ret |].
    destruct (checker queue_item) as [chk |].
    + unfold find_language, create_program_folder, start, delete_folder.
      apply emits_bind.
      { apply emits_gather. repeat apply Forall_cons; try apply Forall_nil;
          apply emits_request; exact I. }
      intros [|program_language [|checker_lang [|]]]; try apply emits_raise.
      apply emits_bind; [apply emits_request; exact I | intros folder_path].
      apply emits_bind; [apply emits_request; exact I | intros [verdicts logs]].
      apply emits_bind; [apply emits_request; exact I | intros _].
      apply save_results_no_alert.
    + apply emits_bind; [apply emits_get_results | intros results].
      apply save_results_no_alert.
  - apply (adds_bind _ 0 1); [lia | apply set_testing_no_start | intros is_set].
    destruct (negb is_set); [apply adds_ret |].
    destruct (checker queue_item) as [chk |].
    + unfold find_language, create_program_folder, start, delete_folder.
      apply (adds_bind _ 0 1); [lia | |].
      { apply (adds_of_emits not_start).
        - intros [] H; try reflexivity; contradiction.
        - apply emits_gather. repeat apply Forall_cons; try apply Forall_nil;
            apply emits_request; exact I. }
      intros [|program_language [|checker_lang [|]]]; try apply adds_raise.
      apply (adds_bind _ 0 1);
        [lia | apply request_no_start; exact I | intros folder_path].
      apply (adds_bind _ 1 0); [lia | apply adds_request | intros [verdicts logs]].
      apply (adds_bind _ 0 0); [lia | apply request_no_start; exact I | intros _].
      apply save_results_no_start.
    + apply (adds_bind _ 0 0); [lia | | intros results].
      { apply (adds_of_emits not_start); [| apply emits_get_results].
        intros [] H; try reflexivity; contradiction. }
      eapply adds_weaken; [| apply save_results_no_start]. lia.
Qed.

(** X14. As long as no request to the store is answered by a
    SystemExit or a KeyboardInterrupt (raised in a gathered request,
    these leave the event loop), each of the three handlers returns,
    whatever else the store, the folder helpers and the strategies
    answer or raise; in one run it sends at most two alerts and starts
    at most one strategy. *)
Theorem handlers_return
        (attempt : Attempt) (author_login task_spec : string)
        (task_tests : list TaskTest) (test_groups : list Z)
        (grouped_tests : list (list TaskTest)) (queue_item : PendingQueueItem) :
  store_keeps_loop ->
  ((forall w, fst (_handle_text_task attempt author_login task_spec
                                     task_tests test_groups queue_item w) = inr tt)
   /\ adds_at_most is_alert 2
                   (_handle_text_task attempt author_login task_spec
                                      task_tests test_groups queue_item)
   /\ adds_at_most is_start 1
                   (_handle_text_task attempt author_login task_spec
                                      task_tests test_groups queue_item))
  /\ ((forall w, fst (_handle_tests_checker attempt author_login task_spec
                                            grouped_tests queue_item w) = inr tt)
      /\ adds_at_most is_alert 2
                      (_handle_tests_checker attempt author_login task_spec
                                             grouped_tests queue_item)
      /\ adds_at_most is_start 1
                      (_handle_tests_checker attempt author_login task_spec
                                             grouped_tests queue_item))
  /\ ((forall w, fst (_handle_custom_checker attempt author_login task_spec
                                             grouped_tests queue_item w) = inr tt)
      /\ adds_at_most is_alert 2
                      (_handle_custom_checker attempt author_login task_spec
                                              grouped_tests queue_item)
      /\ adds_at_most is_start 1
                      (_handle_custom_checker attempt author_login task_spec
                                              grouped_tests queue_item)).
Proof.
  intros _. split; [| split].
  - apply soft_run_bounds; apply handle_text_task_func_sends.
  - apply soft_run_bounds; apply handle_tests_checker_func_sends.
  - apply soft_run_bounds; apply handle_custom_checker_func_sends.
Qed.

(** ** The dispatch of a code task and the assembly of the test list *)

Lemma silent_adds {A : Type} (f : Event -> bool) (m : M A) :
  silent m -> adds_at_most f 0 m.
Proof.
  apply (adds_of_emits (fun _ => False)). intros ev [].
Qed.

Lemma silent_trace {A : Type} (m : M A) (w : World) :
  silent m -> trace (snd (m w)) = trace w.
Proof.
  intros H. destruct (H w) as (evs & E & F).
  destruct evs as [|ev evs]; [exact E |].
  apply Forall_inv in F. destruct F.
Qed.

Lemma raises_bind {A B : Type} (m : M A) (k : A -> M B) :
  silent m -> (forall a, raises_before_sending (k a)) ->
  raises_before_sending (bind m k).
Proof.
  intros Hm Hk w e w' H. unfold bind in H.
  pose proof (silent_trace m w Hm) as Hw.
  destruct (m w) as [[e1|a] w1]; cbn [snd] in Hw.
  - inversion H; subst. exact Hw.
  - rewrite (Hk a w1 e w' H). exact Hw.
Qed.

Lemma never_raises_before_sending {A : Type} (m : M A) :
  (forall w, exists a, fst (m w) = inr a) -> raises_before_sending m.
Proof.
  intros H w e w' E. destruct (H w) as [a Ha]. rewrite E in Ha. discriminate.
Qed.

Lemma handle_code_task_raises
      (attempt : Attempt) (author_login task_spec : string)
      (task_tests : list TaskTest) (test_groups : list Z)
      (queue_item : PendingQueueItem) (w w' : World) (e : exn) :
  _handle_code_task attempt author_login task_spec
                    task_tests test_groups queue_item w = (inl e, w') ->
  w' = w.
Proof.
  unfold _handle_code_task, bind, lift, _task_check_type_handler.
  destruct (group_values task_tests test_groups) as [e0|grouped_tests].
  - intros H. inversion H. reflexivity.
  - destruct (task_check_type queue_item =? 0).
    + intros H.
      pose proof (soft_run_returns _handle_tests_checker_func attempt author_login
                                   task_spec (grouped_tests, queue_item) w) as R.
      unfold _handle_tests_checker in H. rewrite H in R. discriminate.
    + destruct (task_check_type queue_item =? 1).
      * intros H.
        pose proof (soft_run_returns _handle_custom_checker_func attempt
                                     author_login task_spec
                                     (grouped_tests, queue_item) w) as R.
        unfold _handle_custom_checker in H. rewrite H in R. discriminate.
      * intros H. inversion H. reflexivity.
Qed.

(** X15. [_handle_code_task] raises in two cases only: [group_values]
    raised, or the check type is neither 0 nor 1 and the lookup in the
    table of check types raises KeyError on it.  In both nothing has
    been sent and the attempt is as it was. *)
Theorem handle_code_task_raises_before_dispatch
        (attempt : Attempt) (author_login task_spec : string)
        (task_tests : list TaskTest) (test_groups : list Z)
        (queue_item : PendingQueueItem) (w w' : World) (e : exn) :
  _handle_code_task attempt author_login task_spec
                    task_tests test_groups queue_item w = (inl e, w')
  <-> w' = w
      /\ (group_values task_tests test_groups = inl e
          \/ (exists grouped_tests,
                 group_values task_tests test_groups = inr grouped_tests)
             /\ task_check_type queue_item <> 0
             /\ task_check_type queue_item <> 1
             /\ e = KeyError_int (task_check_type queue_item)).
Proof.
  split.
  - intros H. split; [exact (handle_code_task_raises _ _ _ _ _ _ _ _ _ H) |].
    revert H.
    unfold _handle_code_task, bind, lift, _task_check_type_handler.
    destruct (group_values task_tests test_groups) as [e0|grouped_tests].
    + intros H. inversion H. left. reflexivity.
    + destruct (task_check_type queue_item =? 0) eqn:E0.
      * intros H.
        pose proof (soft_run_returns _handle_tests_checker_func attempt author_login
                                     task_spec (grouped_tests, queue_item) w) as R.
        unfold _handle_tests_checker in H. rewrite H in R. discriminate.
      * destruct (task_check_type queue_item =? 1) eqn:E1.
        -- intros H.
           pose proof (soft_run_returns _handle_custom_checker_func attempt
                                        author_login task_spec
                                        (grouped_tests, queue_item) w) as R.
           unfold _handle_custom_checker in H. rewrite H in R. discriminate.
        -- intros H. inversion H. right.
           apply Z.eqb_neq in E0. apply Z.eqb_neq in E1.
           split; [exists grouped_tests; reflexivity | auto].
  - intros [-> [H | ([grouped_tests H] & H0 & H1 & ->)]];
      unfold _handle_code_task, bind, lift, _task_check_type_handler;
      rewrite H; [reflexivity |].
    apply Z.eqb_neq in H0. apply Z.eqb_neq in H1. rewrite H0, H1. reflexivity.
Qed.

Lemma dict_get_set {V : Type} (d : list (string * V)) (key key' : string) (value : V) :
  dict_get (dict_set d key value) key'
  = if String.eqb key key' then Some value else dict_get d key'.
Proof.
  induction d as [|[k v] d IH]; cbn [dict_set dict_get]; [reflexivity |].
  destruct (String.eqb k key) eqn:E; cbn [dict_get].
  - apply String.eqb_eq in E. subst k.
    destruct (String.eqb key key'); reflexivity.
  - rewrite IH.
    destruct (String.eqb k key') eqn:E2; [| reflexivity].
    destruct (String.eqb key key') eqn:E3; [| reflexivity].
    apply String.eqb_eq in E2. apply String.eqb_eq in E3. subst.
    rewrite String.eqb_refl in E. discriminate.
Qed.

Lemma build_task_tests_map_snoc (found : list TaskTest) (task_test : TaskTest) :
  build_task_tests_map (found ++ [task_test])
  = dict_set (build_task_tests_map found) (tt_spec task_test) task_test.
Proof.
  unfold build_task_tests_map. rewrite fold_left_app. reflexivity.
Qed.

Lemma task_tests_map_get (found : list TaskTest) (key : string) :
  dict_get (build_task_tests_map found) key = last_found found key.
Proof.
  unfold last_found.
  induction found as [|task_test found IH] using rev_ind; [reflexivity |].
  rewrite build_task_tests_map_snoc, dict_get_set, rev_app_distr.
  cbn [rev app find]. rewrite IH. reflexivity.
Qed.

Lemma last_found_some (found : list TaskTest) (key : string) (task_test : TaskTest) :
  last_found found key = Some task_test ->
  In task_test found /\ tt_spec task_test = key.
Proof.
  unfold last_found. intros H. apply find_some in H as [I E].
  split; [apply in_rev; exact I | apply String.eqb_eq; exact E].
Qed.

Lemma last_found_none (found : list TaskTest) (key : string) :
  last_found found key = None <-> ~ In key (map tt_spec found).
Proof.
  unfold last_found. split.
  - intros H I. apply in_map_iff in I as (t & E & I).
    apply in_rev in I. pose proof (find_none _ _ H t I) as N.
    cbn in N. rewrite E, String.eqb_refl in N. discriminate.
  - intros H. destruct (find _ _) as [t|] eqn:F; [| reflexivity].
    apply find_some in F as [I E]. apply String.eqb_eq in E.
    exfalso. apply H. apply in_map_iff. exists t.
    split; [exact E | apply in_rev; exact I].
Qed.

(** X16. The dictionary of lines 442-446, read at a spec, gives the
    last task test found with that spec, and nothing exactly when no
    task test found has it: of two documents with one spec the later
    replaces the earlier. *)
Theorem task_tests_map_last_wins (found : list TaskTest) (key : string) :
  dict_get (build_task_tests_map found) key = last_found found key
  /\ (dict_get (build_task_tests_map found) key = None
      <-> ~ In key (map tt_spec found))
  /\ (forall before after task_test,
         found = before ++ task_test :: after ->
         tt_spec task_test = key ->
         ~ In key (map tt_spec after) ->
         dict_get (build_task_tests_map found) key = Some task_test).
Proof.
  split; [apply task_tests_map_get |].
  split; [rewrite task_tests_map_get; apply last_found_none |].
  intros before after task_test -> Hk Hafter.
  rewrite task_tests_map_get. unfold last_found.
  rewrite rev_app_distr. cbn [rev]. rewrite <- app_assoc. cbn [app].
  apply last_found_none in Hafter. unfold last_found in Hafter.
  induction (rev after) as [|t l IH].
  - cbn [app find]. rewrite Hk, String.eqb_refl. reflexivity.
  - cbn [app find] in *. destruct (String.eqb (tt_spec t) key); [discriminate |].
    apply IH. exact Hafter.
Qed.

Lemma lookup_task_tests_inr (found : list TaskTest) (results : list Result)
      (task_tests : list TaskTest) :
  lookup_task_tests (build_task_tests_map found) results = inr task_tests ->
  map Some task_tests = map (fun result => last_found found (test result)) results.
Proof.
  revert task_tests.
  induction results as [|result results IH]; intros task_tests H; cbn in H.
  - inversion H. reflexivity.
  - rewrite task_tests_map_get in H.
    destruct (last_found found (test result)) as [t|] eqn:E; [| discriminate].
    destruct (lookup_task_tests _ results) as [e|ts]; [discriminate |].
    inversion H; subst. cbn [map]. rewrite E, (IH ts eq_refl). reflexivity.
Qed.

(** X17. When the list of lines 448-450 is built, it runs parallel to
    the results of the attempt: one task test per result, in the same
    order, each with the spec named by its result and each among the
    documents found. *)
Theorem lookup_task_tests_parallel
        (found : list TaskTest) (results : list Result)
        (task_tests : list TaskTest) :
  lookup_task_tests (build_task_tests_map found) results = inr task_tests ->
  List.length task_tests = List.length results
  /\ map tt_spec task_tests = map test results
  /\ Forall (fun task_test => In task_test found) task_tests.
Proof.
  intros H. apply lookup_task_tests_inr in H.
  revert task_tests H.
  induction results as [|result results IH]; intros [|t ts] H;
    try discriminate; cbn [map] in H.
  - repeat split; constructor.
  - injection H as Ht Hts. symmetry in Ht.
    apply last_found_some in Ht as [I E].
    destruct (IH ts Hts) as (L & S & F).
    cbn [List.length map]. rewrite L, S, E.
    repeat split. constructor; assumption.
Qed.

Lemma lookup_task_tests_found (found : list TaskTest) (results : list Result) :
  Forall (fun r => In (test r) (map tt_spec found)) results ->
  exists task_tests,
    lookup_task_tests (build_task_tests_map found) results = inr task_tests.
Proof.
  intros Hall.
  induction Hall as [|r results Hr _ [ts IH]]; cbn [lookup_task_tests].
  - exists []. reflexivity.
  - rewrite task_tests_map_get.
    destruct (last_found found (test r)) as [t|] eqn:E.
    + rewrite IH. exists (t :: ts). reflexivity.
    + apply last_found_none in E. contradiction.
Qed.

(** X18. A result whose test is not among the task tests found makes
    line 449 raise KeyError on the first such test, in the order of the
    results; when every test was found the list is built. *)
Theorem lookup_task_tests_missing
        (found : list TaskTest) (results : list Result) :
  (forall before result after,
      results = before ++ result :: after ->
      Forall (fun r => In (test r) (map tt_spec found)) before ->
      ~ In (test result) (map tt_spec found) ->
      lookup_task_tests (build_task_tests_map found) results
      = inl (KeyError_str (test result)))
  /\ (Forall (fun r => In (test r) (map tt_spec found)) results ->
      exists task_tests,
        lookup_task_tests (build_task_tests_map found) results = inr task_tests).
Proof.
  split.
  - intros before result after -> Hbefore Hmiss.
    induction Hbefore as [|r before Hr _ IH]; cbn [app lookup_task_tests].
    + apply last_found_none in Hmiss.
      rewrite task_tests_map_get, Hmiss. reflexivity.
    + rewrite task_tests_map_get.
      destruct (last_found found (test r)) as [t|] eqn:E.
      * rewrite IH. reflexivity.
      * apply last_found_none in E. contradiction.
  - apply lookup_task_tests_found.
Qed.

(** ** [Manager.start] *)

Lemma silent_lift {A : Type} (r : exn + A) : silent (lift r).
Proof. apply emits_lift. Qed.

Lemma handle_code_task_bounds
      (attempt : Attempt) (author_login task_spec : string)
      (task_tests : list TaskTest) (test_groups : list Z)
      (queue_item : PendingQueueItem) :
  adds_at_most is_alert 2
               (_handle_code_task attempt author_login task_spec
                                  task_tests test_groups queue_item)
  /\ adds_at_most is_start 1
                  (_handle_code_task attempt author_login task_spec
                                     task_tests test_groups queue_item).
Proof.
  unfold _handle_code_task, _task_check_type_handler.
  split.
  - apply (adds_bind _ 0 2); [lia | apply silent_adds, silent_lift |].
    intros grouped_tests.
    destruct (task_check_type queue_item =? 0);
      [| destruct (task_check_type queue_item =? 1)].
    + apply soft_run_bounds; apply handle_tests_checker_func_sends.
    + apply soft_run_bounds; apply handle_custom_checker_func_sends.
    + apply adds_raise.
  - apply (adds_bind _ 0 1); [lia | apply silent_adds, silent_lift |].
    intros grouped_tests.
    destruct (task_check_type queue_item =? 0);
      [| destruct (task_check_type queue_item =? 1)].
    + apply soft_run_bounds; apply handle_tests_checker_func_sends.
    + apply soft_run_bounds; apply handle_custom_checker_func_sends.
    + apply adds_raise.
Qed.

(** X19. As long as no request to the store is answered by a
    SystemExit or a KeyboardInterrupt (raised in a gathered request,
    these leave the event loop with requests already sent), an
    exception out of [Manager.start] means that nothing was sent: no
    status update, no alert, no strategy start, and the pending
    descriptor is still there.  It comes from a load, from
    [prepare_test_groups], from a test that was not found, from
    [group_values] or from a type that is not in a table; past the
    dispatch to a decorated handler nothing is raised. *)
Theorem manager_start_raises_before_sending
        (attempt_spec author_login task_spec : string) (w w' : World) (e : exn) :
  store_keeps_loop ->
  manager_start attempt_spec author_login task_spec w = (inl e, w') ->
  trace w' = trace w.
Proof.
  intros _. revert w e w'.
  change (raises_before_sending (manager_start attempt_spec author_login task_spec)).
  unfold manager_start.
  apply raises_bind; [apply silent_lift |].
  intros [[[attempt attempt_results_] queue_item] task_dict].
  apply raises_bind; [apply emits_put_results | intros _].
  apply raises_bind; [apply silent_lift | intros test_groups].
  apply raises_bind; [apply emits_get_results | intros results].
  apply raises_bind; [apply silent_lift | intros found].
  apply raises_bind; [apply emits_get_results | intros results'].
  apply raises_bind; [apply silent_lift | intros task_tests].
  unfold _task_type_handler.
  destruct (task_type queue_item =? 0);
    [| destruct (task_type queue_item =? 1)].
  - intros w e w' H. apply handle_code_task_raises in H. subst. reflexivity.
  - apply never_raises_before_sending. intros w. exists tt.
    apply soft_run_returns.
  - intros w e w' H. inversion H. reflexivity.
Qed.

(** X20. One run of [Manager.start], and so one run of
    [_handle_code_task], sends at most two alerts and starts at most one
    strategy, whatever is loaded and whatever the collaborators answer. *)
Theorem manager_start_bounds
        (attempt_spec author_login task_spec : string) :
  adds_at_most is_alert 2 (manager_start attempt_spec author_login task_spec)
  /\ adds_at_most is_start 1 (manager_start attempt_spec author_login task_spec).
Proof.
  assert (forall (f : Event -> bool) (n : nat),
             (forall attempt task_tests test_groups queue_item,
                 adds_at_most f n (_handle_code_task attempt author_login task_spec
                                                     task_tests test_groups queue_item))
             -> (forall attempt task_tests test_groups queue_item,
                    adds_at_most f n (_handle_text_task attempt author_login task_spec
                                                        task_tests test_groups
                                                        queue_item))
             -> adds_at_most f n (manager_start attempt_spec author_login task_spec))
    as Hstart.
  { intros f n Hcode Htext. unfold manager_start.
    apply (adds_bind _ 0 n); [lia | apply silent_adds, silent_lift |].
    intros [[[attempt attempt_results_] queue_item] task_dict].
    apply (adds_bind _ 0 n); [lia | apply silent_adds, emits_put_results | intros _].
    apply (adds_bind _ 0 n); [lia | apply silent_adds, silent_lift |].
    intros test_groups.
    apply (adds_bind _ 0 n); [lia | apply silent_adds, emits_get_results |].
    intros results.
    apply (adds_bind _ 0 n); [lia | apply silent_adds, silent_lift | intros found].
    apply (adds_bind _ 0 n); [lia | apply silent_adds, emits_get_results |].
    intros results'.
    apply (adds_bind _ 0 n); [lia | apply silent_adds, silent_lift |].
    intros task_tests. unfold _task_type_handler.
    destruct (task_type queue_item =? 0);
      [| destruct (task_type queue_item =? 1)].
    - apply Hcode.
    - apply Htext.
    - apply adds_raise. }
  split; apply Hstart; intros attempt task_tests test_groups queue_item;
    try apply handle_code_task_bounds;
    apply soft_run_bounds; apply handle_text_task_func_sends.
Qed.


(** ** A store that answers: the calls return *)

Lemma returns_request {A : Type} (ev : Event) (answer : list Event -> exn + A) :
  (forall tr, exists a, answer tr = inr a) -> always_returns (request ev answer).
Proof. intros H w. unfold request. cbn [fst]. apply H. Qed.

Lemma returns_void {A : Type} (m : M A) : always_returns m -> always_returns (void m).
Proof.
  intros H w. unfold void, bind, ret. destruct (H w) as [a Ha].
  destruct (m w) as [[e|a'] w1]; [discriminate Ha |]. exists tt. reflexivity.
Qed.

Lemma returns_run_all {A : Type} (aws : list (M A)) :
  Forall always_returns aws ->
  forall w, exists l, collect (fst (run_all aws w)) = inr l.
Proof.
  induction 1 as [|m rest Hm _ IH]; intros w; [exists []; reflexivity |].
  cbn [run_all]. destruct (Hm w) as [a Ha].
  destruct (m w) as [r w1]. cbn [fst] in Ha. subst r.
  destruct (IH w1) as [l Hl]. destruct (run_all rest w1) as [rs w2].
  cbn [fst collect] in *. rewrite Hl. exists (a :: l). reflexivity.
Qed.

Lemma returns_gather {A : Type} (aws : list (M A)) :
  Forall always_returns aws -> always_returns (gather aws).
Proof.
  intros H w. unfold gather.
  destruct (returns_run_all aws H w) as [l Hl].
  destruct (run_all aws w) as [rs w']. cbn [fst] in *. exists l. exact Hl.
Qed.

Lemma returns_database_write (op : DbWrite) :
  writes_answered -> always_returns (database_write op).
Proof. intros H. apply returns_request. intros tr. apply H. Qed.

(** [_save_task_results] returns once line 153 has given a number, the
    lookup has answered and the writes are answered. *)
Lemma save_task_results_returns
      (attempt : Attempt) (author_login task_spec : string) (verdicts : list Z)
      (attempt_final_verdict attempt_final_verdict_test : Z) (w : World)
      (stored : option UserTaskResult) :
  writes_answered ->
  verdicts <> [] ->
  db_find_user_task_result env (trace w) task_spec author_login = inr stored ->
  fst (_save_task_results attempt author_login task_spec verdicts
                          attempt_final_verdict attempt_final_verdict_test w)
  = inr tt.
Proof.
  intros Hw Hne Hfind.
  destruct (passed_tests_range (map_verdict "OK") verdicts Hne) as [Hp Ht].
  destruct (percent_tests_at_returns _ _ Hp Ht) as [percent Hpercent].
  unfold _save_task_results, bind at 1, lift. rewrite Hpercent.
  unfold bind at 1, find_one_user_task_result, request at 1. rewrite Hfind.
  match goal with
  | |- fst (void (gather ?actions) ?w1) = _ =>
      assert (Hret : always_returns (void (gather actions)));
      [| destruct (Hret w1) as [[] Hu]; exact Hu]
  end.
  apply returns_void, returns_gather, Forall_app. split.
  - destruct (_ && _); repeat constructor. apply returns_database_write, Hw.
  - destruct stored; repeat constructor; apply returns_database_write, Hw.
Qed.

(** [_save_results] returns when every slot has a verdict to receive,
    the writes are answered and the lookup of the aggregate, sent after
    the first two writes, is answered. *)
Lemma save_results_returns
      (attempt : Attempt) (author_login task_spec : string) (verdicts : list Z)
      (logs : list string) (w : World) (stored : option UserTaskResult) :
  writes_answered ->
  verdicts <> [] ->
  (List.length (attempt_results w) <= List.length verdicts)%nat ->
  let results' := assigned (attempt_results w) verdicts in
  let final := scan_results results' (map_verdict "NT") 0 in
  db_find_user_task_result
    env
    (EvWrite (UpdateAttemptFinal (spec attempt) (map_attempt_status "finished")
                                 (fst final) (snd final) results' logs)
       :: EvWrite (DeletePending (spec attempt)) :: trace w)
    task_spec author_login = inr stored ->
  fst (_save_results attempt author_login task_spec verdicts logs w) = inr tt.
Proof.
  intros Hw Hne Hlen results' final Hfind.
  unfold _save_results, bind at 1, get_results at 1. unfold bind at 1.
  rewrite get_attempt_final_info_in_range by exact Hlen.
  fold results'. fold final. destruct final as [fv ft] eqn:Hfinal.
  unfold bind at 1, get_results. cbn [attempt_results trace fst snd] in *.
  unfold void at 1, bind at 1, gather. cbn [run_all].
  unfold void at 1, bind at 1, database_write at 1, request at 1.
  cbn [trace attempt_results].
  destruct (Hw (trace w) (DeletePending (spec attempt))) as [n1 H1]. rewrite H1.
  unfold ret at 1.
  unfold _save_attempt_results, void at 1, bind at 1, database_write at 1,
    request at 1. cbn [trace attempt_results]. rewrite map_id.
  match goal with
  | |- context [db_write env ?tr (UpdateAttemptFinal ?a ?b ?c ?d ?e ?f)] =>
      destruct (Hw tr (UpdateAttemptFinal a b c d e f)) as [n2 H2]; rewrite H2
  end.
  unfold ret at 1.
  match goal with
  | |- context [_save_task_results ?a ?l ?t ?v ?x ?y ?w1] =>
      pose proof (save_task_results_returns a l t v x y w1 stored Hw Hne Hfind)
        as H3;
      destruct (_save_task_results a l t v x y w1) as [r3 w3]
  end.
  cbn [fst] in H3. subst r3.
  unfold void at 1, bind at 1, database_write at 1, request at 1.
  match goal with
  | |- context [db_write env ?tr (UpdateUserTaskStatus ?a ?b)] =>
      destruct (Hw tr (UpdateUserTaskStatus a b)) as [n4 H4]; rewrite H4
  end.
  reflexivity.
Qed.

Lemma save_results_no_slots_raises
      (attempt : Attempt) (author_login task_spec : string) (logs : list string)
      (w : World) :
  attempt_results w = [] ->
  exists e, fst (_save_results attempt author_login task_spec [] logs w) = inl e.
Proof.
  intros Hres.
  unfold _save_results, _save_attempt_results, database_write, request, void,
    gather, bind, ret, get_results.
  rewrite Hres. cbn.
  destruct (db_write env (trace w) (DeletePending (spec attempt))) as [e1|n1];
    destruct (db_write env _ (UpdateAttemptFinal _ _ _ _ _ _)) as [e2|n2];
    destruct (db_write env _ (UpdateUserTaskStatus _ _)) as [e3|n3];
    cbn; eexists; reflexivity.
Qed.

Lemma scan_results_uniform (v : Z) (results : list Result) (running : Z) :
  results <> [] ->
  scan_results (map (fun r => mkResult (test r) v) results) running 0
  = (v, if v =? 0 then len results else 1).
Proof.
  intros Hne. destruct results as [|r rest]; [congruence |].
  cbn [map scan_results verdict]. destruct (Z.eqb_spec v 0) as [-> | Hv].
  - cbn [negb].
    rewrite scan_results_all_passed.
    + unfold len. cbn [List.length]. rewrite length_map.
      destruct (map _ rest); f_equal; lia.
    + rewrite map_map. cbn [verdict]. apply Forall_forall.
      intros x Hin. apply in_map_iff in Hin. destruct Hin as (r0 & <- & _).
      reflexivity.
  - cbn [negb]. reflexivity.
Qed.

(** The not-tested fallback of [_set_testing], in the world its two
    status updates have left: what it leaves in the slots and what it
    sends first. *)
Lemma not_tested_fallback_world
      (attempt : Attempt) (author_login task_spec : string) (w : World) :
  attempt_results w <> [] ->
  let nt := map_verdict "NT" in
  let nt_results := map (fun r => mkResult (test r) nt) (attempt_results w) in
  let final_test := if nt =? 0 then len (attempt_results w) else 1 in
  let w1 :=
    mkWorld nt_results
            (EvWrite (UpdateAttemptFinal (spec attempt)
                                         (map_attempt_status "finished")
                                         nt final_test nt_results
                                         ["Error in setting testing status"])
               :: EvWrite (DeletePending (spec attempt))
               :: trace (after_status_updates attempt w)) in
  let w2 :=
    snd (_save_task_results
           attempt author_login task_spec
           (generate_tests_verdicts "NT" (List.length (attempt_results w)))
           nt final_test w1) in
  snd (_save_results attempt author_login task_spec
                     (generate_tests_verdicts "NT" (List.length (attempt_results w)))
                     ["Error in setting testing status"]
                     (after_status_updates attempt w))
  = mkWorld nt_results
            (EvWrite (UpdateUserTaskStatus (spec attempt)
                                           (map_attempt_status "finished"))
               :: trace w2).
Proof.
  intros Hne nt nt_results final_test w1 w2.
  set (verdicts := generate_tests_verdicts "NT" (List.length (attempt_results w))) in *.
  set (w0 := after_status_updates attempt w) in *.
  assert (Hlen : (List.length (attempt_results w0) <= List.length verdicts)%nat).
  { subst verdicts w0. rewrite uniform_verdicts_length. cbn. lia. }
  pose proof (save_results_world attempt author_login task_spec verdicts
                                 ["Error in setting testing status"] w0 Hlen) as Hs.
  cbv zeta in Hs.
  assert (Hres : assigned (attempt_results w0) verdicts = nt_results).
  { subst verdicts w0 nt_results. apply assigned_uniform. }
  rewrite Hres in Hs.
  assert (Hscan : scan_results nt_results (map_verdict "NT") 0 = (nt, final_test)).
  { subst nt_results final_test. apply scan_results_uniform. exact Hne. }
  rewrite Hscan in Hs. cbn [fst snd] in Hs.
  fold w1 in Hs. fold w2 in Hs. rewrite Hs.
  subst w2. rewrite save_task_results_keeps_results. reflexivity.
Qed.

(** C3.  The lease.  When both status updates are answered and the
    attempt document reports one modified record, [_set_testing] sends
    nothing else and returns true.  When it reports another count, the
    store answers every request and the attempt has a Result slot,
    [_set_testing] returns false.  And whenever [_set_testing] returns:
    the attempt document has reported a count, the value returned is
    true exactly when the count is one, and when it is false the
    not-tested code stands in every Result slot of the attempt, the
    update of the attempt document to finished with these results, the
    not-tested code as final verdict and the log "Error in setting
    testing status" has been sent, nothing but requests to the store
    has been sent, and each of the three handlers returns at once in
    the world [_set_testing] left: no strategy started, no alert,
    nothing raised. *)
Theorem set_testing_lease
        (attempt : Attempt) (author_login task_spec : string) (w : World) :
  let attempt_update :=
    UpdateAttemptStatus (spec attempt) (map_attempt_status "testing") in
  let mirror_update :=
    UpdateUserTaskStatus (spec attempt) (map_attempt_status "testing") in
  let nt := map_verdict "NT" in
  let nt_results := map (fun r => mkResult (test r) nt) (attempt_results w) in
  let fallback_write :=
    EvWrite (UpdateAttemptFinal (spec attempt) (map_attempt_status "finished")
                                nt (if nt =? 0 then len (attempt_results w) else 1)
                                nt_results ["Error in setting testing status"]) in
  (forall mirror_count,
      db_write env (trace w) attempt_update = inr 1 ->
      db_write env (EvWrite attempt_update :: trace w) mirror_update
      = inr mirror_count ->
      _set_testing attempt author_login task_spec w
      = (inr true, after_status_updates attempt w))
  /\ (forall modified_count,
         db_write env (trace w) attempt_update = inr modified_count ->
         modified_count <> 1 ->
         store_answers ->
         attempt_results w <> [] ->
         exists w', _set_testing attempt author_login task_spec w = (inr false, w'))
  /\ (forall (b : bool) (w' : World),
         _set_testing attempt author_login task_spec w = (inr b, w') ->
         exists modified_count : Z,
           db_write env (trace w) attempt_update = inr modified_count
           /\ (b = true <-> modified_count = 1)
           /\ (b = true -> w' = after_status_updates attempt w)
           /\ (b = false ->
               attempt_results w' = nt_results
               /\ (exists evs,
                      trace w' = evs ++ trace (after_status_updates attempt w)
                      /\ Forall is_storage evs
                      /\ In fallback_write evs)
               /\ (forall task_tests test_groups queue_item,
                      _handle_text_task attempt author_login task_spec
                                        task_tests test_groups queue_item w
                      = (inr tt, w'))
               /\ (forall grouped_tests queue_item,
                      _handle_tests_checker attempt author_login task_spec
                                            grouped_tests queue_item w
                      = (inr tt, w'))
               /\ (forall grouped_tests queue_item,
                      _handle_custom_checker attempt author_login task_spec
                                             grouped_tests queue_item w
                      = (inr tt, w')))).
Proof.
  intros attempt_update mirror_update nt nt_results fallback_write.
  split; [| split].
  - intros k H1 H2.
    rewrite (set_testing_answered _ _ _ _ _ _ H1 H2). reflexivity.
  - intros n H1 Hn [Hw Hf] Hne.
    destruct (Hw (EvWrite attempt_update :: trace w) mirror_update) as [k H2].
    rewrite (set_testing_answered _ _ _ _ _ _ H1 H2).
    replace (n =? 1) with false by (symmetry; apply Z.eqb_neq; exact Hn).
    set (verdicts := generate_tests_verdicts "NT" (List.length (attempt_results w))).
    set (w0 := after_status_updates attempt w).
    assert (Hlen : (List.length (attempt_results w0) <= List.length verdicts)%nat).
    { subst verdicts w0. rewrite uniform_verdicts_length. cbn. lia. }
    assert (Hv : verdicts <> [])
      by (apply uniform_verdicts_nonempty; exact Hne).
    match goal with
    | |- context [_save_results ?a ?l ?t ?v ?lg ?w1] =>
        pose proof (fun stored =>
                      save_results_returns a l t v lg w1 stored Hw Hv Hlen) as Hret;
        cbv zeta in Hret
    end.
    match type of Hret with
    | forall stored, db_find_user_task_result env ?tr ?t ?u = _ -> _ =>
        destruct (Hf tr t u) as [stored Hstored];
        specialize (Hret stored Hstored)
    end.
    destruct (_save_results _ _ _ _ _ _) as [[e|[]] w'']; [discriminate Hret |].
    exists w''. reflexivity.
  - intros b w' Hrun.
    destruct (set_testing_returned _ _ _ _ _ _ Hrun) as (n & k & H1 & H2).
    exists n. split; [exact H1 |].
    pose proof Hrun as Hrun'.
    rewrite (set_testing_answered _ _ _ _ _ _ H1 H2) in Hrun'.
    destruct (Z.eqb_spec n 1) as [Hn | Hn].
    + injection Hrun' as <- <-.
      split; [split; auto |]. split; [reflexivity |]. intros H; discriminate H.
    + destruct (_save_results _ _ _ _ _ _) as [[e|[]] w''] eqn:Hsave;
        [discriminate Hrun' |].
      injection Hrun' as <- <-.
      split; [split; [intros H; discriminate H | intros H; contradiction] |].
      split; [intros H; discriminate H |].
      intros _.
      assert (Hne : attempt_results w <> []).
      { intros Hres.
        destruct (save_results_no_slots_raises
                    attempt author_login task_spec
                    ["Error in setting testing status"]
                    (after_status_updates attempt w) Hres) as [e He].
        rewrite Hres in Hsave. cbn [List.length generate_tests_verdicts repeat]
          in Hsave.
        unfold generate_tests_verdicts in Hsave. cbn [repeat] in Hsave.
        rewrite Hsave in He. discriminate He. }
      pose proof (not_tested_fallback_world attempt author_login task_spec w Hne)
        as Hworld.
      cbv zeta in Hworld. rewrite Hsave in Hworld. cbn [snd] in Hworld.
      fold nt in Hworld. fold nt_results in Hworld. fold fallback_write in Hworld.
      match type of Hworld with
      | context [snd (_save_task_results ?a ?l ?t ?v ?x ?y ?w1)] =>
          destruct (save_task_results_emits a l t v x y w1) as (evs & Ht & Hs);
          set (w2 := snd (_save_task_results a l t v x y w1)) in *
      end.
      cbn [trace] in Ht.
      split; [rewrite Hworld; reflexivity |].
      split.
      { exists (EvWrite (UpdateUserTaskStatus (spec attempt)
                                              (map_attempt_status "finished"))
                  :: evs ++ [fallback_write; EvWrite (DeletePending (spec attempt))]).
        split; [| split].
        - rewrite Hworld. cbn [trace]. rewrite Ht. cbn [app].
          rewrite <- app_assoc. reflexivity.
        - constructor; [exact I |]. apply Forall_app. split; [exact Hs |].
          repeat constructor.
        - right. apply in_or_app. right. left. reflexivity. }
      split; [| split].
      * intros task_tests test_groups queue_item.
        unfold _handle_text_task, _soft_run, try_except, _handle_text_task_func,
          bind at 1.
        rewrite Hrun. reflexivity.
      * intros grouped_tests queue_item.
        unfold _handle_tests_checker, _soft_run, try_except,
          _handle_tests_checker_func, bind at 1.
        rewrite Hrun. reflexivity.
      * intros grouped_tests queue_item.
        unfold _handle_custom_checker, _soft_run, try_except,
          _handle_custom_checker_func, bind at 1.
        rewrite Hrun. reflexivity.
Qed.

Lemma filter_uniform (ok v : Z) (n : nat) :
  filter (fun verdict => verdict =? ok) (repeat v n)
  = if v =? ok then repeat v n else [].
Proof.
  induction n as [|n IH]; [destruct (v =? ok); reflexivity |].
  cbn [repeat filter]. rewrite IH. destruct (v =? ok); reflexivity.
Qed.

(** Line 153 on the verdicts of a fallback: all passed or none. *)
Lemma uniform_verdicts_percent (name : string) (results : list Result) :
  results <> [] ->
  let verdicts := generate_tests_verdicts name (List.length results) in
  let all_pass := map_verdict name =? map_verdict "OK" in
  len (filter (fun verdict => verdict =? map_verdict "OK") verdicts)
  = (if all_pass then len results else 0)
  /\ percent_tests_at (if all_pass then len results else 0) (len verdicts)
     = inr (if all_pass then 100 else 0).
Proof.
  intros Hne verdicts all_pass.
  assert (Hn : 1 <= len results).
  { unfold len. destruct results; [congruence | cbn [List.length]; lia]. }
  assert (Hl : len verdicts = len results).
  { subst verdicts. unfold len. rewrite uniform_verdicts_length. reflexivity. }
  subst verdicts. unfold generate_tests_verdicts in *.
  rewrite filter_uniform. fold all_pass. rewrite Hl.
  destruct all_pass.
  - split; [unfold len; rewrite repeat_length; reflexivity |].
    apply percent_tests_at_full. exact Hn.
  - split; [reflexivity | apply percent_tests_at_none; exact Hn].
Qed.

(** C10, as the code has it.  The lease is lost: the attempt document
    reports another count than one.  On an attempt with at least one
    Result slot and with a store that answers every request,
    [_set_testing] returns false, and before it does, it has sent the
    four terminal writes of [_save_results]: the deletion of the
    pending descriptor; the update of the attempt document to finished
    with the not-tested code in every slot and as final verdict, and
    the log "Error in setting testing status"; the write that brings
    the snapshot of the attempt to the user-task aggregate, which is
    created when the lookup found none, together with the new best of
    the merge rule; the update of the status mirror to finished. *)
Theorem lease_loss_terminal_writes
        (attempt : Attempt) (author_login task_spec : string) (w : World)
        (modified_count : Z) (stored : option UserTaskResult) :
  let nt := map_verdict "NT" in
  let total := len (attempt_results w) in
  let nt_results := map (fun r => mkResult (test r) nt) (attempt_results w) in
  let final_test := if nt =? 0 then total else 1 in
  let fallback_write :=
    EvWrite (UpdateAttemptFinal (spec attempt) (map_attempt_status "finished")
                                nt final_test nt_results
                                ["Error in setting testing status"]) in
  let all_pass := nt =? map_verdict "OK" in
  let current_attempt :=
    mkSnapshot (spec attempt) (date attempt)
               (if all_pass then total else 0) (if all_pass then 100 else 0)
               nt final_test in
  let new_best_attempt :=
    new_best_by_rule (previous_best_of stored) current_attempt in
  attempt_results w <> [] ->
  store_answers ->
  db_write env (trace w)
           (UpdateAttemptStatus (spec attempt) (map_attempt_status "testing"))
  = inr modified_count ->
  modified_count <> 1 ->
  db_find_user_task_result
    env
    (fallback_write :: EvWrite (DeletePending (spec attempt))
                    :: trace (after_status_updates attempt w))
    task_spec author_login = inr stored ->
  exists (w' : World) (evs : list Event),
    _set_testing attempt author_login task_spec w = (inr false, w')
    /\ attempt_results w' = nt_results
    /\ trace w' = evs ++ trace (after_status_updates attempt w)
    /\ In (EvWrite (DeletePending (spec attempt))) evs
    /\ In fallback_write evs
    /\ In (aggregate_write author_login task_spec stored
                           current_attempt new_best_attempt) evs
    /\ In (EvWrite (UpdateUserTaskStatus (spec attempt)
                                         (map_attempt_status "finished"))) evs.
Proof.
  intros nt total nt_results final_test fallback_write all_pass current_attempt
         new_best_attempt Hne [Hw Hf] H1 Hn Hfind.
  destruct (Hw (EvWrite (UpdateAttemptStatus (spec attempt)
                                             (map_attempt_status "testing"))
                  :: trace w)
               (UpdateUserTaskStatus (spec attempt) (map_attempt_status "testing")))
    as [k H2].
  rewrite (set_testing_answered _ _ _ _ _ _ H1 H2).
  replace (modified_count =? 1) with false by (symmetry; apply Z.eqb_neq; exact Hn).
  set (verdicts := generate_tests_verdicts "NT" (List.length (attempt_results w))).
  set (w0 := after_status_updates attempt w).
  assert (Hlen : (List.length (attempt_results w0) <= List.length verdicts)%nat).
  { subst verdicts w0. rewrite uniform_verdicts_length. cbn. lia. }
  assert (Hv : verdicts <> [])
    by (apply uniform_verdicts_nonempty; exact Hne).
  assert (Hres : assigned (attempt_results w0) verdicts = nt_results).
  { subst verdicts w0 nt_results. apply assigned_uniform. }
  assert (Hscan : scan_results nt_results (map_verdict "NT") 0 = (nt, final_test)).
  { subst nt_results final_test. apply scan_results_uniform. exact Hne. }
  pose proof (save_results_returns
                attempt author_login task_spec verdicts
                ["Error in setting testing status"] w0 stored Hw Hv Hlen) as Hret.
  cbv zeta in Hret. rewrite Hres, Hscan in Hret. cbn [fst snd] in Hret.
  specialize (Hret Hfind).
  pose proof (not_tested_fallback_world attempt author_login task_spec w Hne)
    as Hworld.
  cbv zeta in Hworld. fold verdicts in Hworld. fold w0 in Hworld.
  fold nt in Hworld. fold nt_results in Hworld. fold total in Hworld.
  fold final_test in Hworld. fold fallback_write in Hworld.
  destruct (uniform_verdicts_percent "NT" (attempt_results w) Hne)
    as [Hpassed Hpercent].
  fold verdicts in Hpassed, Hpercent. fold nt in Hpassed, Hpercent.
  fold all_pass in Hpassed, Hpercent. fold total in Hpassed, Hpercent.
  rewrite <- Hpassed in Hpercent at 1.
  match type of Hworld with
  | context [snd (_save_task_results ?a ?l ?t ?v ?x ?y ?w1)] =>
      destruct (save_task_results_by_rule
                  a l t v x y w1 (if all_pass then 100 else 0) stored
                  Hpercent Hfind) as (r2 & w2 & Hrun2 & _ & Htr2)
  end.
  rewrite Hpassed in Htr2. fold current_attempt in Htr2.
  fold new_best_attempt in Htr2.
  rewrite Hrun2 in Hworld. cbn [snd trace] in Hworld, Htr2.
  rewrite Htr2 in Hworld.
  destruct (_save_results _ _ _ _ _ _) as [[e|[]] w'']; [discriminate Hret |].
  cbn [snd] in Hworld. subst w''.
  eexists. eexists (_ :: _ :: _ ++ [_; _; _]).
  split; [reflexivity |]. split; [reflexivity |].
  split; [cbn [trace app]; rewrite <- app_assoc; reflexivity |].
  split; [right; right; apply in_or_app; right; right; right; left; reflexivity |].
  split; [right; right; apply in_or_app; right; right; left; reflexivity |].
  split; [right; left; reflexivity | left; reflexivity].
Qed.

(** X3. A first attempt on a task that passes every test, with 0 as
    the OK code and a store that answers every write: [_save_results]
    returns, leaves verdict 0 in every slot, and has sent six requests.
    Five of them in this order: the deletion of the pending
    descriptor, the attempt document finished with verdict 0 at the
    last test, the lookup of the aggregate, the increment of the
    rating, the insertion of an aggregate whose only result and only
    best is the snapshot of the attempt (every test passed, 100
    percent).  The sixth is the status mirror finished; where it
    stands among the others is left to the event loop. *)
Theorem save_results_first_full_pass
        (attempt : Attempt) (author_login task_spec : string) (verdicts : list Z)
        (logs : list string) (w : World) :
  map_verdict "OK" = 0 ->
  verdicts <> [] ->
  List.length verdicts = List.length (attempt_results w) ->
  Forall (fun v => v = 0) verdicts ->
  writes_answered ->
  let n := len verdicts in
  let results' := map (fun r => mkResult (test r) 0) (attempt_results w) in
  let final_write :=
    EvWrite (UpdateAttemptFinal (spec attempt) (map_attempt_status "finished")
                                0 n results' logs) in
  let current_attempt := mkSnapshot (spec attempt) (date attempt) n 100 0 n in
  db_find_user_task_result
    env (final_write :: EvWrite (DeletePending (spec attempt)) :: trace w)
    task_spec author_login = inr None ->
  exists (w' : World) (evs : list Event),
    _save_results attempt author_login task_spec verdicts logs w = (inr tt, w')
    /\ attempt_results w' = results'
    /\ trace w' = evs ++ trace w
    /\ filter (fun ev => negb (is_status_mirror ev)) evs
       = [EvWrite (InsertUserTaskResult
                     (mkUserTaskResult task_spec author_login
                                       [current_attempt] [current_attempt]));
          EvWrite (IncRatingScore author_login 1 true);
          EvFindUserTaskResult task_spec author_login;
          final_write;
          EvWrite (DeletePending (spec attempt))]
    /\ filter is_status_mirror evs
       = [EvWrite (UpdateUserTaskStatus (spec attempt)
                                        (map_attempt_status "finished"))].
Proof.
  intros Hok Hne Hlen Hall Hw n results' final_write current_attempt Hfind.
  pose proof (all_zero_is_repeat verdicts Hall) as Hrep.
  assert (Hres : assigned (attempt_results w) verdicts = results').
  { rewrite Hrep, Hlen. apply assigned_uniform. }
  assert (Hres_ne : results' <> []).
  { subst results'. destruct (attempt_results w); [| discriminate].
    destruct verdicts; [congruence | discriminate Hlen]. }
  assert (Hlen' : len results' = n).
  { subst results' n. unfold len. rewrite length_map, Hlen. reflexivity. }
  assert (Hscan : scan_results results' (map_verdict "NT") 0 = (0, n)).
  { rewrite scan_results_all_passed.
    - rewrite Hlen'. destruct results'; [congruence | reflexivity].
    - subst results'. rewrite map_map. cbn [verdict].
      apply Forall_forall. intros v Hin. apply in_map_iff in Hin.
      destruct Hin as (r & <- & _). reflexivity. }
  assert (Hpassed : len (filter (fun verdict => verdict =? map_verdict "OK") verdicts)
                    = n).
  { rewrite Hok, Hrep, filter_all_passed. subst n. rewrite <- Hrep. reflexivity. }
  assert (Hn : 1 <= n).
  { subst n. unfold len. destruct verdicts; [congruence | cbn [List.length]; lia]. }
  pose proof (save_results_world attempt author_login task_spec verdicts logs w
                                 ltac:(lia)) as Hworld.
  cbv zeta in Hworld. rewrite Hres, Hscan in Hworld. cbn [fst snd] in Hworld.
  fold final_write in Hworld.
  pose proof (save_results_returns
                attempt author_login task_spec verdicts logs w None
                Hw Hne ltac:(lia)) as Hret.
  cbv zeta in Hret. rewrite Hres, Hscan in Hret. cbn [fst snd] in Hret.
  fold final_write in Hret. specialize (Hret Hfind).
  destruct (save_task_results_chronicle
              attempt author_login task_spec verdicts 0 n
              (mkWorld results' (final_write :: EvWrite (DeletePending (spec attempt))
                                             :: trace w))
              100 None) as (r & w2 & Hrun & Hres2 & Htr2).
  { rewrite Hpassed. fold n. apply percent_tests_at_full. exact Hn. }
  { exact Hfind. }
  rewrite Hrun in Hworld. cbn [snd] in Hworld. rewrite Hres2, Htr2 in Hworld.
  rewrite Hpassed in Hworld.
  cbn [attempt_results trace snap_verdict Z.eqb andb app] in Hworld.
  fold current_attempt in Hworld.
  destruct (_save_results attempt author_login task_spec verdicts logs w)
    as [[e|[]] w'']; [discriminate Hret |].
  cbn [snd] in Hworld. subst w''.
  eexists. eexists [_; _; _; _; _; _].
  split; [reflexivity |]. split; [reflexivity |]. split; [reflexivity |].
  split; reflexivity.
Qed.

(** ** The wrapper in the event loop *)


















End Manager.

(** ** The theorems on the sample installation *)

Lemma get_attempt_final_info_first_failure_witness :
  List.length (Sample.slots 4) = List.length [0; 0; 2; 0]
  /\ exists results' : list Result,
      _get_attempt_final_info Sample.map_verdict (Sample.slots 4) [0; 0; 2; 0]
                              (Sample.world 4)
      = (inr (2, 3), mkWorld results' [])
      /\ map verdict results' = [0; 0; 2; 0].
Proof.
  split; [reflexivity |].
  destruct (get_attempt_final_info_first_failure
              Sample.map_verdict (Sample.slots 4) [0; 0; 2; 0] (Sample.world 4)
              eq_refl)
    as (fv & ft & results' & Hrun & Hv & _ & Hfirst & _).
  destruct (Hfirst 2%nat 2 eq_refl ltac:(discriminate)) as [Hfv Hft].
  - intros [|[|j]] Hj; [reflexivity | reflexivity | lia].
  - exists results'. rewrite Hfv, Hft in Hrun. split; [exact Hrun | exact Hv].
Defined.



Lemma set_testing_lease_witness :
  let acquired := Sample.environment 1 None Sample.crashed in
  let lost := Sample.environment 0 None Sample.crashed in
  let nt_results := [mkResult "t" 6; mkResult "t" 6] in
  _set_testing Sample.map_verdict Sample.map_attempt_status acquired
               Sample.attempt "user" "task" (Sample.world 2)
  = (inr true,
     after_status_updates Sample.map_attempt_status Sample.attempt (Sample.world 2))
  /\ store_answers lost
  /\ attempt_results (Sample.world 2) <> []
  /\ exists w' : World,
      _set_testing Sample.map_verdict Sample.map_attempt_status lost
                   Sample.attempt "user" "task" (Sample.world 2)
      = (inr false, w')
      /\ attempt_results w' = nt_results
      /\ In (EvWrite (UpdateAttemptFinal "a1" 2 6 1 nt_results
                                         ["Error in setting testing status"]))
            (trace w')
      /\ _handle_tests_checker Sample.map_verdict Sample.map_attempt_status lost
                               Sample.attempt "user" "task" [] Sample.queue_item
                               (Sample.world 2)
         = (inr tt, w').
Proof.
  cbv zeta.
  assert (Hstore : store_answers (Sample.environment 0 None Sample.crashed)).
  { split; [intros tr op; exists 0; reflexivity
           | intros tr t u; exists None; reflexivity]. }
  assert (Hne : attempt_results (Sample.world 2) <> []) by discriminate.
  split.
  { apply (proj1 (set_testing_lease
                    Sample.map_verdict Sample.map_attempt_status
                    (Sample.environment 1 None Sample.crashed)
                    Sample.attempt "user" "task" (Sample.world 2)) 1);
      reflexivity. }
  split; [exact Hstore |]. split; [exact Hne |].
  destruct (set_testing_lease
              Sample.map_verdict Sample.map_attempt_status
              (Sample.environment 0 None Sample.crashed)
              Sample.attempt "user" "task" (Sample.world 2))
    as (_ & Hlost & Hreturned).
  destruct (Hlost 0 eq_refl ltac:(discriminate) Hstore Hne) as [w' Hrun].
  destruct (Hreturned false w' Hrun) as (n & _ & _ & _ & Hfalse).
  destruct (Hfalse eq_refl) as (Hres & (evs & Htr & _ & Hin) & _ & Htests & _).
  exists w'. split; [exact Hrun |]. split; [exact Hres |].
  split; [rewrite Htr; apply in_or_app; left; exact Hin | apply Htests].
Defined.

Lemma lease_loss_terminal_writes_witness :
  let env := Sample.environment 0 None Sample.crashed in
  let nt_results := [mkResult "t" 6; mkResult "t" 6] in
  let fallback_write :=
    EvWrite (UpdateAttemptFinal "a1" 2 6 1 nt_results
                                ["Error in setting testing status"]) in
  let current_attempt := mkSnapshot "a1" 1700000000 0 0 6 1 in
  let w0 :=
    after_status_updates Sample.map_attempt_status Sample.attempt (Sample.world 2) in
  attempt_results (Sample.world 2) <> []
  /\ store_answers env
  /\ db_write env (trace (Sample.world 2)) (UpdateAttemptStatus "a1" 1) = inr 0
  /\ 0 <> 1
  /\ db_find_user_task_result
       env (fallback_write :: EvWrite (DeletePending "a1") :: trace w0) "task" "user"
     = inr None
  /\ exists (w' : World) (evs : list Event),
      _set_testing Sample.map_verdict Sample.map_attempt_status env
                   Sample.attempt "user" "task" (Sample.world 2)
      = (inr false, w')
      /\ attempt_results w' = nt_results
      /\ trace w' = evs ++ trace w0
      /\ In (EvWrite (DeletePending "a1")) evs
      /\ In fallback_write evs
      /\ In (EvWrite (InsertUserTaskResult
                        (mkUserTaskResult "task" "user"
                                          [current_attempt] [current_attempt]))) evs
      /\ In (EvWrite (UpdateUserTaskStatus "a1" 2)) evs.
Proof.
  cbv zeta.
  assert (Hstore : store_answers (Sample.environment 0 None Sample.crashed)).
  { split; [intros tr op; exists 0; reflexivity
           | intros tr t u; exists None; reflexivity]. }
  split; [discriminate |]. split; [exact Hstore |]. split; [reflexivity |].
  split; [discriminate |]. split; [reflexivity |].
  apply (lease_loss_terminal_writes
           Sample.map_verdict Sample.map_attempt_status
           (Sample.environment 0 None Sample.crashed)
           Sample.attempt "user" "task" (Sample.world 2) 0 None);
    [discriminate | exact Hstore | reflexivity | discriminate | reflexivity].
Defined.


Lemma handlers_return_witness :
  let env := Sample.broken_store Sample.crashed in
  store_keeps_loop env
  /\ (forall w,
         fst (_handle_tests_checker Sample.map_verdict Sample.map_attempt_status env
                                    Sample.attempt "user" "task" [] Sample.queue_item
                                    w) = inr tt)
  /\ adds_at_most is_alert 2
                  (_handle_tests_checker Sample.map_verdict Sample.map_attempt_status
                                         env Sample.attempt "user" "task" []
                                         Sample.queue_item)
  /\ adds_at_most is_start 1
                  (_handle_tests_checker Sample.map_verdict Sample.map_attempt_status
                                         env Sample.attempt "user" "task" []
                                         Sample.queue_item).
Proof.
  cbv zeta.
  assert (Hstore : store_keeps_loop (Sample.broken_store Sample.crashed))
    by (repeat split; intros; reflexivity).
  split; [exact Hstore |].
  exact (proj1 (proj2 (handlers_return
                         Sample.map_verdict Sample.map_attempt_status
                         (Sample.broken_store Sample.crashed)
                         Sample.attempt "user" "task" [] [] [] Sample.queue_item
                         Hstore))).
Defined.

Lemma save_results_first_full_pass_witness :
  let env := Sample.environment 1 None Sample.crashed in
  let current_attempt := mkSnapshot "a1" 1700000000 2 100 0 2 in
  let final_write :=
    EvWrite (UpdateAttemptFinal "a1" 2 0 2
                                [mkResult "t" 0; mkResult "t" 0] ["log"]) in
  Sample.map_verdict "OK" = 0
  /\ [0; 0] <> []
  /\ List.length [0; 0] = List.length (attempt_results (Sample.world 2))
  /\ Forall (fun v => v = 0) [0; 0]
  /\ writes_answered env
  /\ db_find_user_task_result
       env (final_write :: EvWrite (DeletePending "a1") :: trace (Sample.world 2))
       "task" "user" = inr None
  /\ exists (w' : World) (evs : list Event),
      _save_results Sample.map_verdict Sample.map_attempt_status env
                    Sample.attempt "user" "task" [0; 0] ["log"] (Sample.world 2)
      = (inr tt, w')
      /\ attempt_results w' = [mkResult "t" 0; mkResult "t" 0]
      /\ trace w' = evs ++ trace (Sample.world 2)
      /\ filter (fun ev => negb (is_status_mirror ev)) evs
         = [EvWrite (InsertUserTaskResult
                       (mkUserTaskResult "task" "user"
                                         [current_attempt] [current_attempt]));
            EvWrite (IncRatingScore "user" 1 true);
            EvFindUserTaskResult "task" "user";
            final_write;
            EvWrite (DeletePending "a1")]
      /\ filter is_status_mirror evs = [EvWrite (UpdateUserTaskStatus "a1" 2)].
Proof.
  cbv zeta.
  assert (Hw : writes_answered (Sample.environment 1 None Sample.crashed))
    by (intros tr op; exists 1; reflexivity).
  split; [reflexivity |]. split; [discriminate |].
  split; [reflexivity |]. split; [repeat constructor |].
  split; [exact Hw |]. split; [reflexivity |].
  apply (save_results_first_full_pass
           Sample.map_verdict Sample.map_attempt_status
           (Sample.environment 1 None Sample.crashed)
           Sample.attempt "user" "task" [0; 0] ["log"] (Sample.world 2));
    [reflexivity | discriminate | reflexivity | repeat constructor | exact Hw
     | reflexivity].
Defined.

Lemma save_task_results_rating_witness :
  let env := Sample.environment 1 (Some Sample.aggregate) Sample.crashed in
  let current_attempt := mkSnapshot "a1" 1700000000 2 100 0 2 in
  [0; 0] <> []
  /\ db_find_user_task_result env (trace (Sample.world 2)) "task" "user"
     = inr (Some Sample.aggregate)
  /\ previous_best_of (Some Sample.aggregate) = Some Sample.previous_attempt
  /\ snap_verdict Sample.previous_attempt = 2
  /\ exists (r : exn + unit) (w' : World) (evs : list Event),
      _save_task_results Sample.map_verdict env Sample.attempt "user" "task"
                         [0; 0] 0 2 (Sample.world 2)
      = (r, w')
      /\ trace w' = evs ++ [EvFindUserTaskResult "task" "user"]
      /\ filter is_aggregate_write evs
         = [EvWrite (PushUserTaskResult "task" "user"
                                        current_attempt current_attempt)]
      /\ filter is_rating_write evs = [EvWrite (IncRatingScore "user" 1 true)].
Proof.
  cbv zeta. split; [discriminate |]. repeat (split; [reflexivity |]).
  destruct (proj2 (proj2 (save_task_results_rating
                            Sample.map_verdict
                            (Sample.environment 1 (Some Sample.aggregate)
                                                Sample.crashed)
                            Sample.attempt "user" "task" [0; 0] 0 2
                            (Sample.world 2)))
                  (Some Sample.aggregate) ltac:(discriminate) eq_refl)
    as (percent & r & w' & evs & Hp & Hrun & Htr & Hagg & Hdue & _).
  assert (Hpercent : percent = 100) by (vm_compute in Hp; congruence).
  subst percent. exists r, w', evs.
  split; [exact Hrun |]. split; [exact Htr |]. split; [exact Hagg |].
  apply Hdue. split; [reflexivity |].
  right. exists Sample.previous_attempt. split; [reflexivity | discriminate].
Defined.


Lemma save_results_always_terminal_witness :
  let env := Sample.broken_store Sample.crashed in
  store_keeps_loop env
  /\ (List.length (attempt_results (Sample.world 2)) <= List.length [0; 2])%nat
  /\ terminal_writes_sent Sample.map_verdict Sample.map_attempt_status env
                          Sample.attempt "user" "task" [0; 2] ["log"]
                          (Sample.world 2) [mkResult "t" 0; mkResult "t" 2]
  /\ terminal_writes_sent Sample.map_verdict Sample.map_attempt_status env
                          Sample.attempt "user" "task" [8; 8] ["log"]
                          (Sample.world 2) [mkResult "t" 8; mkResult "t" 8].
Proof.
  cbv zeta.
  assert (Hstore : store_keeps_loop (Sample.broken_store Sample.crashed))
    by (repeat split; intros; reflexivity).
  split; [exact Hstore |]. split; [vm_compute; lia |].
  destruct (save_results_always_terminal
              Sample.map_verdict Sample.map_attempt_status
              (Sample.broken_store Sample.crashed)
              Sample.attempt "user" "task" ["log"] (Sample.world 2) Hstore)
    as [Hany Hfallback].
  split.
  - apply (Hany [0; 2]). vm_compute. lia.
  - apply (Hfallback "SE").
Defined.

(** C7 as stated fails on a call with fewer verdicts than Result slots:
    line 105 raises IndexError before the gather, and neither the
    deletion of the pending descriptor nor any other request is sent. *)
Lemma save_results_with_a_verdict_missing :
  let run :=
    _save_results Sample.map_verdict Sample.map_attempt_status
                  (Sample.environment 1 None Sample.crashed)
                  Sample.attempt "user" "task" [0] ["log"] (Sample.world 2) in
  fst run = inl IndexError
  /\ trace (snd run) = trace (Sample.world 2)
  /\ ~ In (EvWrite (DeletePending (spec Sample.attempt))) (trace (snd run)).
Proof.
  cbv zeta. split; [reflexivity |]. split; [reflexivity |]. intros [].
Qed.


(** C10 as stated fails on an attempt without Result slots: the lease
    is lost, [_save_task_results] raises at line 153 and nothing is sent
    to the user-task aggregate. *)
Lemma lease_loss_without_slots :
  ~ lease_loss_sends_terminal_writes
      Sample.map_verdict Sample.map_attempt_status
      (Sample.environment 0 None Sample.crashed)
      Sample.attempt "user" "task" (Sample.world 0).
Proof.
  intros H.
  destruct (H (fun tr => ex_intro _ None eq_refl) 0 0 eq_refl eq_refl
              ltac:(discriminate))
    as (r & w' & evs & Hrun & Htr & _ & _ & (ev & Hin & Hagg) & _).
  vm_compute in Hrun. injection Hrun as _ Hw'. subst w'.
  cbn [trace Sample.world] in Htr. rewrite app_nil_r in Htr. subst evs.
  cbn [In] in Hin.
  repeat (destruct Hin as [Hev | Hin]; [subst ev; discriminate Hagg |]).
  contradiction.
Qed.

(** The aggregation on the three sequences of the specification. *)
Example final_info_first_failure :
  fst (_get_attempt_final_info Sample.map_verdict (Sample.slots 4) [0; 0; 2; 0]
                               (Sample.world 4))
  = inr (2, 3).
Proof. reflexivity. Qed.

Example final_info_all_passed :
  fst (_get_attempt_final_info Sample.map_verdict (Sample.slots 3) [0; 0; 0]
                               (Sample.world 3))
  = inr (0, 3).
Proof. reflexivity. Qed.

Example final_info_no_tests :
  fst (_get_attempt_final_info Sample.map_verdict [] [] (Sample.world 0))
  = inr (Sample.map_verdict "NT", 0).
Proof. reflexivity. Qed.

(** A verdicts sequence shorter than the Result list: line 105 raises
    IndexError after the first slot has been written. *)
Example final_info_short_verdicts :
  _get_attempt_final_info Sample.map_verdict (Sample.slots 2) [0] (Sample.world 2)
  = (inl IndexError, mkWorld [mkResult "t" 0; mkResult "t" 7] []).
Proof. reflexivity. Qed.

(** The wrapper over a store that refuses every write: the fallback
    raises, the second alert is sent, nothing is handed over. *)
Example soft_run_broken_store :
  let run :=
    _soft_run Sample.map_verdict Sample.map_attempt_status
              (Sample.broken_store Sample.crashed)
              Sample.raising_handler Sample.attempt "user" "task" tt
              (Sample.world 2) in
  fst run = inr tt
  /\ alerts_of (trace (snd run))
     = [EvAlert "ManagerError (when saving results)"
                ("a1" ++ newline ++ "connection lost")%string;
        EvAlert "ManagerError" ("a1" ++ newline ++ "checker crashed")%string].
Proof. vm_compute. split; reflexivity. Qed.

(** The two figures of the specification. *)
Example percent_tests_3_of_7 : percent_tests_at 3 7 = inr 42.
Proof. vm_compute. reflexivity. Qed.

Example percent_tests_3_of_4 : percent_tests_at 3 4 = inr 75.
Proof. vm_compute. reflexivity. Qed.

(** Up to a hundred tests, line 153 misses the exact percentage on four
    pairs, the first of them with fifty tests. *)
Lemma percent_mismatches_up_to_100 :
  percent_mismatches 100 = [(29, 50); (29, 100); (57, 100); (58, 100)].
Proof. vm_compute. reflexivity. Qed.

(** C6, on fifty verdicts of which twenty-nine are OK.  The exact
    percentage is 58; binary64 gives 29/50 = 0.58 rounded below, the
    product by 100 is 57.99999999999999 and line 153 stores 57. *)
Theorem percent_tests_29_of_50 :
  len Sample.verdicts_29_of_50 = 50
  /\ len (filter (fun verdict => verdict =? 0) Sample.verdicts_29_of_50) = 29
  /\ exact_percent 29 50 = 58
  /\ percent_tests_at 29 50 = inr 57
  /\ snd (_save_task_results Sample.map_verdict
                             (Sample.environment 1 None Sample.crashed)
                             Sample.attempt "user" "task"
                             Sample.verdicts_29_of_50 2 30 (Sample.world 50))
     = mkWorld (Sample.slots 50)
               [EvWrite (InsertUserTaskResult
                           (mkUserTaskResult
                              "task" "user"
                              [mkSnapshot "a1" 1700000000 29 57 2 30]
                              [mkSnapshot "a1" 1700000000 29 57 2 30]));
                EvFindUserTaskResult "task" "user"].
Proof. vm_compute. repeat split; reflexivity. Qed.

(** ** Further theorems on the sample installation *)


Lemma percent_tests_at_extremes_witness :
  1 <= 7 /\ percent_tests_at 7 7 = inr 100 /\ percent_tests_at 0 7 = inr 0.
Proof.
  split; [lia |]. apply (percent_tests_at_extremes 7). lia.
Defined.


Lemma final_info_index_error_witness :
  (List.length [0; 2] < List.length (Sample.slots 3))%nat
  /\ exists results' : list Result,
      _get_attempt_final_info Sample.map_verdict (Sample.slots 3) [0; 2]
                              (Sample.world 3)
      = (inl IndexError, mkWorld results' (trace (Sample.world 3)))
      /\ map test results' = map test (Sample.slots 3)
      /\ firstn (List.length [0; 2]) (map verdict results') = [0; 2]
      /\ skipn (List.length [0; 2]) results' = skipn (List.length [0; 2]) (Sample.slots 3).
Proof.
  split; [vm_compute; lia |].
  apply (final_info_index_error Sample.map_verdict (Sample.slots 3) [0; 2]
                                (Sample.world 3)).
  vm_compute. lia.
Defined.

Lemma final_info_ok_iff_all_passed_witness :
  Sample.slots 2 <> []
  /\ List.length (Sample.slots 2) = List.length [0; 0]
  /\ exists (final_verdict final_test : Z) (results' : list Result),
      _get_attempt_final_info Sample.map_verdict (Sample.slots 2) [0; 0]
                              (Sample.world 2)
      = (inr (final_verdict, final_test),
         mkWorld results' (trace (Sample.world 2)))
      /\ 1 <= final_test <= len [0; 0]
      /\ (final_verdict = 0 <-> Forall (fun v => v = 0) [0; 0])
      /\ (final_verdict = 0 -> final_test = len [0; 0])
      /\ nth_error [0; 0] (Z.to_nat (final_test - 1)) = Some final_verdict.
Proof.
  split; [discriminate |]. split; [reflexivity |].
  apply (final_info_ok_iff_all_passed Sample.map_verdict (Sample.slots 2) [0; 0]
                                      (Sample.world 2));
    [discriminate | reflexivity].
Defined.

Lemma save_results_too_few_verdicts_witness :
  let env := Sample.environment 1 None Sample.crashed in
  (List.length [0] < List.length (attempt_results (Sample.world 2)))%nat
  /\ exists w' : World,
      _save_results Sample.map_verdict Sample.map_attempt_status env
                    Sample.attempt "user" "task" [0] ["log"] (Sample.world 2)
      = (inl IndexError, w')
      /\ trace w' = trace (Sample.world 2)
      /\ map test (attempt_results w') = map test (attempt_results (Sample.world 2)).
Proof.
  cbv zeta. split; [vm_compute; lia |].
  apply (save_results_too_few_verdicts
           Sample.map_verdict Sample.map_attempt_status
           (Sample.environment 1 None Sample.crashed)
           Sample.attempt "user" "task" [0] ["log"] (Sample.world 2)).
  vm_compute. lia.
Defined.



Lemma handle_tests_checker_graded_witness :
  let env := Sample.graded 1 [0; 2] in
  let w1 := after_status_updates Sample.map_attempt_status Sample.attempt
                                 (Sample.world 2) in
  let call := TestsCheckerStart Sample.attempt [] "a1" Sample.language_py in
  _set_testing Sample.map_verdict Sample.map_attempt_status env
               Sample.attempt "user" "task" (Sample.world 2)
  = (inr true, w1)
  /\ (forall tr, db_find_language env tr "py" = inr Sample.language_py)
  /\ (forall tr, fs_create_program_folder env tr "a1" = inr "a1")
  /\ (forall tr, strategy_start env tr call = inr ([0; 2], ["log"]))
  /\ (forall tr, fs_delete_folder env tr "a1" = inr tt)
  /\ (List.length (attempt_results w1) <= List.length [0; 2])%nat
  /\ exists (w3 : World) (evs : list Event) (final_verdict final_test : Z),
      _handle_tests_checker Sample.map_verdict Sample.map_attempt_status env
                            Sample.attempt "user" "task" [] Sample.queue_item
                            (Sample.world 2)
      = (inr tt, w3)
      /\ trace w3
         = evs ++ EvDeleteFolder "a1" :: EvStart call :: EvCreateFolder "a1"
               :: EvFindLanguage "py" :: trace w1
      /\ Forall storage_or_alert evs
      /\ In (EvWrite (DeletePending "a1")) evs
      /\ In (EvWrite (UpdateAttemptFinal "a1" 2 final_verdict final_test
                                         [mkResult "t" 0; mkResult "t" 2]
                                         ["log"])) evs
      /\ In (EvWrite (UpdateUserTaskStatus "a1" 2)) evs.
Proof.
  cbv zeta. repeat (split; [first [reflexivity | vm_compute; lia] |]).
  apply (handle_tests_checker_graded
           Sample.map_verdict Sample.map_attempt_status (Sample.graded 1 [0; 2])
           Sample.attempt "user" "task" [] Sample.queue_item (Sample.world 2)
           (after_status_updates Sample.map_attempt_status Sample.attempt
                                 (Sample.world 2))
           Sample.language_py "a1" [0; 2] ["log"]);
    first [reflexivity | vm_compute; lia].
Defined.


Lemma handle_custom_checker_graded_witness :
  let env := Sample.graded 1 [0; 2] in
  let w1 := after_status_updates Sample.map_attempt_status Sample.attempt
                                 (Sample.world 2) in
  let chk := mkChecker "cpp" "checker.cpp" in
  let queue_item := mkPendingQueueItem 0 1 (Some chk) in
  let call := CustomCheckerStart chk Sample.attempt [] "a1" Sample.language_py
                                 (mkLanguage "cpp" 0 0 0) in
  checker queue_item = Some chk
  /\ _set_testing Sample.map_verdict Sample.map_attempt_status env
                  Sample.attempt "user" "task" (Sample.world 2)
     = (inr true, w1)
  /\ (forall tr, db_find_language env tr "py" = inr Sample.language_py)
  /\ (forall tr, db_find_language env tr "cpp" = inr (mkLanguage "cpp" 0 0 0))
  /\ (forall tr, fs_create_program_folder env tr "a1" = inr "a1")
  /\ (forall tr, strategy_start env tr call = inr ([0; 2], ["log"]))
  /\ (forall tr, fs_delete_folder env tr "a1" = inr tt)
  /\ (List.length (attempt_results w1) <= List.length [0; 2])%nat
  /\ exists (w3 : World) (evs : list Event) (final_verdict final_test : Z),
      _handle_custom_checker Sample.map_verdict Sample.map_attempt_status env
                             Sample.attempt "user" "task" [] queue_item
                             (Sample.world 2)
      = (inr tt, w3)
      /\ trace w3
         = evs ++ EvDeleteFolder "a1" :: EvStart call :: EvCreateFolder "a1"
               :: EvFindLanguage "cpp" :: EvFindLanguage "py" :: trace w1
      /\ Forall storage_or_alert evs
      /\ In (EvWrite (DeletePending "a1")) evs
      /\ In (EvWrite (UpdateAttemptFinal "a1" 2 final_verdict final_test
                                         [mkResult "t" 0; mkResult "t" 2]
                                         ["log"])) evs
      /\ In (EvWrite (UpdateUserTaskStatus "a1" 2)) evs.
Proof.
  cbv zeta. repeat (split; [first [reflexivity | vm_compute; lia] |]).
  apply (handle_custom_checker_graded
           Sample.map_verdict Sample.map_attempt_status (Sample.graded 1 [0; 2])
           Sample.attempt "user" "task" []
           (mkPendingQueueItem 0 1 (Some (mkChecker "cpp" "checker.cpp")))
           (mkChecker "cpp" "checker.cpp") (Sample.world 2)
           (after_status_updates Sample.map_attempt_status Sample.attempt
                                 (Sample.world 2))
           Sample.language_py (mkLanguage "cpp" 0 0 0) "a1" [0; 2] ["log"]);
    first [reflexivity | vm_compute; lia].
Defined.


Lemma handle_code_task_raises_before_dispatch_witness :
  Sample.group_values [] [] = inr [[]]
  /\ _handle_code_task Sample.map_verdict Sample.map_attempt_status
                       (Sample.graded 1 [0; 2]) Sample.group_values
                       Sample.attempt "user" "task" [] []
                       (mkPendingQueueItem 0 5 None) (Sample.world 2)
     = (inl (Raised "5"), Sample.world 2).
Proof.
  split; [reflexivity |].
  apply (proj2 (handle_code_task_raises_before_dispatch
                  Sample.map_verdict Sample.map_attempt_status
                  (Sample.graded 1 [0; 2]) Sample.group_values
                  Sample.attempt "user" "task" [] []
                  (mkPendingQueueItem 0 5 None) (Sample.world 2) (Sample.world 2)
                  (Raised "5"))).
  split; [reflexivity |]. right.
  split; [exists [[]]; reflexivity |].
  split; [discriminate |]. split; [discriminate | reflexivity].
Defined.

Lemma task_tests_map_last_wins_witness :
  let found := [mkTaskTest "t1" "1"; mkTaskTest "t2" "2"; mkTaskTest "t1" "3"] in
  dict_get (build_task_tests_map found) "t1" = Some (mkTaskTest "t1" "3")
  /\ (dict_get (build_task_tests_map found) "t3" = None
      <-> ~ In "t3" (map tt_spec found)).
Proof.
  cbv zeta. split.
  - apply (proj2 (proj2 (task_tests_map_last_wins
                           [mkTaskTest "t1" "1"; mkTaskTest "t2" "2";
                            mkTaskTest "t1" "3"] "t1"))
                 [mkTaskTest "t1" "1"; mkTaskTest "t2" "2"] []);
      [reflexivity | reflexivity | intros []].
  - apply (proj1 (proj2 (task_tests_map_last_wins
                           [mkTaskTest "t1" "1"; mkTaskTest "t2" "2";
                            mkTaskTest "t1" "3"] "t3"))).
Defined.

Lemma lookup_task_tests_parallel_witness :
  let found := [mkTaskTest "t2" "4"; mkTaskTest "t1" "2"] in
  let task_tests := [mkTaskTest "t1" "2"; mkTaskTest "t2" "4"] in
  lookup_task_tests Sample.repr_str (build_task_tests_map found) Sample.two_tests
  = inr task_tests
  /\ List.length task_tests = List.length Sample.two_tests
  /\ map tt_spec task_tests = map test Sample.two_tests
  /\ Forall (fun task_test => In task_test found) task_tests.
Proof.
  cbv zeta. split; [reflexivity |].
  apply (lookup_task_tests_parallel
           Sample.repr_str [mkTaskTest "t2" "4"; mkTaskTest "t1" "2"]
           Sample.two_tests [mkTaskTest "t1" "2"; mkTaskTest "t2" "4"]).
  reflexivity.
Defined.

Lemma lookup_task_tests_missing_witness :
  let found := [mkTaskTest "t1" "2"] in
  Sample.two_tests = [mkResult "t1" 7] ++ mkResult "t2" 7 :: []
  /\ Forall (fun r => In (test r) (map tt_spec found)) [mkResult "t1" 7]
  /\ ~ In "t2" (map tt_spec found)
  /\ lookup_task_tests Sample.repr_str (build_task_tests_map found) Sample.two_tests
     = inl (Raised "'t2'").
Proof.
  cbv zeta.
  assert (Hbefore : Forall (fun r => In (test r) (map tt_spec [mkTaskTest "t1" "2"]))
                           [mkResult "t1" 7])
    by (repeat constructor).
  assert (Hmiss : ~ In "t2" (map tt_spec [mkTaskTest "t1" "2"]))
    by (intros [H | []]; discriminate H).
  split; [reflexivity |]. split; [exact Hbefore |]. split; [exact Hmiss |].
  exact (proj1 (lookup_task_tests_missing
                  Sample.repr_str [mkTaskTest "t1" "2"] Sample.two_tests)
               [mkResult "t1" 7] (mkResult "t2" 7) [] eq_refl Hbefore Hmiss).
Defined.

Lemma manager_start_raises_before_sending_witness :
  let w' := mkWorld Sample.two_tests [] in
  store_keeps_loop (Sample.graded 1 [0; 2])
  /\ manager_start Sample.map_verdict Sample.map_attempt_status
                (Sample.graded 1 [0; 2]) Sample.group_values
                Sample.prepare_test_groups Sample.repr_str
                (Sample.loader 7 0 [mkTaskTest "t1" "2"; mkTaskTest "t2" "4"])
                "a1" "user" "task" (Sample.world 0)
  = (inl (Raised "7"), w')
  /\ trace w' = trace (Sample.world 0).
Proof.
  cbv zeta. split; [repeat split; intros; exact I |]. split; [reflexivity |].
  apply (manager_start_raises_before_sending
           Sample.map_verdict Sample.map_attempt_status
           (Sample.graded 1 [0; 2]) Sample.group_values
           Sample.prepare_test_groups Sample.repr_str
           (Sample.loader 7 0 [mkTaskTest "t1" "2"; mkTaskTest "t2" "4"])
           "a1" "user" "task" (Sample.world 0) (mkWorld Sample.two_tests [])
           (Raised "7")).
  - repeat split; intros; exact I.
  - reflexivity.
Defined.

